(** * An OpenAI-compatible proxy for the Poe API: model and proofs

    The repository holds two Deno programs.  [PoeServer] embeds
    [src/poe_server_模型映射版本.ts], the proxy that filters request
    fields and emulates image generation through a chat completion.
    [Part000] embeds [src/unnamed/part_000], the plain forwarding proxy:
    the loading of the model mapping and its reverse, the resolution of a
    name, the bearer check, the forwarding of a chat completion and the
    list of model identifiers.

    The programs are TypeScript over untyped JSON ([any]), so the embedding
    works on JavaScript values: a number is an IEEE binary64 float, a string
    is its sequence of UTF-16 code units, an object is the list of its own
    properties in the order the language lists them (array indices first,
    then the other names as they were added), with the members it inherits
    from [Object.prototype] behind them.  Truthiness, [||], [?.], property reads
    on [null], the conversions that can throw and exceptions are written
    out as the language defines them.
    The upstream call and the clock are effects of a small interaction
    monad.  Of a [console.log] line only the conversion of its arguments to
    text is kept, since that can throw. *)

From Stdlib Require Import List NArith ZArith Bool String Ascii Lia Floats.
Import ListNotations.

Set Implicit Arguments.

(** ** Strings *)

Definition code_unit := N.
Definition jsstring := list code_unit.

(** A string literal of the source, for literals within ASCII. *)
Definition js (s : string) : jsstring :=
  List.map N_of_ascii (list_ascii_of_string s).

Definition jsstring_eq_dec : forall a b : jsstring, {a = b} + {a <> b} :=
  list_eq_dec N.eq_dec.

Definition str_eqb (a b : jsstring) : bool :=
  if jsstring_eq_dec a b then true else false.

(** [s.startsWith(p)], returning what follows the prefix. *)
Fixpoint strip_prefix (p s : jsstring) : option jsstring :=
  match p, s with
  | [], _ => Some s
  | _ :: _, [] => None
  | a :: p', b :: s' => if N.eqb a b then strip_prefix p' s' else None
  end.

(** [s.replace(pat, rep)] for a string pattern: the first occurrence only.
    ([rep] holds no [$], as in the source.) *)
Fixpoint String_replace (s pat rep : jsstring) : jsstring :=
  match strip_prefix pat s with
  | Some rest => rep ++ rest
  | None =>
      match s with
      | [] => []
      | c :: s' => c :: String_replace s' pat rep
      end
  end.

(** WhiteSpace and LineTerminator code units: what [\s] matches in a regular
    expression and what [trim()] removes. *)
Definition is_whitespace (c : code_unit) : bool :=
  ((9 <=? c) && (c <=? 13) || (c =? 32) || (c =? 160) || (c =? 5760)
   || (8192 <=? c) && (c <=? 8202) || (c =? 8232) || (c =? 8233)
   || (c =? 8239) || (c =? 8287) || (c =? 12288) || (c =? 65279))%N.

Fixpoint drop_while (f : code_unit -> bool) (s : jsstring) : jsstring :=
  match s with
  | [] => []
  | c :: s' => if f c then drop_while f s' else s
  end.

Fixpoint take_while (f : code_unit -> bool) (s : jsstring) : jsstring :=
  match s with
  | [] => []
  | c :: s' => if f c then c :: take_while f s' else []
  end.

(** [s.trim()] *)
Definition String_trim (s : jsstring) : jsstring :=
  rev (drop_while is_whitespace (rev (drop_while is_whitespace s))).

(** *** The regular expression [/https:\/\/[^\s\)]+/g] *)

(** The class [[^\s\)]]. *)
Definition url_char (c : code_unit) : bool :=
  negb (is_whitespace c || (c =? 41)%N).

(** The expression anchored at the head of [s]: the matched text, when the
    head is [https://] followed by at least one character of the class.  The
    [+] is greedy and nothing follows it, so the match takes the whole run. *)
Definition url_match_here (s : jsstring) : option jsstring :=
  match strip_prefix (js "https://") s with
  | Some rest =>
      match take_while url_char rest with
      | [] => None
      | run => Some (js "https://" ++ run)
      end
  | None => None
  end.

(** All matches, left to right, as a global expression finds them: after a
    match the search resumes at its end.  [inside] counts the code units of
    the current match still to be passed over. *)
Fixpoint url_matches (s : jsstring) (inside : nat) : list jsstring :=
  match s with
  | [] => []
  | _ :: s' =>
      match inside with
      | S k => url_matches s' k
      | O =>
          match url_match_here s with
          | Some m => m :: url_matches s' (List.length m - 1)
          | None => url_matches s' 0
          end
      end
  end.

(** [s.replace(/https:\/\/[^\s\)]+/g, '')]: every match removed. *)
Fixpoint url_strip (s : jsstring) (inside : nat) : jsstring :=
  match s with
  | [] => []
  | c :: s' =>
      match inside with
      | S k => url_strip s' k
      | O =>
          match url_match_here s with
          | Some m => url_strip s' (List.length m - 1)
          | None => c :: url_strip s' 0
          end
      end
  end.

(** ** Values *)

#[warnings="-register-all"]
Inductive value : Type :=
| Undefined
| Null
| Bool (b : bool)
| Num (x : float)
| Str (s : jsstring)
| Arr (items : list value)
| Obj (props : list (jsstring * value))
| Fun (name : jsstring).

(** No JSON text gives a [Fun]; it is what reading a member of
    [Object.prototype] through an object gives, a built-in function, here by
    its name. *)

(** Own properties of an object, by name. *)
Fixpoint lookup (A : Type) (props : list (jsstring * A)) (k : jsstring) : option A :=
  match props with
  | [] => None
  | (k', v) :: rest => if jsstring_eq_dec k k' then Some v else lookup rest k
  end.

(** The number a name is when it is an array index: the decimal numeral,
    without a leading zero, of an integer below [2^32 - 1].  An object lists
    its own properties with such names first, by ascending number, and the
    others after them in the order they were added. *)
Fixpoint numeral (s : jsstring) (acc : N) : option N :=
  match s with
  | [] => Some acc
  | c :: s' =>
      if ((48 <=? c) && (c <=? 57))%N then numeral s' (10 * acc + (c - 48))%N
      else None
  end.

Definition array_index (k : jsstring) : option N :=
  match k with
  | [] => None
  | [c] => numeral k 0
  | c :: _ =>
      if (c =? 48)%N then None
      else match numeral k 0 with
           | Some n => if (n <? 4294967295)%N then Some n else None
           | None => None
           end
  end.

(** The new value of a property that is there, in its place. *)
Fixpoint replace_own (A : Type) (props : list (jsstring * A)) (k : jsstring) (v : A)
  : list (jsstring * A) :=
  match props with
  | [] => []
  | (k', v') :: rest =>
      if jsstring_eq_dec k k' then (k', v) :: rest
      else (k', v') :: replace_own rest k v
  end.

(** A new property whose name is the array index [n]: after the indices
    below [n], before everything else. *)
Fixpoint insert_index (A : Type) (props : list (jsstring * A)) (n : N) (k : jsstring)
    (v : A) : list (jsstring * A) :=
  match props with
  | [] => [(k, v)]
  | (k', v') :: rest =>
      match array_index k' with
      | Some n' =>
          if (n' <? n)%N then (k', v') :: insert_index rest n k v
          else (k, v) :: props
      | None => (k, v) :: props
      end
  end.

(** [o[k] = v] on own properties: an existing property keeps its place; a
    new one goes last, or among the array indices when its name is one. *)
Definition assign (A : Type) (props : list (jsstring * A)) (k : jsstring) (v : A)
  : list (jsstring * A) :=
  match lookup props k with
  | Some _ => replace_own props k v
  | None =>
      match array_index k with
      | Some n => insert_index props n k v
      | None => props ++ [(k, v)]
      end
  end.

(** What reading the property [k] gives: the own property, or [undefined]. *)
Definition own (props : list (jsstring * value)) (k : jsstring) : value :=
  match lookup props k with
  | Some x => x
  | None => Undefined
  end.

Definition is_undefined (v : value) : bool :=
  match v with Undefined => true | _ => false end.

Definition is_nullish (v : value) : bool :=
  match v with Undefined | Null => true | _ => false end.

(** ToBoolean: [undefined], [null], [false], [0], [-0], [NaN] and the empty
    string are falsy. *)
Definition ToBoolean (v : value) : bool :=
  match v with
  | Undefined | Null => false
  | Bool b => b
  | Num x => negb (is_zero x || is_nan x)
  | Str [] => false
  | Str (_ :: _) => true
  | Arr _ | Obj _ | Fun _ => true
  end.

(** [a || b] *)
Definition or_else (a b : value) : value := if ToBoolean a then a else b.

(** [v === s] for a string [s]. *)
Definition strict_eq_str (v : value) (s : jsstring) : bool :=
  match v with
  | Str s' => str_eqb s' s
  | _ => false
  end.

(** [v === true] *)
Definition strict_eq_true (v : value) : bool :=
  match v with
  | Bool true => true
  | _ => false
  end.

(** ** Exceptions *)

Inductive error : Type :=
| TypeError
| SyntaxError
| NetworkError.

Inductive result (A : Type) : Type :=
| Ok (a : A)
| Throw (e : error).
Arguments Throw {A} e.

Definition bind_result (A B : Type) (r : result A) (f : A -> result B) : result B :=
  match r with
  | Ok a => f a
  | Throw e => Throw e
  end.

Notation "x <~ r ;; k" := (bind_result r (fun x => k))
  (at level 61, r at next level, right associativity).

(** ** Numbers *)

(** [Math.max(a, b)] and [Math.min(a, b)] on numbers: NaN if either is NaN,
    and [+0] counts as larger than [-0]. *)
Definition Math_max (a b : float) : float :=
  if is_nan a || is_nan b then nan
  else if (a <? b)%float then b
  else if (b <? a)%float then a
  else if get_sign a then b else a.

Definition Math_min (a b : float) : float :=
  if is_nan a || is_nan b then nan
  else if (a <? b)%float then a
  else if (b <? a)%float then b
  else if get_sign a then a else b.

(** ** Conversions

    Two conversions of the language are taken as given: [Number::toString]
    (the shortest decimal text of a float) and [StringToNumber] (the float a
    numeric text denotes).  The programs reach them only when a caller sends
    a number where a name is expected, or text where a number is. *)
Record Runtime : Type := {
  NumberToString : float -> jsstring;
  StringToNumber : jsstring -> float
}.

Section Conversions.
Variable rt : Runtime.

Fixpoint join (sep : jsstring) (parts : list jsstring) : jsstring :=
  match parts with
  | [] => []
  | [p] => p
  | p :: rest => p ++ sep ++ join sep rest
  end.

(** ToPrimitive returns for this value.  An object of a JSON text inherits
    [toString] and [valueOf], and [valueOf] gives the object back, so the
    conversion rests on [toString]: an own property of that name, which in
    JSON is never a function, hides the inherited one and the conversion
    throws a TypeError, under either hint.  An array converts its elements
    one by one. *)
Fixpoint converts (v : value) : bool :=
  match v with
  | Obj props =>
      match lookup props (js "toString") with
      | Some _ => false
      | None => true
      end
  | Arr items => forallb converts items
  | _ => true
  end.

(** The text ToString gives a value that [converts].  An array joins its
    elements with commas, [null] and [undefined] elements as empty. *)
Fixpoint ToString (v : value) : jsstring :=
  match v with
  | Undefined => js "undefined"
  | Null => js "null"
  | Bool true => js "true"
  | Bool false => js "false"
  | Num x => NumberToString rt x
  | Str s => s
  | Arr items =>
      join (js ",")
        (List.map (fun i => if is_nullish i then [] else ToString i) items)
  | Obj _ => js "[object Object]"
  | Fun name => js "function " ++ name ++ js "() { [native code] }"
  end.

(** The number ToNumber gives a value that [converts].  Arrays and objects go
    through their text. *)
Definition ToNumber (v : value) : float :=
  match v with
  | Undefined => nan
  | Null => zero
  | Bool true => one
  | Bool false => zero
  | Num x => x
  | Str s => StringToNumber rt s
  | Arr _ | Obj _ | Fun _ => StringToNumber rt (ToString v)
  end.

(** ToString as the code applies it, in a computed property name [o[v]] and
    in a template literal [`${v}`]: the text, or the TypeError. *)
Definition to_string (v : value) : result jsstring :=
  if converts v then Ok (ToString v) else Throw TypeError.

(** ToNumber as [Math.max] applies it to an argument. *)
Definition to_number (v : value) : result float :=
  if converts v then Ok (ToNumber v) else Throw TypeError.

End Conversions.

(** ** Reading and writing properties *)

(** [v.k]: reading a property of [undefined] or [null] throws; an object
    gives its own property or [undefined]; the names the programs read this
    way are no members of [Object.prototype] and no properties of a number,
    a string, a boolean, an array or a function. *)
Definition get (v : value) (k : jsstring) : result value :=
  match v with
  | Undefined | Null => Throw TypeError
  | Obj props => Ok (own props k)
  | _ => Ok Undefined
  end.

(** [v?.k] *)
Definition get_opt (v : value) (k : jsstring) : value :=
  match get v k with
  | Ok x => x
  | Throw _ => Undefined
  end.

(** [v?.[0]] *)
Definition first_opt (v : value) : value :=
  match v with
  | Arr (x :: _) => x
  | Str (c :: _) => Str [c]
  | Obj props => own props (js "0")
  | _ => Undefined
  end.

(** [v.k = x] in a module (strict mode): it throws on [undefined], [null] and
    on a primitive; an array or a function takes the property beside what
    it holds, where the programs read it back only to write it out as
    text, which returns for what it then holds as it does for
    [undefined]. *)
Definition set (v : value) (k : jsstring) (x : value) : result value :=
  match v with
  | Obj props => Ok (Obj (assign props k x))
  | Arr items => Ok (Arr items)
  | Fun name => Ok (Fun name)
  | _ => Throw TypeError
  end.

(** [Math.floor(x)]: a finite float is [m * 2^e]; with [e < 0] the floor is
    an integer of at most 53 bits, which a float holds exactly. *)
Definition Math_floor (x : float) : float :=
  match Prim2SF x with
  | S754_finite s m e =>
      if (0 <=? e)%Z then x
      else
        let z := ((if s then Z.neg m else Z.pos m) / 2 ^ (- e))%Z in
        SF2Prim (binary_normalize prec emax z 0 false)
  | _ => x
  end.

(** The number a length is: exact, a length being far below [2^53]. *)
Definition Number_of_nat (n : nat) : float :=
  SF2Prim (binary_normalize prec emax (Z.of_nat n) 0 false).

(** ** Effects: the upstream call and the clock *)

(** The arguments of [fetch(url, init)]; [fetch_body] is the value whose
    [JSON.stringify] text is sent.  (That text leaves out a property that
    holds a function, and writes NaN as [null].) *)
Record FetchInit : Type := {
  fetch_url : jsstring;
  fetch_method : jsstring;
  fetch_headers : list (jsstring * jsstring);
  fetch_body : value
}.

(** What the upstream answers: its status, the bytes of its body, and what
    [response.json()] makes of them ([Throw] when they are no JSON text). *)
Record UpstreamResponse : Type := {
  up_status : Z;
  up_body : jsstring;
  up_json : result value
}.

(** [response.ok] *)
Definition up_ok (r : UpstreamResponse) : bool :=
  ((200 <=? up_status r) && (up_status r <=? 299))%Z.

Inductive io (A : Type) : Type :=
| Ret (a : A)
| Fetch (init : FetchInit) (k : result UpstreamResponse -> io A)
| DateNow (k : float -> io A).
Arguments Fetch {A} init k.
Arguments DateNow {A} k.

(** An async function body: effects, then a value or an exception. *)
Definition prog (A : Type) : Type := io (result A).

Definition ret (A : Type) (a : A) : prog A := Ret (Ok a).
Definition throw (A : Type) (e : error) : prog A := Ret (Throw e).
Arguments throw {A} e.

Fixpoint bind (A B : Type) (m : prog A) (f : A -> prog B) : prog B :=
  match m with
  | Ret (Ok a) => f a
  | Ret (Throw e) => Ret (Throw e)
  | Fetch init k => Fetch init (fun r => bind (k r) f)
  | DateNow k => DateNow (fun t => bind (k t) f)
  end.

Notation "x <- m ;; k" := (bind m (fun x => k))
  (at level 61, m at next level, right associativity).

(** [try { m } catch { h }] *)
Fixpoint try_catch (A : Type) (m : prog A) (h : error -> prog A) : prog A :=
  match m with
  | Ret (Ok a) => Ret (Ok a)
  | Ret (Throw e) => h e
  | Fetch init k => Fetch init (fun r => try_catch (k r) h)
  | DateNow k => DateNow (fun t => try_catch (k t) h)
  end.

(** [await fetch(url, init)]: the response, or the rejection as an exception. *)
Definition fetch (init : FetchInit) : prog UpstreamResponse :=
  Fetch init (fun r => Ret r).

(** [Date.now()] *)
Definition Date_now : prog float := DateNow (fun t => Ret (Ok t)).

Fixpoint mapM (A B : Type) (f : A -> prog B) (l : list A) : prog (list B) :=
  match l with
  | [] => ret []
  | a :: rest => b <- f a ;; bs <- mapM f rest ;; ret (b :: bs)
  end.

(** The world a handler runs in: what the upstream answers to each call, and
    what the clock shows at its n-th reading. *)
Record World : Type := {
  upstream : FetchInit -> result UpstreamResponse;
  clock : nat -> float
}.

(** Running a program: its outcome and the upstream calls it made, in order. *)
Fixpoint run (A : Type) (w : World) (tick : nat) (p : io A) : A * list FetchInit :=
  match p with
  | Ret a => (a, [])
  | Fetch init k =>
      let (a, calls) := run w tick (k (upstream w init)) in (a, init :: calls)
  | DateNow k => run w (S tick) (k (clock w tick))
  end.

(** The number of clock readings after [p] has run. *)
Fixpoint ticks (A : Type) (w : World) (tick : nat) (p : io A) : nat :=
  match p with
  | Ret _ => tick
  | Fetch init k => ticks w tick (k (upstream w init))
  | DateNow k => ticks w (S tick) (k (clock w tick))
  end.

(** ** Requests and responses *)

(** An inbound request: method, path of its URL, headers (names in lower
    case, as [Headers] keeps them) and what [req.json()] gives. *)
Record Request : Type := {
  method : jsstring;
  pathname : jsstring;
  req_headers : list (jsstring * jsstring);
  req_json : result value
}.

(** [headers.get(name)]: the header's value, or [null].  (The runtime hands
    out a value without blanks at its ends; the statements below hold of
    any value.) *)
Definition Headers_get (h : list (jsstring * jsstring)) (name : jsstring) : value :=
  match lookup h name with
  | Some v => Str v
  | None => Null
  end.

Inductive Body : Type :=
| NoBody
| JsonBody (data : value)
| TextBody (text : jsstring)
| StreamBody (bytes : jsstring).

(** A response; [JsonBody data] stands for the text [JSON.stringify(data)].
    The status check of the [Response] constructor is not modelled;
    [Response_accepts], below, tells the statuses that pass it. *)
Record Response : Type := {
  status : Z;
  headers : list (jsstring * jsstring);
  body : Body
}.

(** ** The model mapping *)

(** [Record<string, string>]: caller-facing name to upstream name, in the
    order [Object.keys] lists the names (for what [JSON.parse] read: the
    names that are array indices first, then the others as the file has
    them). *)
Definition ModelMapping : Type := list (jsstring * jsstring).

(** The members every object inherits from [Object.prototype], each with
    the name of the function it is.  (Deno removes the accessor
    [__proto__], so that name is a name like any other.) *)
Definition Object_prototype : list (jsstring * jsstring) :=
  [ (js "constructor", js "Object");
    (js "__defineGetter__", js "__defineGetter__");
    (js "__defineSetter__", js "__defineSetter__");
    (js "hasOwnProperty", js "hasOwnProperty");
    (js "__lookupGetter__", js "__lookupGetter__");
    (js "__lookupSetter__", js "__lookupSetter__");
    (js "isPrototypeOf", js "isPrototypeOf");
    (js "propertyIsEnumerable", js "propertyIsEnumerable");
    (js "toString", js "toString");
    (js "valueOf", js "valueOf");
    (js "toLocaleString", js "toLocaleString") ].

(** [mapping[key]] for a key that is text: the own property, or else the
    inherited member, or else [undefined]. *)
Definition index (mapping : ModelMapping) (key : jsstring) : value :=
  match lookup mapping key with
  | Some v => Str v
  | None =>
      match lookup Object_prototype key with
      | Some f => Fun f
      | None => Undefined
      end
  end.

(** [Object.keys(mapping)] *)
Definition Object_keys (mapping : ModelMapping) : list jsstring :=
  List.map fst mapping.

(** * src/unnamed/part_000 *)
Module Part000.

Definition UPSTREAM_API : jsstring := js "https://api.poe.com/v1/chat/completions".

(** The two globals, [modelMapping] and [reverseModelMapping]. *)
Record State : Type := {
  modelMapping : ModelMapping;
  reverseModelMapping : ModelMapping
}.

(** The loop [for (const [key, value] of Object.entries(modelMapping))
    reverseModelMapping[value] = key], from the empty object. *)
Definition reverse_entries (entries : list (jsstring * jsstring)) (rev0 : ModelMapping)
  : ModelMapping :=
  fold_left (fun rev kv => assign rev (snd kv) (fst kv)) entries rev0.

(** [loadModelMapping]; [parsed] is what [JSON.parse] makes of [models.json],
    [None] when reading or parsing fails.  (The file is taken to hold what
    the declared type says, an object of strings.) *)
Definition loadModelMapping (parsed : option ModelMapping) : State :=
  match parsed with
  | Some m => {| modelMapping := m; reverseModelMapping := reverse_entries m [] |}
  | None => {| modelMapping := []; reverseModelMapping := [] |}
  end.

Section Program.
Variable rt : Runtime.
Variable st : State.

Definition mapModelName (inputModel : value) : result value :=
  key <~ to_string rt inputModel ;;
  if ToBoolean (index (modelMapping st) key) then
    Ok (index (modelMapping st) key)
  else if ToBoolean (index (reverseModelMapping st) key) then
    Ok inputModel
  else
    Ok inputModel.

(** Lines 52-61 of [handle]: the bearer token, or [None] where [handle]
    answers 401 "Missing Bearer token". *)
Definition bearer_token (auth : value) : option jsstring :=
  match auth with
  | Str a =>
      match strip_prefix (js "Bearer ") a with
      | Some rest => Some (String_trim rest)
      | None => None
      end
  | _ => None
  end.

(** [[...new Set(names)]]: each name once, at its first place. *)
Fixpoint Set_of (names seen : list jsstring) : list jsstring :=
  match names with
  | [] => []
  | x :: rest =>
      if in_dec jsstring_eq_dec x seen then Set_of rest seen
      else x :: Set_of rest (x :: seen)
  end.

(** Lines 131-132 of [handle]: the identifiers of [GET /v1/models]. *)
Definition model_ids : list jsstring :=
  Set_of (Object_keys (modelMapping st) ++ Object_keys (reverseModelMapping st)) [].

(** What the spread [{...req.headers}] copies out of the request's [Headers]
    object is for the runtime to say; it is taken as given. *)
Variable spread_headers : Request -> list (jsstring * jsstring).

(** Lines 76-81 of [handle]: the object literal that [new Headers] is given.
    A name written after the spread replaces the spread's property of that
    name, in its place.  [new URL(UPSTREAM_API).host] is [api.poe.com]. *)
Definition upstream_headers (req : Request) (token : jsstring)
  : list (jsstring * jsstring) :=
  assign
    (assign
       (assign (spread_headers req) (js "authorization") (js "Bearer " ++ token))
       (js "content-type") (js "application/json"))
    (js "host") (js "api.poe.com").

(** The entry of [GET /v1/models] for one identifier; [created] is the clock
    as it reads, in milliseconds. *)
Definition model_entry (model : jsstring) : prog value :=
  now <- Date_now ;;
  ret (Obj [ (js "id", Str model);
             (js "object", Str (js "model"));
             (js "created", Num now);
             (js "owned_by", Str (js "proxy")) ]).

(** [handle].  The upstream call stands in no [try]: its rejection, like a
    body that is no JSON or a model that cannot be made a property name, is
    the handler's own exception.  In stream mode
    the bytes are copied from the upstream's reader as they come; the
    response is what the copy ends as.  (An upstream answer without a body,
    whose reader cannot be taken, and a token that [new Headers] refuses
    are left out.) *)
Definition handle (req : Request) : prog Response :=
  if str_eqb (method req) (js "POST")
     && str_eqb (pathname req) (js "/v1/chat/completions") then
    match bearer_token (Headers_get (req_headers req) (js "authorization")) with
    | None =>
        ret {| status := 401;
               headers := [(js "content-type", js "application/json")];
               body :=
                 JsonBody
                   (Obj [(js "error",
                      Obj [(js "message", Str (js "Missing Bearer token"))])]) |}
    | Some token =>
        reqBody <- Ret (req_json req) ;;
        model <- Ret (get reqBody (js "model")) ;;
        reqBody <- (if ToBoolean model
                    then mappedModel <- Ret (mapModelName model) ;;
                         Ret (set reqBody (js "model") mappedModel)
                    else ret reqBody) ;;
        stream <- Ret (get reqBody (js "stream")) ;;
        upstreamResp <- fetch
          {| fetch_url := UPSTREAM_API;
             fetch_method := js "POST";
             fetch_headers := upstream_headers req token;
             fetch_body := reqBody |} ;;
        if strict_eq_true stream then
          ret {| status := 200;
                 headers :=
                   [ (js "content-type", js "text/event-stream; charset=utf-8");
                     (js "cache-control", js "no-cache");
                     (js "connection", js "keep-alive");
                     (js "access-control-allow-origin", js "*") ];
                 body := StreamBody (up_body upstreamResp) |}
        else
          ret {| status := up_status upstreamResp;
                 headers :=
                   [ (js "content-type", js "application/json");
                     (js "access-control-allow-origin", js "*") ];
                 body := TextBody (up_body upstreamResp) |}
    end
  else if str_eqb (method req) (js "GET")
          && str_eqb (pathname req) (js "/v1/models") then
    data <- mapM model_entry model_ids ;;
    ret {| status := 200;
           headers :=
             [ (js "content-type", js "application/json");
               (js "access-control-allow-origin", js "*") ];
           body :=
             JsonBody (Obj [(js "object", Str (js "list")); (js "data", Arr data)]) |}
  else
    ret {| status := 200;
           headers := [(js "content-type", js "application/json")];
           body :=
             JsonBody
               (Obj [ (js "message", Str (js "OK, POST /v1/chat/completions"));
                      (js "models_loaded",
                        Num (Number_of_nat (List.length (Object_keys (modelMapping st))))) ]) |}.

End Program.
End Part000.

(** * src/poe_server_模型映射版本.ts *)
Module PoeServer.

Definition UPSTREAM_API : jsstring := js "https://api.poe.com/v1/chat/completions".

(** [loadModelMapping]; [parsed] is what [JSON.parse] makes of [models.json],
    [None] when reading or parsing fails and the mapping stays empty.  (The
    file is taken to hold what the declared type says, an object of
    strings.) *)
Definition loadModelMapping (parsed : option ModelMapping) : ModelMapping :=
  match parsed with
  | Some m => m
  | None => []
  end.

(** [errorMap] of [getErrorType], by status. *)
Definition errorMap : list (Z * jsstring) :=
  [ (400, js "invalid_request_error");
    (401, js "authentication_error");
    (402, js "insufficient_credits");
    (403, js "moderation_error");
    (404, js "not_found_error");
    (408, js "timeout_error");
    (413, js "request_too_large");
    (429, js "rate_limit_error");
    (502, js "upstream_error");
    (529, js "overloaded_error") ]%Z.

Fixpoint errorMap_get (table : list (Z * jsstring)) (status : Z) : value :=
  match table with
  | [] => Undefined
  | (code, type) :: rest =>
      if (status =? code)%Z then Str type else errorMap_get rest status
  end.

Definition getErrorType (status : Z) : value :=
  or_else (errorMap_get errorMap status) (Str (js "unknown_error")).

Definition getToken (req : Request) : value :=
  match Headers_get (req_headers req) (js "authorization") with
  | Str auth => Str (String_replace auth (js "Bearer ") [])
  | _ => Undefined
  end.

Definition jsonResponse (data : value) (status : Z) : Response :=
  {| status := status;
     headers := [ (js "content-type", js "application/json");
                  (js "access-control-allow-origin", js "*") ];
     body := JsonBody data |}.

(** Line 103 of [handleImageGeneration]:
    [chatResponse.choices?.[0]?.message?.content || ""]. *)
Definition reply_content (chatResponse : value) : result value :=
  choices <~ get chatResponse (js "choices") ;;
  Ok (or_else (get_opt (get_opt (first_opt choices) (js "message")) (js "content"))
              (Str [])).

Section Program.
Variable rt : Runtime.
(** The global [modelMapping], loaded once before the server starts. *)
Variable modelMapping : ModelMapping.

Definition mapModel (model : value) : result value :=
  key <~ to_string rt model ;;
  Ok (or_else (index modelMapping key) model).

(** Line 40 of [filterRequestBody], the value written under [temperature]. *)
Definition clamp_temperature (temperature : value) : result value :=
  if ToBoolean temperature then
    x <~ to_number rt temperature ;;
    Ok (Num (Math_min (Math_max x zero) two))
  else Ok Undefined.

Definition filterRequestBody (body : value) : result value :=
  model <~ get body (js "model") ;;
  mapped <~ mapModel model ;;
  messages <~ get body (js "messages") ;;
  max_tokens <~ get body (js "max_tokens") ;;
  max_completion_tokens <~ get body (js "max_completion_tokens") ;;
  stream <~ get body (js "stream") ;;
  stream_options <~ get body (js "stream_options") ;;
  top_p <~ get body (js "top_p") ;;
  stop <~ get body (js "stop") ;;
  temperature <~ get body (js "temperature") ;;
  clamped <~ clamp_temperature temperature ;;
  let supported :=
    [ (js "model", mapped);
      (js "messages", messages);
      (js "max_tokens", max_tokens);
      (js "max_completion_tokens", max_completion_tokens);
      (js "stream", stream);
      (js "stream_options", stream_options);
      (js "top_p", top_p);
      (js "stop", stop);
      (js "temperature", clamped);
      (js "n", Num one) ] in
  Ok (Obj (filter (fun kv => negb (is_undefined (snd kv))) supported)).

(** Lines 74-131 of [handleImageGeneration]: the log line, which writes the
    size and the prompt as text, the chat completion that stands for the
    image request, and the reply made from its answer. *)
Definition generateImage (token reqBody : value) : prog Response :=
  size <- Ret (get reqBody (js "size")) ;;
  _ <- Ret (to_string rt size) ;;
  prompt <- Ret (get reqBody (js "prompt")) ;;
  _ <- Ret (to_string rt prompt) ;;
  chatRequest <- Ret (filterRequestBody
    (Obj [ (js "model", Str (js "dall-e-3"));
           (js "messages",
             Arr [Obj [(js "role", Str (js "user")); (js "content", prompt)]]);
           (js "max_tokens", Num 1000%float) ])) ;;
  try_catch
    (response <- fetch
       {| fetch_url := UPSTREAM_API;
          fetch_method := js "POST";
          fetch_headers :=
            [ (js "authorization", js "Bearer " ++ ToString rt token);
              (js "content-type", js "application/json") ];
          fetch_body := chatRequest |} ;;
     if negb (up_ok response) then
       let errorData :=
         match up_json response with
         | Ok data => data
         | Throw _ => Obj []
         end in
       err <- Ret (get errorData (js "error")) ;;
       ret (jsonResponse
              (Obj [(js "error",
                 Obj [ (js "message",
                         or_else (get_opt err (js "message"))
                                 (Str (js "Upstream API error")));
                       (js "type", getErrorType (up_status response)) ])])
              (up_status response))
     else
       chatResponse <- Ret (up_json response) ;;
       content <- Ret (reply_content chatResponse) ;;
       match content with
       | Str text =>
           let imageUrl :=
             or_else (match url_matches text 0 with
                      | m :: _ => Str m
                      | [] => Undefined
                      end)
                     (Str []) in
           let stripped := String_trim (url_strip text 0) in
           let revisedPrompt :=
             if negb (ToBoolean (Str stripped)) || (List.length stripped <? 10)
             then prompt
             else Str stripped in
           now <- Date_now ;;
           ret (jsonResponse
                  (Obj [ (js "created", Num (Math_floor (now / 1000)));
                         (js "data",
                           Arr [Obj [ (js "revised_prompt", revisedPrompt);
                                      (js "url", imageUrl) ]]) ])
                  200)
       | _ => throw TypeError
       end)
    (fun _ =>
       ret (jsonResponse
              (Obj [(js "error",
                 Obj [ (js "message", Str (js "Network error or timeout"));
                       (js "type", Str (js "timeout_error")) ])])
              408)).

Definition handleImageGeneration (req : Request) : prog Response :=
  let token := getToken req in
  if negb (ToBoolean token) then
    ret (jsonResponse
           (Obj [(js "error", Obj [(js "message", Str (js "Missing Bearer token"))])])
           401)
  else
    reqBody <- Ret (req_json req) ;;
    size <- Ret (get reqBody (js "size")) ;;
    if ToBoolean size then
      if negb (strict_eq_str size (js "1024x1024")) then
        text <- Ret (to_string rt size) ;;
        ret (jsonResponse
               (Obj [(js "error",
                  Obj [ (js "message",
                          Str (js "Invalid size: " ++ text
                               ++ js ". Only 1024x1024 is supported."));
                        (js "type", Str (js "invalid_request_error"));
                        (js "param", Str (js "size"));
                        (js "code", Str (js "invalid_size")) ])])
               400)
      else generateImage token reqBody
    else
      reqBody' <- Ret (set reqBody (js "size") (Str (js "1024x1024"))) ;;
      generateImage token reqBody'.

Definition handleChatCompletion (req : Request) : prog Response :=
  let token := getToken req in
  if negb (ToBoolean token) then
    ret (jsonResponse
           (Obj [(js "error", Obj [(js "message", Str (js "Missing Bearer token"))])])
           401)
  else
    reqBody <- Ret (req_json req) ;;
    filteredBody <- Ret (filterRequestBody reqBody) ;;
    try_catch
      (response <- fetch
         {| fetch_url := UPSTREAM_API;
            fetch_method := js "POST";
            fetch_headers :=
              [ (js "authorization", js "Bearer " ++ ToString rt token);
                (js "content-type", js "application/json") ];
            fetch_body := filteredBody |} ;;
       stream <- Ret (get filteredBody (js "stream")) ;;
       if ToBoolean stream then
         ret {| status := up_status response;
                headers :=
                  [ (js "access-control-allow-origin", js "*");
                    (js "content-type", js "text/event-stream; charset=utf-8");
                    (js "cache-control", js "no-cache");
                    (js "connection", js "keep-alive") ];
                body := StreamBody (up_body response) |}
       else
         ret {| status := up_status response;
                headers :=
                  [ (js "access-control-allow-origin", js "*");
                    (js "content-type", js "application/json") ];
                body := TextBody (up_body response) |})
      (fun _ =>
         ret (jsonResponse
                (Obj [(js "error",
                   Obj [ (js "message", Str (js "Network error or timeout"));
                         (js "type", Str (js "timeout_error")) ])])
                408)).

(** The entry of [GET /v1/models] for one identifier. *)
Definition model_entry (model : jsstring) : prog value :=
  now <- Date_now ;;
  ret (Obj [ (js "id", Str model);
             (js "object", Str (js "model"));
             (js "created", Num (Math_floor (now / 1000)));
             (js "owned_by", Str (js "proxy")) ]).

Definition handle (req : Request) : prog Response :=
  if str_eqb (method req) (js "OPTIONS") then
    ret {| status := 200;
           headers :=
             [ (js "access-control-allow-origin", js "*");
               (js "access-control-allow-methods", js "GET, POST, OPTIONS");
               (js "access-control-allow-headers", js "authorization, content-type") ];
           body := NoBody |}
  else if str_eqb (method req) (js "POST")
          && str_eqb (pathname req) (js "/v1/images/generations") then
    handleImageGeneration req
  else if str_eqb (method req) (js "POST")
          && str_eqb (pathname req) (js "/v1/chat/completions") then
    handleChatCompletion req
  else if str_eqb (method req) (js "GET")
          && str_eqb (pathname req) (js "/v1/models") then
    let models := Object_keys modelMapping ++ [js "dall-e-3"] in
    data <- mapM model_entry models ;;
    ret (jsonResponse (Obj [(js "object", Str (js "list")); (js "data", Arr data)]) 200)
  else
    ret (jsonResponse
           (Obj [ (js "message",
                    Str (js "OpenAI" ++ [20860; 23481; 20195; 29702; 26381; 21153]%N));
                  (js "endpoints",
                    Arr [ Str (js "/v1/chat/completions");
                          Str (js "/v1/images/generations");
                          Str (js "/v1/models") ]) ])
           200).

End Program.
End PoeServer.

(** * Vocabulary of the statements *)

Unset Implicit Arguments.

(** A float between 0 and 2, the range the filter clamps to. *)
Definition in_clamp_range (t : float) : bool := ((zero <=? t) && (t <=? two))%float.

(** The fields the filter may emit, and those it copies as they are. *)
Definition whitelist : list jsstring :=
  [ js "model"; js "messages"; js "max_tokens"; js "max_completion_tokens";
    js "stream"; js "stream_options"; js "top_p"; js "stop"; js "temperature";
    js "n" ].

Definition copied_fields : list jsstring :=
  [ js "messages"; js "max_tokens"; js "max_completion_tokens"; js "stream";
    js "stream_options"; js "top_p"; js "stop" ].

(** A field of the output: there unless its value is [undefined]. *)
Definition present (v : value) : option value :=
  if is_undefined v then None else Some v.

Fixpoint distinct (names : list jsstring) : bool :=
  match names with
  | [] => true
  | x :: rest => (if in_dec jsstring_eq_dec x rest then false else true) && distinct rest
  end.

(** The entries [GET /v1/models] builds, the clock read once for each. *)
Fixpoint model_entries (w : World) (tick : nat) (models : list jsstring) : list value :=
  match models with
  | [] => []
  | model :: rest =>
      Obj [ (js "id", Str model);
            (js "object", Str (js "model"));
            (js "created", Num (Math_floor (clock w tick / 1000)));
            (js "owned_by", Str (js "proxy")) ]
      :: model_entries w (S tick) rest
  end.

(** The identifiers a model list carries, in order. *)
Definition listed_ids (r : Response) : list value :=
  match body r with
  | JsonBody data =>
      match get_opt data (js "data") with
      | Arr items => List.map (fun item => get_opt item (js "id")) items
      | _ => []
      end
  | _ => []
  end.

Definition missing_token_response : Response :=
  PoeServer.jsonResponse
    (Obj [(js "error", Obj [(js "message", Str (js "Missing Bearer token"))])]) 401.

Definition network_error_response : Response :=
  PoeServer.jsonResponse
    (Obj [(js "error",
       Obj [ (js "message", Str (js "Network error or timeout"));
             (js "type", Str (js "timeout_error")) ])])
    408.

(** The upstream call of both routes, for a token and a body. *)
Definition upstream_call (rt : Runtime) (token body : value) : FetchInit :=
  {| fetch_url := PoeServer.UPSTREAM_API;
     fetch_method := js "POST";
     fetch_headers :=
       [ (js "authorization", js "Bearer " ++ ToString rt token);
         (js "content-type", js "application/json") ];
     fetch_body := body |}.

(** [text] has a substring that matches [https:\/\/[^\s\)]+]: the scheme
    followed by at least one character of the class. *)
Definition contains_url (text : jsstring) : Prop :=
  exists before c after,
    text = before ++ js "https://" ++ c :: after /\ url_char c = true.

(** The same, decided from left to right. *)
Fixpoint has_url (text : jsstring) : bool :=
  match url_match_here text with
  | Some _ => true
  | None =>
      match text with
      | [] => false
      | _ :: rest => has_url rest
      end
  end.

(** What a name resolves to: the mapped name when there is one and it is
    not empty; else, for a name of [Object.prototype], the member found
    there; else the name itself. *)
Definition resolved (mapping : ModelMapping) (name : jsstring) : value :=
  or_else (index mapping name) (Str name).

(** A name that every object inherits a member under. *)
Definition inherited (name : jsstring) : bool :=
  match lookup Object_prototype name with
  | Some _ => true
  | None => false
  end.

(** The two conversions of the filter return: that of [model] to a property
    name and, for a truthy [temperature], that of [temperature] to a
    number. *)
Definition filterable (props : list (jsstring * value)) : Prop :=
  converts (own props (js "model")) = true
  /\ (ToBoolean (own props (js "temperature")) = true ->
      converts (own props (js "temperature")) = true).

(** [new Response(body, {status})], for a body that is not [null], returns
    under this status: one from 200 to 599 that is none of 204, 205 and
    304.  (Under any other the constructor throws.) *)
Definition Response_accepts (status : Z) : bool :=
  ((200 <=? status) && (status <=? 599)
   && negb ((status =? 204) || (status =? 205) || (status =? 304)))%Z.

(** The chat completion that stands for an image request. *)
Definition image_chat_request (rt : Runtime) (mapping : ModelMapping) (prompt : value)
  : value :=
  Obj [ (js "model",
          match PoeServer.mapModel rt mapping (Str (js "dall-e-3")) with
          | Ok model => model
          | Throw _ => Undefined
          end);
        (js "messages",
          Arr [Obj [(js "role", Str (js "user")); (js "content", prompt)]]);
        (js "max_tokens", Num 1000);
        (js "n", Num one) ].

Definition invalid_size_response (rt : Runtime) (size : value) : Response :=
  PoeServer.jsonResponse
    (Obj [(js "error",
       Obj [ (js "message",
               Str (js "Invalid size: " ++ ToString rt size
                    ++ js ". Only 1024x1024 is supported."));
             (js "type", Str (js "invalid_request_error"));
             (js "param", Str (js "size"));
             (js "code", Str (js "invalid_size")) ])])
    400.

(** A size passes when it is absent (or falsy) or is ["1024x1024"]. *)
Definition size_passes (props : list (jsstring * value)) : Prop :=
  ToBoolean (own props (js "size")) = false
  \/ own props (js "size") = Str (js "1024x1024").

(** A response any origin may read. *)
Definition allows_any_origin (r : Response) : Prop :=
  lookup (headers r) (js "access-control-allow-origin") = Some (js "*").

(** The two routes that call the upstream. *)
Definition forwarding_route (req : Request) : Prop :=
  method req = js "POST"
  /\ (pathname req = js "/v1/chat/completions"
      \/ pathname req = js "/v1/images/generations").

Definition preflight_response : Response :=
  {| status := 200;
     headers :=
       [ (js "access-control-allow-origin", js "*");
         (js "access-control-allow-methods", js "GET, POST, OPTIONS");
         (js "access-control-allow-headers", js "authorization, content-type") ];
     body := NoBody |}.

(** What a body sent upstream holds: whitelisted fields only, and [n] = 1. *)
Definition filtered_shape (out : list (jsstring * value)) : Prop :=
  (forall k, ~ In k whitelist -> lookup out k = None)
  /\ lookup out (js "n") = Some (Num one).

(** The exception a forwarding route ends in, when the body makes it: what
    [req.json()] throws; the TypeError of reading a property of [null]; on
    the chat route, that of a [model] or a truthy [temperature] that cannot
    be converted; on the image route, that of setting [size] on a number, a
    string or a boolean, of writing out a size that is refused and cannot
    be converted, or of writing out such a prompt. *)
Definition body_failure (req : Request) : option error :=
  let image := str_eqb (pathname req) (js "/v1/images/generations") in
  match req_json req with
  | Throw e => Some e
  | Ok Undefined | Ok Null => Some TypeError
  | Ok (Bool _) | Ok (Num _) | Ok (Str _) => if image then Some TypeError else None
  | Ok (Arr _) | Ok (Fun _) => None
  | Ok (Obj props) =>
      let size := own props (js "size") in
      let temperature := own props (js "temperature") in
      if image then
        if ToBoolean size && negb (strict_eq_str size (js "1024x1024")) then
          if converts size then None else Some TypeError
        else
          if converts (own props (js "prompt")) then None else Some TypeError
      else
        if converts (own props (js "model"))
           && (negb (ToBoolean temperature) || converts temperature)
        then None else Some TypeError
  end.

(** The 401 of the plain proxy. *)
Definition bearer_required_response : Response :=
  {| status := 401;
     headers := [(js "content-type", js "application/json")];
     body :=
       JsonBody (Obj [(js "error", Obj [(js "message", Str (js "Missing Bearer token"))])]) |}.

(** The object the plain proxy serialises: the request's, its [model]
    resolved when it has a truthy one. *)
Definition resolved_body (rt : Runtime) (st : Part000.State)
    (props : list (jsstring * value)) : result (list (jsstring * value)) :=
  if ToBoolean (own props (js "model")) then
    mapped <~ Part000.mapModelName rt st (own props (js "model")) ;;
    Ok (assign props (js "model") mapped)
  else Ok props.

(** Its upstream call, for a token and the properties of that object. *)
Definition forwarded_call (spread_headers : Request -> list (jsstring * jsstring))
    (req : Request) (token : jsstring) (sent : list (jsstring * value)) : FetchInit :=
  {| fetch_url := Part000.UPSTREAM_API;
     fetch_method := js "POST";
     fetch_headers := Part000.upstream_headers spread_headers req token;
     fetch_body := Obj sent |}.

(** The entries the plain proxy lists, the clock read once for each and
    written as it reads. *)
Fixpoint plain_model_entries (w : World) (tick : nat) (models : list jsstring)
  : list value :=
  match models with
  | [] => []
  | model :: rest =>
      Obj [ (js "id", Str model);
            (js "object", Str (js "model"));
            (js "created", Num (clock w tick));
            (js "owned_by", Str (js "proxy")) ]
      :: plain_model_entries w (S tick) rest
  end.

(** * Inputs of the examples *)

(** The runtime under which the examples are evaluated.  None of them holds a
    number where text is expected or text where a number is expected, so
    none depends on these two conversions. *)
Definition example_runtime : Runtime :=
  {| NumberToString := fun _ => js "NaN"; StringToNumber := fun _ => nan |}.

(** Mappings: one where an upstream name is itself a key, one with an empty
    upstream name, one where two keys share an upstream name, one with an
    entry named [undefined], and one for the image model. *)
Definition chained_mapping : ModelMapping :=
  [ (js "gpt-4", js "GPT-4o"); (js "GPT-4o", js "GPT-4o-Mini") ].


Definition twin_mapping : ModelMapping :=
  [ (js "gpt-4", js "GPT-4o"); (js "gpt-4-turbo", js "GPT-4o") ].


Definition models_request : Request :=
  {| method := js "GET"; pathname := js "/v1/models";
     req_headers := []; req_json := Throw SyntaxError |}.

Definition image_mapping : ModelMapping := [ (js "dall-e-3", js "DALL-E-3") ].

Definition basic_auth_request : Request :=
  {| method := js "POST";
     pathname := js "/v1/chat/completions";
     req_headers := [(js "authorization", js "Basic dXNlcjpwYXNz")];
     req_json := Ok (Obj [(js "model", Str (js "gpt-4")); (js "messages", Arr [])]) |}.

Definition image_request (headers : list (jsstring * jsstring)) (body : value) : Request :=
  {| method := js "POST"; pathname := js "/v1/images/generations";
     req_headers := headers; req_json := Ok body |}.

(** An upstream that cannot be reached. *)
Definition unreachable_world : World :=
  {| upstream := fun _ => Throw NetworkError; clock := fun _ => zero |}.

(** An upstream that answers every call with status 500 and the body [null]. *)
Definition null_error_world : World :=
  {| upstream := fun _ =>
       Ok {| up_status := 500; up_body := js "null"; up_json := Ok Null |};
     clock := fun _ => zero |}.

Definition quote : jsstring := [34%N].

(** A successful chat completion whose assistant says [reply]. *)
Definition chat_answer (reply : jsstring) : UpstreamResponse :=
  {| up_status := 200;
     up_body :=
       js "{" ++ quote ++ js "choices" ++ quote ++ js ":[{" ++ quote
       ++ js "message" ++ quote ++ js ":{" ++ quote ++ js "content" ++ quote
       ++ js ":" ++ quote ++ reply ++ quote ++ js "}}]}";
     up_json :=
       Ok (Obj [(js "choices",
            Arr [Obj [(js "message", Obj [(js "content", Str reply)])]])]) |}.

(** An upstream that answers every call with [reply], under a fixed clock. *)
Definition replying_world (reply : jsstring) : World :=
  {| upstream := fun _ => Ok (chat_answer reply);
     clock := fun _ => 1700000000123%float |}.

(** An upstream that answers every call with [r], under a fixed clock. *)
Definition answering_world (r : UpstreamResponse) : World :=
  {| upstream := fun _ => Ok r; clock := fun _ => 1700000000123%float |}.

(** An upstream answer outside 2xx that says why. *)
Definition rate_limited : UpstreamResponse :=
  {| up_status := 429;
     up_body :=
       js "{" ++ quote ++ js "error" ++ quote ++ js ":{" ++ quote ++ js "message"
       ++ quote ++ js ":" ++ quote ++ js "Too many requests" ++ quote ++ js "}}";
     up_json :=
       Ok (Obj [(js "error", Obj [(js "message", Str (js "Too many requests"))])]) |}.

(** A chat completion that asks for a stream and carries a field the filter
    does not know. *)
Definition streaming_chat : list (jsstring * value) :=
  [ (js "model", Str (js "gpt-4"));
    (js "messages", Arr []);
    (js "stream", Bool true);
    (js "tools", Arr []) ].

Definition chat_request (headers : list (jsstring * jsstring)) (body : value) : Request :=
  {| method := js "POST"; pathname := js "/v1/chat/completions";
     req_headers := headers; req_json := Ok body |}.

(** A value that cannot be converted: the JSON object [{"toString": 1}]. *)
Definition unconvertible : value := Obj [(js "toString", Num 1)].

(** A spread of the request's headers that copies nothing. *)
Definition spread_nothing : Request -> list (jsstring * jsstring) := fun _ => [].

(** * Proofs *)

(** ** Strings and own properties *)

Lemma str_eqb_eq (a b : jsstring) : str_eqb a b = true <-> a = b.
Proof.
  unfold str_eqb. destruct (jsstring_eq_dec a b); split; congruence.
Qed.

Lemma lookup_eq {A : Type} (k : jsstring) (v : A) (rest : list (jsstring * A)) :
  lookup ((k, v) :: rest) k = Some v.
Proof.
  simpl. destruct (jsstring_eq_dec k k); congruence.
Qed.

Lemma lookup_neq {A : Type} (k k' : jsstring) (v : A) (rest : list (jsstring * A)) :
  k <> k' -> lookup ((k', v) :: rest) k = lookup rest k.
Proof.
  intro H. simpl. destruct (jsstring_eq_dec k k'); congruence.
Qed.

Lemma lookup_In {A : Type} (props : list (jsstring * A)) (k : jsstring) (v : A) :
  lookup props k = Some v -> In (k, v) props.
Proof.
  induction props as [|[k' v'] rest IH]; simpl; [discriminate|].
  destruct (jsstring_eq_dec k k') as [->|]; intro H.
  - injection H as ->. now left.
  - right. now apply IH.
Qed.

Lemma lookup_None {A : Type} (props : list (jsstring * A)) (k : jsstring) :
  lookup props k = None <-> ~ In k (List.map fst props).
Proof.
  induction props as [|[k' v'] rest IH]; simpl; [tauto|].
  destruct (jsstring_eq_dec k k') as [->|]; split; intro H.
  - discriminate.
  - exfalso. apply H. now left.
  - intros [E|E]; [congruence|]. now apply IH.
  - apply IH. tauto.
Qed.

Lemma In_lookup {A : Type} (props : list (jsstring * A)) (k : jsstring) (v : A) :
  NoDup (List.map fst props) -> In (k, v) props -> lookup props k = Some v.
Proof.
  induction props as [|[k' v'] rest IH]; simpl; [tauto|].
  intros ND [E|E].
  - injection E as -> ->. destruct (jsstring_eq_dec k k); congruence.
  - inversion ND as [|? ? Hnot ND']; subst.
    destruct (jsstring_eq_dec k k') as [->|]; [|now apply IH].
    exfalso. apply Hnot. now apply (in_map fst) in E.
Qed.

Lemma lookup_app {A : Type} (l1 l2 : list (jsstring * A)) (k : jsstring) :
  lookup (l1 ++ l2) k
  = match lookup l1 k with
    | Some x => Some x
    | None => lookup l2 k
    end.
Proof.
  induction l1 as [|[k' v'] rest IH]; simpl; [reflexivity|].
  now destruct (jsstring_eq_dec k k').
Qed.

Lemma lookup_replace_own {A : Type} (props : list (jsstring * A)) (k k' : jsstring) (v : A) :
  lookup (replace_own props k v) k'
  = if jsstring_eq_dec k' k
    then match lookup props k with Some _ => Some v | None => None end
    else lookup props k'.
Proof.
  induction props as [|[k0 v0] rest IH]; simpl.
  - now destruct (jsstring_eq_dec k' k).
  - destruct (jsstring_eq_dec k k0) as [->|Hne]; simpl.
    + destruct (jsstring_eq_dec k' k0) as [->|Hne']; [reflexivity|].
      reflexivity.
    + rewrite IH. destruct (jsstring_eq_dec k' k) as [->|Hne'].
      * destruct (jsstring_eq_dec k k0); [contradiction|reflexivity].
      * reflexivity.
Qed.

Lemma replace_own_keys {A : Type} (props : list (jsstring * A)) (k : jsstring) (v : A) :
  List.map fst (replace_own props k v) = List.map fst props.
Proof.
  induction props as [|[k0 v0] rest IH]; simpl; [reflexivity|].
  destruct (jsstring_eq_dec k k0); simpl; [reflexivity|now rewrite IH].
Qed.

(** A new property comes to stand somewhere among the old ones, which keep
    their order. *)
Lemma insert_index_split {A : Type} (props : list (jsstring * A)) (n : N) (k : jsstring)
    (v : A) :
  exists before after,
    props = before ++ after /\ insert_index props n k v = before ++ (k, v) :: after.
Proof.
  induction props as [|[k0 v0] rest IH]; simpl.
  - now exists [], [].
  - destruct (array_index k0) as [n'|]; [destruct (n' <? n)%N|].
    + destruct IH as (before & after & -> & ->).
      now exists ((k0, v0) :: before), after.
    + now exists [], ((k0, v0) :: rest).
    + now exists [], ((k0, v0) :: rest).
Qed.

Lemma assign_split {A : Type} (props : list (jsstring * A)) (k : jsstring) (v : A) :
  (exists x, lookup props k = Some x /\ assign props k v = replace_own props k v)
  \/ (lookup props k = None
      /\ exists before after,
           props = before ++ after /\ assign props k v = before ++ (k, v) :: after).
Proof.
  unfold assign. destruct (lookup props k) as [x|] eqn:E.
  - left. now exists x.
  - right. split; [reflexivity|].
    destruct (array_index k) as [n|]; [apply insert_index_split|].
    exists props, []. now rewrite app_nil_r.
Qed.

Lemma lookup_assign_same {A : Type} (props : list (jsstring * A)) (k : jsstring) (v : A) :
  lookup (assign props k v) k = Some v.
Proof.
  destruct (assign_split props k v) as [(x & Hx & ->)|(Hno & before & after & -> & ->)].
  - rewrite lookup_replace_own, Hx. now destruct (jsstring_eq_dec k k).
  - rewrite lookup_app in Hno |- *.
    destruct (lookup before k); [discriminate|]. apply lookup_eq.
Qed.

Lemma lookup_assign_other {A : Type} (props : list (jsstring * A)) (k k' : jsstring) (v : A) :
  k' <> k -> lookup (assign props k v) k' = lookup props k'.
Proof.
  intro H.
  destruct (assign_split props k v) as [(x & Hx & ->)|(Hno & before & after & -> & ->)].
  - rewrite lookup_replace_own. now destruct (jsstring_eq_dec k' k).
  - rewrite !lookup_app. now rewrite lookup_neq.
Qed.

Lemma ToString_Str (rt : Runtime) (s : jsstring) : ToString rt (Str s) = s.
Proof. reflexivity. Qed.


(** ** Name resolution *)

Lemma to_string_Str (rt : Runtime) (s : jsstring) : to_string rt (Str s) = Ok s.
Proof. reflexivity. Qed.

Lemma mapModel_Str (rt : Runtime) (mapping : ModelMapping) (name : jsstring) :
  PoeServer.mapModel rt mapping (Str name) = Ok (resolved mapping name).
Proof. reflexivity. Qed.

(** Both programs resolve a name the same way, whatever the reverse mapping
    holds: the second test of [mapModelName] changes nothing. *)
Lemma mapModelName_mapModel (rt : Runtime) (st : Part000.State) (model : value) :
  Part000.mapModelName rt st model
  = PoeServer.mapModel rt (Part000.modelMapping st) model.
Proof.
  unfold Part000.mapModelName, PoeServer.mapModel, or_else.
  destruct (to_string rt model) as [key|e]; [|reflexivity]. cbn [bind_result].
  destruct (ToBoolean (index (Part000.modelMapping st) key)); [reflexivity|].
  now destruct (ToBoolean (index (Part000.reverseModelMapping st) key)).
Qed.

(** When [models.json] cannot be loaded the mapping is empty and every name
    that no object inherits resolves to itself. *)
Lemma resolve_without_mapping (rt : Runtime) (name : jsstring) :
  inherited name = false ->
  PoeServer.mapModel rt (PoeServer.loadModelMapping None) (Str name) = Ok (Str name)
  /\ Part000.mapModelName rt (Part000.loadModelMapping None) (Str name) = Ok (Str name).
Proof.
  intro H. rewrite mapModelName_mapModel.
  change (Part000.modelMapping (Part000.loadModelMapping None)) with (@nil (jsstring * jsstring)).
  change (PoeServer.loadModelMapping None) with (@nil (jsstring * jsstring)).
  rewrite mapModel_Str.
  unfold resolved, or_else, index, inherited in *. cbn [lookup].
  destruct (lookup Object_prototype name); [discriminate|]. now split.
Qed.




(** ** The reverse mapping *)

(** Entries that do not carry the upstream name [v] leave [rev[v]] alone. *)
Lemma reverse_entries_other (entries : list (jsstring * jsstring)) (v : jsstring) :
  (forall k, ~ In (k, v) entries) ->
  forall rev0, lookup (Part000.reverse_entries entries rev0) v = lookup rev0 v.
Proof.
  unfold Part000.reverse_entries.
  induction entries as [|[k0 v0] rest IH]; intros Hno rev0; simpl; [reflexivity|].
  rewrite IH.
  - apply lookup_assign_other. intros ->. apply (Hno k0). now left.
  - intros k Hin. apply (Hno k). now right.
Qed.

(** The last entry that carries [v] decides [rev[v]]. *)
Lemma reverse_entries_last (before after : list (jsstring * jsstring)) (k v : jsstring) :
  (forall k', ~ In (k', v) after) ->
  forall rev0,
    lookup (Part000.reverse_entries (before ++ (k, v) :: after) rev0) v = Some k.
Proof.
  intros Hno rev0. unfold Part000.reverse_entries.
  rewrite fold_left_app. simpl.
  change (fold_left (fun rev kv => assign rev (snd kv) (fst kv)) after ?r)
    with (Part000.reverse_entries after r).
  rewrite reverse_entries_other by assumption.
  apply lookup_assign_same.
Qed.

Lemma last_entry_of (entries : list (jsstring * jsstring)) (v : jsstring) :
  In v (List.map snd entries) ->
  exists before k' after,
    entries = before ++ (k', v) :: after /\ forall k'', ~ In (k'', v) after.
Proof.
  induction entries as [|[k0 v0] rest IH]; simpl; [tauto|].
  intros Hin.
  destruct (in_dec jsstring_eq_dec v (List.map snd rest)) as [Hlater|Hlast].
  - destruct (IH Hlater) as (before & k' & after & -> & Hno).
    exists ((k0, v0) :: before), k', after. now split.
  - destruct Hin as [->|Hin]; [|contradiction].
    exists [], k0, rest. split; [reflexivity|].
    intros k'' Hin. apply Hlast. now apply (in_map snd) in Hin.
Qed.

(** A name is found as text exactly when it is a key: what an object
    inherits is no text. *)
Lemma index_Str (mapping : ModelMapping) (k v : jsstring) :
  index mapping k = Str v <-> lookup mapping k = Some v.
Proof.
  unfold index. destruct (lookup mapping k) as [v'|].
  - split; congruence.
  - destruct (lookup Object_prototype k); split; discriminate.
Qed.

(** C8, as stated, fails when two keys share an upstream name: the loop keeps
    the key it meets last. *)
Lemma reverse_mapping_counterexample :
  let st := Part000.loadModelMapping (Some twin_mapping) in
  index (Part000.modelMapping st) (js "gpt-4") = Str (js "GPT-4o")
  /\ index (Part000.reverseModelMapping st) (js "GPT-4o") = Str (js "gpt-4-turbo")
  /\ Str (js "gpt-4-turbo") <> Str (js "gpt-4").
Proof.
  repeat split; discriminate.
Qed.

(** C8, amended: after loading, [ReverseMapping[ModelMapping[k]]] is a key
    that ModelMapping sends to the same upstream name as [k]; it is [k] itself
    when no other key shares that upstream name. *)
Theorem reverse_mapping_inverse (mapping : ModelMapping) (k v : jsstring) :
  NoDup (Object_keys mapping) ->
  index mapping k = Str v ->
  let st := Part000.loadModelMapping (Some mapping) in
  (exists k',
      index (Part000.reverseModelMapping st) v = Str k'
      /\ index (Part000.modelMapping st) k' = Str v)
  /\ ((forall k', index mapping k' = Str v -> k' = k) ->
      index (Part000.reverseModelMapping st) v = Str k).
Proof.
  intros ND Hk st. subst st. simpl.
  assert (Hin : In (k, v) mapping).
  { apply index_Str in Hk. now apply lookup_In. }
  apply (in_map snd) in Hin. simpl in Hin.
  destruct (last_entry_of _ _ Hin) as (before & k' & after & Hsplit & Hno).
  assert (Hrev : lookup (Part000.reverse_entries mapping []) v = Some k').
  { rewrite Hsplit. now apply reverse_entries_last. }
  assert (Hk' : index mapping k' = Str v).
  { apply index_Str. apply (In_lookup mapping k' v ND).
    rewrite Hsplit. apply in_or_app. right. now left. }
  apply index_Str in Hrev.
  split.
  - now exists k'.
  - intro Hinj. rewrite Hrev. f_equal. now apply Hinj.
Qed.

(** C8, amended, at a mapping whose upstream names differ. *)
Lemma reverse_mapping_inverse_witness :
  NoDup (Object_keys chained_mapping)
  /\ index chained_mapping (js "gpt-4") = Str (js "GPT-4o")
  /\ index (Part000.reverseModelMapping (Part000.loadModelMapping (Some chained_mapping)))
       (js "GPT-4o") = Str (js "gpt-4").
Proof.
  assert (ND : NoDup (Object_keys chained_mapping)).
  { repeat constructor; simpl; intuition discriminate. }
  assert (Hk : index chained_mapping (js "gpt-4") = Str (js "GPT-4o")) by reflexivity.
  split; [exact ND|]. split; [exact Hk|].
  apply (proj2 (reverse_mapping_inverse chained_mapping (js "gpt-4") (js "GPT-4o") ND Hk)).
  intros k' Hk'. apply index_Str in Hk'. unfold chained_mapping in Hk'. simpl in Hk'.
  destruct (jsstring_eq_dec k' (js "gpt-4")) as [E|_]; [exact E|].
  destruct (jsstring_eq_dec k' (js "GPT-4o")); discriminate.
Defined.

(** ** Numbers: order and clamping *)

Lemma SFcompare_None (a b : spec_float) :
  SFcompare a b = None -> a = S754_nan \/ b = S754_nan.
Proof.
  destruct a as [sa|sa| |sa ma ea], b as [sb|sb| |sb mb eb]; simpl;
    try discriminate; auto.
Qed.

Lemma SFcompare_antisym (a b : spec_float) (c : comparison) :
  SFcompare a b = Some c -> SFcompare b a = Some (CompOpp c).
Proof.
  destruct a as [sa|sa| |sa ma ea], b as [sb|sb| |sb mb eb]; simpl; try discriminate;
    try (destruct sa; try destruct sb; intros [= <-]; reflexivity).
  destruct sa, sb; intros [= <-]; f_equal; try reflexivity;
    rewrite (Z.compare_antisym ea eb); destruct (Z.compare ea eb); simpl; try reflexivity;
    rewrite (Pos.compare_cont_antisym ma mb Eq); simpl; reflexivity.
Qed.

Lemma SFcompare_Eq_finite (a : spec_float) (s : bool) (m : positive) (e : Z) :
  SFcompare a (S754_finite s m e) = Some Eq -> a = S754_finite s m e.
Proof.
  destruct a as [sa|sa| |sa ma ea]; simpl; try discriminate;
    try (destruct sa; discriminate); try (destruct s; discriminate).
  destruct sa, s; try discriminate; intros [= H];
    destruct (Z.compare ea e) eqn:Ee; try discriminate;
    apply Z.compare_eq in Ee; subst ea;
    [ apply (f_equal CompOpp) in H; rewrite CompOpp_involutive in H; simpl in H | ];
    apply Pos.compare_eq in H; now subst ma.
Qed.

Lemma is_nan_false (x : float) : is_nan x = false -> Prim2SF x <> S754_nan.
Proof.
  unfold is_nan. rewrite FloatAxioms.eqb_spec. intros H E.
  rewrite E in H. discriminate.
Qed.

Lemma float_lt_le (a b : float) : (a <? b)%float = true -> (a <=? b)%float = true.
Proof.
  rewrite ltb_spec, leb_spec. unfold SFltb, SFleb.
  destruct (SFcompare (Prim2SF a) (Prim2SF b)) as [[| |]|]; congruence.
Qed.

Lemma float_not_lt_ge (a b : float) :
  is_nan a = false -> is_nan b = false ->
  (a <? b)%float = false -> (b <=? a)%float = true.
Proof.
  intros Ha Hb. apply is_nan_false in Ha. apply is_nan_false in Hb.
  rewrite ltb_spec, leb_spec. unfold SFltb, SFleb.
  destruct (SFcompare (Prim2SF a) (Prim2SF b)) as [c|] eqn:E.
  - rewrite (SFcompare_antisym _ _ _ E). destruct c; simpl; congruence.
  - apply SFcompare_None in E. tauto.
Qed.

Lemma float_le_not_gt (a b : float) :
  (a <=? b)%float = true -> (b <? a)%float = false.
Proof.
  rewrite ltb_spec, leb_spec. unfold SFltb, SFleb.
  destruct (SFcompare (Prim2SF a) (Prim2SF b)) as [c|] eqn:E; [|discriminate].
  rewrite (SFcompare_antisym _ _ _ E). destruct c; simpl; congruence.
Qed.

Lemma Math_max_zero (x : float) :
  is_nan x = false ->
  Math_max x zero = zero
  \/ (Math_max x zero = x /\ (zero <=? x)%float = true).
Proof.
  intro Hx. unfold Math_max. rewrite Hx. change (is_nan zero) with false. simpl orb.
  destruct (x <? zero)%float eqn:Elt; [now left|].
  assert (H0x : (zero <=? x)%float = true) by (now apply float_not_lt_ge).
  destruct (zero <? x)%float; [now right|].
  destruct (get_sign x); [now left|now right].
Qed.

Lemma Math_min_two (y : float) :
  is_nan y = false -> (zero <=? y)%float = true ->
  in_clamp_range (Math_min y two) = true.
Proof.
  intros Hy H0. unfold Math_min, in_clamp_range. rewrite Hy.
  change (is_nan two) with false. simpl orb.
  destruct (y <? two)%float eqn:E2.
  - rewrite H0. now rewrite (float_lt_le _ _ E2).
  - destruct (two <? y)%float eqn:E3; [reflexivity|].
    destruct (get_sign y); [|reflexivity].
    rewrite H0. now rewrite (float_not_lt_ge two y eq_refl Hy E3).
Qed.

(** The clamp of a number lands in [0, 2]. *)
Lemma clamp_range (x : float) :
  is_nan x = false -> in_clamp_range (Math_min (Math_max x zero) two) = true.
Proof.
  intro Hx. destruct (Math_max_zero x Hx) as [-> | [-> H0]].
  - reflexivity.
  - now apply Math_min_two.
Qed.

(** Above 2 the clamp is 2, below 0 it is 0. *)
Lemma clamp_above (x : float) :
  (two <? x)%float = true -> Math_min (Math_max x zero) two = two.
Proof.
  intro H.
  assert (Hnan : is_nan x = false).
  { unfold is_nan. rewrite FloatAxioms.eqb_spec. rewrite ltb_spec in H.
    unfold SFltb, SFeqb in *. destruct (Prim2SF x) as [s|s| |s m e] eqn:E;
      try reflexivity; [destruct s; reflexivity| discriminate |].
    simpl. destruct s; rewrite Z.compare_refl, Pos.compare_cont_refl; reflexivity. }
  assert (H0 : (zero <? x)%float = true).
  { rewrite ltb_spec in *. unfold SFltb in *. change (Prim2SF two) with (S754_finite false 4503599627370496 (-51)) in H.
    change (Prim2SF zero) with (S754_zero false).
    destruct (Prim2SF x) as [s|s| |s m e]; simpl in *; try discriminate;
      destruct s; try discriminate; reflexivity. }
  unfold Math_max, Math_min. rewrite Hnan. change (is_nan zero) with false.
  change (is_nan two) with false. simpl orb.
  rewrite (float_le_not_gt _ _ (float_lt_le _ _ H0)), H0, Hnan. simpl orb.
  now rewrite (float_le_not_gt _ _ (float_lt_le _ _ H)), H.
Qed.

Lemma clamp_below (x : float) :
  (x <? zero)%float = true -> Math_min (Math_max x zero) two = zero.
Proof.
  intro H. unfold Math_max.
  destruct (is_nan x || is_nan zero) eqn:Hnan.
  - exfalso. change (is_nan zero) with false in Hnan. rewrite orb_false_r in Hnan.
    unfold is_nan in Hnan. rewrite FloatAxioms.eqb_spec in Hnan. rewrite ltb_spec in H.
    unfold SFltb, SFeqb in *. destruct (Prim2SF x) as [s|s| |s m e];
      simpl in *; try discriminate; destruct s; try discriminate.
    rewrite Z.compare_refl, Pos.compare_cont_refl in Hnan. discriminate.
  - rewrite H. reflexivity.
Qed.

(** A number of the range other than zero is its own clamp. *)
Lemma clamp_inside (x : float) :
  in_clamp_range x = true -> is_zero x = false ->
  Math_min (Math_max x zero) two = x.
Proof.
  unfold in_clamp_range. intros H Hz. apply andb_prop in H. destruct H as [H0 H2].
  assert (Hnan : is_nan x = false).
  { unfold is_nan. rewrite FloatAxioms.eqb_spec. rewrite leb_spec in H0.
    unfold SFleb, SFeqb in *. change (Prim2SF zero) with (S754_zero false) in H0.
    destruct (Prim2SF x) as [s|s| |s m e]; simpl in *; try reflexivity;
      try discriminate; destruct s; try reflexivity.
    all: rewrite Z.compare_refl, Pos.compare_cont_refl; reflexivity. }
  assert (Hpos : (zero <? x)%float = true).
  { unfold is_zero in Hz. rewrite FloatAxioms.eqb_spec in Hz.
    rewrite leb_spec in H0. rewrite ltb_spec.
    unfold SFleb, SFeqb, SFltb in *.
    change (Prim2SF zero) with (S754_zero false) in *.
    destruct (Prim2SF x) as [s|s| |s m e]; simpl in *; try discriminate;
      destruct s; try discriminate; reflexivity. }
  unfold Math_max, Math_min. rewrite Hnan. change (is_nan zero) with false.
  change (is_nan two) with false. simpl orb.
  rewrite (float_le_not_gt _ _ H0), Hpos, Hnan. simpl orb.
  destruct (x <? two)%float eqn:E2; [reflexivity|].
  rewrite (float_le_not_gt _ _ H2).
  assert (Heq : Prim2SF x = Prim2SF two).
  { rewrite ltb_spec in E2. rewrite leb_spec in H2. unfold SFltb, SFleb in *.
    change (Prim2SF two) with (S754_finite false 4503599627370496 (-51)) in *.
    apply SFcompare_Eq_finite.
    destruct (SFcompare (Prim2SF x) (S754_finite false 4503599627370496 (-51)))
      as [[| |]|]; congruence. }
  apply Prim2SF_inj in Heq. subst x. reflexivity.
Qed.

(** ** The request filter *)

Lemma distinct_NoDup (names : list jsstring) : distinct names = true -> NoDup names.
Proof.
  induction names as [|x rest IH]; simpl; [constructor|].
  destruct (in_dec jsstring_eq_dec x rest); [discriminate|].
  intro H. constructor; auto.
Qed.

(** [Object.fromEntries(Object.entries(o).filter(([_, v]) => v !== undefined))]
    read back by name. *)
Lemma lookup_defined (entries : list (jsstring * value)) (k : jsstring) :
  NoDup (List.map fst entries) ->
  lookup (filter (fun kv => negb (is_undefined (snd kv))) entries) k
  = present (own entries k).
Proof.
  unfold own, present.
  induction entries as [|[k0 v0] rest IH]; intro ND; simpl; [reflexivity|].
  inversion ND as [|? ? Hnot ND']; subst.
  destruct (jsstring_eq_dec k k0) as [->|Hne].
  - destruct (is_undefined v0) eqn:E; simpl.
    + rewrite (IH ND'). apply lookup_None in Hnot. now rewrite Hnot.
    + destruct (jsstring_eq_dec k0 k0); congruence.
  - destruct (is_undefined v0); simpl.
    + now apply IH.
    + destruct (jsstring_eq_dec k k0); [congruence|]. now apply IH.
Qed.

Ltac js_neq :=
  let H := fresh in intro H; vm_compute in H; discriminate H.

Ltac own_literal :=
  unfold own; repeat (rewrite lookup_neq by js_neq); rewrite lookup_eq.

(** The two conversions of the filter: each returns exactly for a value that
    converts, and throws a TypeError for any other. *)
Lemma mapModel_converts (rt : Runtime) (mapping : ModelMapping) (model : value) :
  PoeServer.mapModel rt mapping model
  = if converts model
    then Ok (or_else (index mapping (ToString rt model)) model)
    else Throw TypeError.
Proof.
  unfold PoeServer.mapModel, to_string. now destruct (converts model).
Qed.

Lemma clamp_temperature_converts (rt : Runtime) (temperature : value) :
  PoeServer.clamp_temperature rt temperature
  = if ToBoolean temperature then
      if converts temperature
      then Ok (Num (Math_min (Math_max (ToNumber rt temperature) zero) two))
      else Throw TypeError
    else Ok Undefined.
Proof.
  unfold PoeServer.clamp_temperature, to_number.
  destruct (ToBoolean temperature); [|reflexivity]. now destruct (converts temperature).
Qed.

(** The filter, for a body whose properties can be read: the two
    conversions, then the entries of [supported] that are not [undefined]. *)
Lemma filterRequestBody_eq (rt : Runtime) (mapping : ModelMapping) (body : value) :
  is_nullish body = false ->
  PoeServer.filterRequestBody rt mapping body
  = (mapped <~ PoeServer.mapModel rt mapping (get_opt body (js "model")) ;;
     clamped <~ PoeServer.clamp_temperature rt (get_opt body (js "temperature")) ;;
     Ok (Obj (filter (fun kv => negb (is_undefined (snd kv)))
                [ (js "model", mapped);
                  (js "messages", get_opt body (js "messages"));
                  (js "max_tokens", get_opt body (js "max_tokens"));
                  (js "max_completion_tokens", get_opt body (js "max_completion_tokens"));
                  (js "stream", get_opt body (js "stream"));
                  (js "stream_options", get_opt body (js "stream_options"));
                  (js "top_p", get_opt body (js "top_p"));
                  (js "stop", get_opt body (js "stop"));
                  (js "temperature", clamped);
                  (js "n", Num one) ]))).
Proof.
  intro Hbody.
  assert (Hget : forall k, get body k = Ok (get_opt body k)).
  { intro k. unfold get_opt. destruct body; try reflexivity; discriminate. }
  unfold PoeServer.filterRequestBody. rewrite !Hget. cbn [bind_result].
  destruct (PoeServer.mapModel rt mapping (get_opt body (js "model"))); reflexivity.
Qed.

(** What the filter returns when the two conversions return. *)
Lemma filterRequestBody_entries (rt : Runtime) (mapping : ModelMapping) (body : value)
    (mapped clamped : value) :
  is_nullish body = false ->
  PoeServer.mapModel rt mapping (get_opt body (js "model")) = Ok mapped ->
  PoeServer.clamp_temperature rt (get_opt body (js "temperature")) = Ok clamped ->
  exists supported,
    PoeServer.filterRequestBody rt mapping body
    = Ok (Obj (filter (fun kv => negb (is_undefined (snd kv))) supported))
    /\ List.map fst supported = whitelist
    /\ own supported (js "model") = mapped
    /\ (forall k, In k copied_fields -> own supported k = get_opt body k)
    /\ own supported (js "temperature") = clamped
    /\ own supported (js "n") = Num one.
Proof.
  intros Hbody Hmodel Htemp.
  rewrite (filterRequestBody_eq rt mapping body Hbody), Hmodel, Htemp. cbn [bind_result].
  eexists. split; [reflexivity|].
  split; [reflexivity|].
  split; [now own_literal|].
  split.
  - intros k Hin. unfold copied_fields in Hin. simpl in Hin.
    repeat (destruct Hin as [<-|Hin]; [now own_literal|]). contradiction.
  - split; now own_literal.
Qed.

(** The filter returns exactly when the two conversions do; when one does
    not, it throws that TypeError. *)
Lemma filterRequestBody_returns (rt : Runtime) (mapping : ModelMapping) (body : value) :
  is_nullish body = false ->
  (converts (get_opt body (js "model")) = true
   /\ (ToBoolean (get_opt body (js "temperature")) = true ->
       converts (get_opt body (js "temperature")) = true) ->
   PoeServer.mapModel rt mapping (get_opt body (js "model"))
   = Ok (or_else (index mapping (ToString rt (get_opt body (js "model"))))
                 (get_opt body (js "model")))
   /\ PoeServer.clamp_temperature rt (get_opt body (js "temperature"))
      = Ok (if ToBoolean (get_opt body (js "temperature"))
            then Num (Math_min (Math_max (ToNumber rt (get_opt body (js "temperature")))
                                  zero) two)
            else Undefined))
  /\ (converts (get_opt body (js "model")) = false
      \/ (ToBoolean (get_opt body (js "temperature")) = true
          /\ converts (get_opt body (js "temperature")) = false) ->
      PoeServer.filterRequestBody rt mapping body = Throw TypeError).
Proof.
  intro Hbody. split.
  - intros [Hmodel Htemp].
    rewrite mapModel_converts, Hmodel, clamp_temperature_converts.
    split; [reflexivity|].
    destruct (ToBoolean (get_opt body (js "temperature"))); [|reflexivity].
    now rewrite (Htemp eq_refl).
  - intro H. rewrite (filterRequestBody_eq rt mapping body Hbody).
    rewrite mapModel_converts, clamp_temperature_converts.
    destruct (converts (get_opt body (js "model"))); [|reflexivity].
    destruct H as [H|[Ht Hc]]; [discriminate|].
    now rewrite Ht, Hc.
Qed.

(** A body that came out of the filter: the two conversions had returned. *)
Lemma filterRequestBody_Ok (rt : Runtime) (mapping : ModelMapping) (body out : value) :
  is_nullish body = false ->
  PoeServer.filterRequestBody rt mapping body = Ok out ->
  converts (get_opt body (js "model")) = true
  /\ (ToBoolean (get_opt body (js "temperature")) = true ->
      converts (get_opt body (js "temperature")) = true).
Proof.
  intros Hbody Hout.
  destruct (filterRequestBody_returns rt mapping body Hbody) as [_ Hthrow].
  destruct (converts (get_opt body (js "model"))) eqn:Hmodel.
  - split; [reflexivity|]. intro Ht.
    destruct (converts (get_opt body (js "temperature"))) eqn:Hc; [reflexivity|].
    rewrite Hthrow in Hout by (right; now split). discriminate.
  - rewrite Hthrow in Hout by now left. discriminate.
Qed.

Lemma own_defined (entries : list (jsstring * value)) (k : jsstring) :
  NoDup (List.map fst entries) ->
  own (filter (fun kv => negb (is_undefined (snd kv))) entries) k = own entries k.
Proof.
  intro ND. unfold own at 1. rewrite lookup_defined by assumption.
  unfold present. now destruct (own entries k).
Qed.

Lemma resolved_defined (mapping : ModelMapping) (name : jsstring) :
  is_undefined (resolved mapping name) = false.
Proof.
  unfold resolved, or_else, index.
  destruct (lookup mapping name) as [v|]; [now destruct v|].
  now destruct (lookup Object_prototype name).
Qed.

Lemma whitelist_NoDup : NoDup whitelist.
Proof. apply distinct_NoDup. vm_compute. reflexivity. Qed.

Lemma get_opt_Obj (props : list (jsstring * value)) (k : jsstring) :
  get_opt (Obj props) k = own props k.
Proof. reflexivity. Qed.


(** C4: whatever the body holds under [n], or holds nothing there, a
    filtered body has [n] equal to 1.  There is a filtered body unless
    reading the body or converting its [model] or its [temperature] throws:
    unless the body is [null] (or [undefined]), or its [model], or its
    truthy [temperature], is a value that cannot be converted. *)
Theorem filtered_n_is_one (rt : Runtime) (mapping : ModelMapping) (body : value) :
  match PoeServer.filterRequestBody rt mapping body with
  | Ok out => get out (js "n") = Ok (Num one)
  | Throw e =>
      e = TypeError
      /\ (is_nullish body = true
          \/ converts (get_opt body (js "model")) = false
          \/ (ToBoolean (get_opt body (js "temperature")) = true
              /\ converts (get_opt body (js "temperature")) = false))
  end.
Proof.
  destruct (is_nullish body) eqn:Hbody.
  - destruct body; try discriminate; (split; [reflexivity|now left]).
  - destruct (filterRequestBody_returns rt mapping body Hbody) as [Hok Hthrow].
    destruct (converts (get_opt body (js "model"))) eqn:Hmodel.
    2:{ rewrite Hthrow by now left. split; [reflexivity|]. right. now left. }
    destruct (ToBoolean (get_opt body (js "temperature"))) eqn:Ht.
    + destruct (converts (get_opt body (js "temperature"))) eqn:Hc.
      * destruct Hok as [Hm Hcl]; [now split|].
        destruct (filterRequestBody_entries rt mapping body _ _ Hbody Hm Hcl)
          as (supported & -> & Hkeys & _ & _ & _ & Hn).
        cbn [get]. rewrite own_defined by (rewrite Hkeys; exact whitelist_NoDup).
        now rewrite Hn.
      * rewrite Hthrow by (right; now split).
        split; [reflexivity|]. right. right. now split.
    + destruct Hok as [Hm Hcl]; [split; [reflexivity|discriminate]|].
      destruct (filterRequestBody_entries rt mapping body _ _ Hbody Hm Hcl)
        as (supported & -> & Hkeys & _ & _ & _ & Hn).
      cbn [get]. rewrite own_defined by (rewrite Hkeys; exact whitelist_NoDup).
      now rewrite Hn.
Qed.

Example filtered_n_examples :
  PoeServer.filterRequestBody example_runtime chained_mapping
    (Obj [(js "n", Num 5); (js "model", Str (js "gpt-4"))])
  = Ok (Obj [(js "model", Str (js "GPT-4o")); (js "n", Num one)])
  /\ PoeServer.filterRequestBody example_runtime chained_mapping
       (Obj [(js "n", Null); (js "stream", Bool true)])
     = Ok (Obj [(js "stream", Bool true); (js "n", Num one)])
  /\ PoeServer.filterRequestBody example_runtime chained_mapping (Arr [])
     = Ok (Obj [(js "n", Num one)])
  /\ PoeServer.filterRequestBody example_runtime chained_mapping Null
     = Throw TypeError
  /\ PoeServer.filterRequestBody example_runtime chained_mapping
       (Obj [(js "n", Num 5); (js "model", unconvertible)])
     = Throw TypeError.
Proof. repeat split. Qed.




(** C3, at the input that breaks it: a request with [temperature: 0] comes
    out of the filter with no temperature at all, because 0 is falsy. *)
Theorem temperature_zero_dropped (rt : Runtime) (mapping : ModelMapping) :
  exists out,
    PoeServer.filterRequestBody rt mapping (Obj [(js "temperature", Num zero)])
    = Ok (Obj out)
    /\ lookup out (js "temperature") = None.
Proof.
  destruct (filterRequestBody_entries rt mapping (Obj [(js "temperature", Num zero)])
              _ _ eq_refl eq_refl eq_refl)
    as (supported & Hout & Hkeys & _ & _ & Htemp & _).
  eexists. split; [exact Hout|].
  rewrite lookup_defined by (rewrite Hkeys; exact whitelist_NoDup).
  rewrite Htemp. reflexivity.
Qed.

(** X9: what C3 says does hold of every number but zero: for a request
    whose [model] can be converted, the filter returns a body that has the
    clamp of such a temperature, which lies in [0, 2], is the number itself
    inside the range, 2 above it and 0 below it. *)
Lemma temperature_clamped (rt : Runtime) (mapping : ModelMapping)
    (props : list (jsstring * value)) (x : float) :
  own props (js "temperature") = Num x ->
  is_zero x = false -> is_nan x = false ->
  converts (own props (js "model")) = true ->
  exists out t,
    PoeServer.filterRequestBody rt mapping (Obj props) = Ok (Obj out)
    /\ lookup out (js "temperature") = Some (Num t)
    /\ in_clamp_range t = true
    /\ (in_clamp_range x = true -> t = x)
    /\ ((two <? x)%float = true -> t = two)
    /\ ((x <? zero)%float = true -> t = zero).
Proof.
  intros Hx Hz Hnan Hmodel.
  assert (Htemp : ToBoolean (own props (js "temperature")) = true ->
                  converts (own props (js "temperature")) = true).
  { intros _. now rewrite Hx. }
  destruct (proj1 (filterRequestBody_returns rt mapping (Obj props) eq_refl)
              (conj Hmodel Htemp)) as [Hm Hcl].
  destruct (filterRequestBody_entries rt mapping (Obj props) _ _ eq_refl Hm Hcl)
    as (supported & Hout & Hkeys & _ & _ & Hclamped & _).
  rewrite get_opt_Obj, Hx in Hclamped. simpl ToBoolean in Hclamped.
  rewrite Hz, Hnan in Hclamped. simpl in Hclamped.
  eexists. exists (Math_min (Math_max x zero) two).
  split; [exact Hout|].
  split.
  { rewrite lookup_defined by (rewrite Hkeys; exact whitelist_NoDup).
    now rewrite Hclamped. }
  split; [now apply clamp_range|].
  split; [intro H; now apply clamp_inside|].
  split; [apply clamp_above|apply clamp_below].
Qed.

(** X9, at a temperature above the range. *)
Lemma temperature_clamped_witness :
  exists out,
    PoeServer.filterRequestBody example_runtime [] (Obj [(js "temperature", Num 5)])
    = Ok (Obj out)
    /\ lookup out (js "temperature") = Some (Num two).
Proof.
  destruct (temperature_clamped example_runtime [] [(js "temperature", Num 5)] 5
              eq_refl eq_refl eq_refl eq_refl)
    as (out & t & Hout & Ht & _ & _ & Habove & _).
  exists out. split; [exact Hout|].
  rewrite Ht. now rewrite (Habove eq_refl).
Defined.

(** The examples of C3: 5, -1 and 1.1 (as a double, [0x1.199999999999ap+0]). *)
Example temperature_examples :
  PoeServer.filterRequestBody example_runtime [] (Obj [(js "temperature", Num 5)])
  = Ok (Obj [(js "temperature", Num 2); (js "n", Num one)])
  /\ PoeServer.filterRequestBody example_runtime [] (Obj [(js "temperature", Num (-1))])
     = Ok (Obj [(js "temperature", Num 0); (js "n", Num one)])
  /\ PoeServer.filterRequestBody example_runtime []
       (Obj [(js "temperature", Num 0x1.199999999999ap+0)])
     = Ok (Obj [(js "temperature", Num 0x1.199999999999ap+0); (js "n", Num one)]).
Proof. repeat split. Qed.

(** ** Running programs *)

Lemma run_bind {A B : Type} (w : World) (m : prog A) (f : A -> prog B) :
  forall tick,
    run w tick (bind m f)
    = match run w tick m with
      | (Ok a, calls) =>
          let (b, calls') := run w (ticks w tick m) (f a) in (b, calls ++ calls')
      | (Throw e, calls) => (Throw e, calls)
      end.
Proof.
  induction m as [[a|e]|init k IH|k IH]; intro tick; simpl.
  - now destruct (run w tick (f a)).
  - reflexivity.
  - rewrite IH. destruct (run w tick (k (upstream w init))) as [[a|e] calls].
    + now destruct (run w _ (f a)).
    + reflexivity.
  - apply IH.
Qed.

(** ** The model list *)

Lemma run_model_entries (w : World) (models : list jsstring) :
  forall tick,
    run w tick (mapM PoeServer.model_entry models)
    = (Ok (model_entries w tick models), []).
Proof.
  induction models as [|model rest IH]; intro tick; [reflexivity|].
  simpl. rewrite run_bind, IH. reflexivity.
Qed.

Lemma ids_of_model_entries (w : World) (models : list jsstring) :
  forall tick,
    List.map (fun item => get_opt item (js "id")) (model_entries w tick models)
    = List.map Str models.
Proof.
  induction models as [|model rest IH]; intro tick; simpl; [reflexivity|].
  now rewrite IH.
Qed.

Lemma NoDup_map_Str (names : list jsstring) :
  NoDup (List.map Str names) <-> NoDup names.
Proof.
  split; [apply NoDup_map_inv|].
  induction 1 as [|x rest Hnot ND IH]; simpl; constructor; [|exact IH].
  intro H. apply in_map_iff in H. destruct H as (y & [= ->] & Hy). now apply Hnot.
Qed.

(** What [GET /v1/models] answers, for any mapping: status 200, no upstream
    call, one entry for each key and a last one for [dall-e-3], each with a
    [created] time in seconds and [owned_by: "proxy"]. *)
Lemma models_listing (rt : Runtime) (mapping : ModelMapping) (w : World) (req : Request) :
  method req = js "GET" -> pathname req = js "/v1/models" ->
  run w 0 (PoeServer.handle rt mapping req)
  = (Ok (PoeServer.jsonResponse
           (Obj [ (js "object", Str (js "list"));
                  (js "data",
                    Arr (model_entries w 0 (Object_keys mapping ++ [js "dall-e-3"]))) ])
           200),
     []).
Proof.
  intros Hm Hp. unfold PoeServer.handle. rewrite Hm, Hp.
  change (str_eqb (js "GET") (js "OPTIONS")) with false.
  change (str_eqb (js "GET") (js "POST")) with false.
  change (str_eqb (js "GET") (js "GET")) with true.
  change (str_eqb (js "/v1/models") (js "/v1/models")) with true.
  cbv iota. simpl andb. cbv iota.
  rewrite run_bind, run_model_entries. reflexivity.
Qed.

(** X11: [GET /v1/models] is answered 200 without an upstream call; the
    listed identifiers are the keys and [dall-e-3], and they are distinct
    exactly when [dall-e-3] is not itself a key. *)
Lemma models_listing_ids (rt : Runtime) (mapping : ModelMapping) (w : World) :
  exists r,
    run w 0 (PoeServer.handle rt mapping models_request) = (Ok r, [])
    /\ status r = 200%Z
    /\ listed_ids r = List.map Str (Object_keys mapping ++ [js "dall-e-3"])
    /\ (NoDup (Object_keys mapping) ->
        (NoDup (listed_ids r) <-> ~ In (js "dall-e-3") (Object_keys mapping))).
Proof.
  eexists. split; [now apply models_listing|].
  split; [reflexivity|].
  unfold listed_ids. simpl body. cbv iota.
  change (get_opt (Obj ?l) (js "data")) with (own l (js "data")).
  unfold own. rewrite lookup_neq by js_neq. rewrite lookup_eq.
  rewrite ids_of_model_entries.
  split; [reflexivity|].
  intro ND. rewrite NoDup_map_Str. split.
  - intros H Hin. apply NoDup_remove_2 in H.
    apply H. rewrite app_nil_r. exact Hin.
  - intro Hnot. apply NoDup_app; [exact ND|repeat constructor; simpl; tauto|].
    intros a Ha [<-|[]]. now apply Hnot.
Qed.

(** C9, at the input that breaks it: a mapping with an entry for [dall-e-3]
    (the name the image route resolves) makes [GET /v1/models] list that
    identifier twice. *)
Theorem models_listing_duplicate (rt : Runtime) (w : World) :
  exists r,
    run w 0 (PoeServer.handle rt image_mapping models_request) = (Ok r, [])
    /\ listed_ids r = [Str (js "dall-e-3"); Str (js "dall-e-3")]
    /\ ~ NoDup (listed_ids r).
Proof.
  eexists. split; [now apply models_listing|].
  split; [reflexivity|].
  intro H. inversion H as [|? ? Hnot _]. apply Hnot. now left.
Qed.

(** The other program lists each name once. *)
Lemma Set_of_NoDup (names : list jsstring) :
  forall seen, NoDup (Part000.Set_of names seen)
               /\ forall x, In x (Part000.Set_of names seen) -> ~ In x seen.
Proof.
  induction names as [|x rest IH]; intro seen; simpl.
  - split; [constructor|tauto].
  - destruct (in_dec jsstring_eq_dec x seen) as [Hin|Hnot]; [apply IH|].
    destruct (IH (x :: seen)) as [ND Hout]. split.
    + constructor; [|exact ND]. intro H. apply (Hout x H). now left.
    + intros y [<-|Hy]; [exact Hnot|]. intro Hs. apply (Hout y Hy). now right.
Qed.

Lemma part000_model_ids_NoDup (st : Part000.State) : NoDup (Part000.model_ids st).
Proof. apply Set_of_NoDup. Qed.

(** ** The bearer token *)

Lemma strip_prefix_Some (p s rest : jsstring) :
  strip_prefix p s = Some rest -> s = p ++ rest.
Proof.
  revert s. induction p as [|a p IH]; intros s; simpl.
  - now intros [= ->].
  - destruct s as [|b s]; [discriminate|].
    destruct (N.eqb_spec a b) as [->|]; [|discriminate].
    intro H. now rewrite (IH _ H).
Qed.

Lemma strip_prefix_app (p rest : jsstring) : strip_prefix p (p ++ rest) = Some rest.
Proof.
  induction p as [|a p IH]; simpl; [reflexivity|]. now rewrite N.eqb_refl.
Qed.

(** Removing the first [pat] leaves nothing only of the empty string and of
    [pat] itself. *)
Lemma String_replace_empty (s pat : jsstring) :
  pat <> [] ->
  (String_replace s pat [] = [] <-> s = [] \/ s = pat).
Proof.
  intro Hpat. destruct s as [|c s].
  - simpl. destruct pat; [congruence|]. simpl. tauto.
  - unfold String_replace; fold String_replace.
    destruct (strip_prefix pat (c :: s)) as [rest|] eqn:E.
    + apply strip_prefix_Some in E. simpl. split.
      * intros ->. right. now rewrite app_nil_r in E.
      * intros [H|H]; [discriminate|].
        rewrite H in E. rewrite <- (app_nil_r pat) in E at 1.
        now apply app_inv_head in E.
    + split; [discriminate|]. intros [H|H]; [discriminate|].
      pose proof (strip_prefix_app pat []) as X. rewrite app_nil_r in X.
      rewrite H in E. congruence.
Qed.

(** X7: the token is missing exactly when there is no [Authorization] header, or
    the header is empty, or it is the bare word [Bearer ] with its blank. *)
Lemma getToken_falsy (req : Request) :
  ToBoolean (PoeServer.getToken req) = false
  <-> (lookup (req_headers req) (js "authorization") = None
       \/ lookup (req_headers req) (js "authorization") = Some []
       \/ lookup (req_headers req) (js "authorization") = Some (js "Bearer ")).
Proof.
  unfold PoeServer.getToken, Headers_get.
  destruct (lookup (req_headers req) (js "authorization")) as [auth|].
  - assert (H := String_replace_empty auth (js "Bearer ") ltac:(discriminate)).
    destruct (String_replace auth (js "Bearer ") []) as [|c l] eqn:E; simpl; split.
    + intros _. right. destruct (proj1 H eq_refl) as [->| ->]; auto.
    + reflexivity.
    + discriminate.
    + intros [?|[[= ->]|[= ->]]]; [discriminate| |];
        (assert (X : c :: l = []) by (apply H; auto)); discriminate.
  - simpl. tauto.
Qed.

Ltac str_eqb_literals :=
  repeat match goal with
  | |- context [str_eqb (js ?a) (js ?b)] =>
      let v := eval vm_compute in (str_eqb (js a) (js b)) in
      change (str_eqb (js a) (js b)) with v
  end; cbn [andb orb negb].

(** X8: of C5, what holds: on both forwarding routes a request whose token is
    missing is answered 401 "Missing Bearer token", and nothing is sent
    upstream. *)
Lemma missing_token_401 (rt : Runtime) (mapping : ModelMapping) (w : World) (req : Request) :
  method req = js "POST" ->
  pathname req = js "/v1/chat/completions" \/ pathname req = js "/v1/images/generations" ->
  ToBoolean (PoeServer.getToken req) = false ->
  run w 0 (PoeServer.handle rt mapping req) = (Ok missing_token_response, []).
Proof.
  intros Hm Hp Htoken. unfold PoeServer.handle. rewrite Hm.
  destruct Hp as [Hp|Hp]; rewrite Hp; str_eqb_literals.
  - unfold PoeServer.handleChatCompletion. rewrite Htoken. reflexivity.
  - unfold PoeServer.handleImageGeneration. rewrite Htoken. reflexivity.
Qed.

(** X8, at an image request without the header. *)
Lemma missing_token_401_witness :
  run unreachable_world 0
    (PoeServer.handle example_runtime chained_mapping
       (image_request [] (Obj [(js "prompt", Str (js "a cat"))])))
  = (Ok missing_token_response, []).
Proof.
  apply missing_token_401; [reflexivity|now right|reflexivity].
Defined.

(** A body that came out of the filter has the request's [stream]. *)
Lemma filterRequestBody_stream (rt : Runtime) (mapping : ModelMapping)
    (body filtered : value) :
  PoeServer.filterRequestBody rt mapping body = Ok filtered ->
  is_nullish body = false
  /\ get filtered (js "stream") = Ok (get_opt body (js "stream"))
  /\ exists out, filtered = Obj out.
Proof.
  intro Hout.
  assert (Hnn : is_nullish body = false).
  { destruct body; try reflexivity; discriminate. }
  split; [exact Hnn|].
  destruct (filterRequestBody_Ok rt mapping body filtered Hnn Hout) as [Hmodel Htemp].
  destruct (proj1 (filterRequestBody_returns rt mapping body Hnn)
              (conj Hmodel Htemp)) as [Hm Hcl].
  destruct (filterRequestBody_entries rt mapping body _ _ Hnn Hm Hcl)
    as (supported & Hout' & Hkeys & _ & Hcopied & _ & _).
  rewrite Hout in Hout'. injection Hout' as ->.
  split; [|now eexists].
  cbn [get]. rewrite own_defined by (rewrite Hkeys; exact whitelist_NoDup).
  now rewrite (Hcopied (js "stream")) by (vm_compute; tauto).
Qed.

(** The chat route, once a token is there and the body has been filtered:
    one upstream call with the filtered body, whose answer is relayed with
    the upstream's status, as a stream when the request asked for one; a
    failed call is answered 408. *)
Lemma chat_completion_relays (rt : Runtime) (mapping : ModelMapping) (w : World)
    (req : Request) (body filtered : value) :
  ToBoolean (PoeServer.getToken req) = true ->
  req_json req = Ok body ->
  PoeServer.filterRequestBody rt mapping body = Ok filtered ->
  run w 0 (PoeServer.handleChatCompletion rt mapping req)
  = (match upstream w (upstream_call rt (PoeServer.getToken req) filtered) with
     | Ok r =>
         if ToBoolean (get_opt body (js "stream")) then
           Ok {| status := up_status r;
                 headers :=
                   [ (js "access-control-allow-origin", js "*");
                     (js "content-type", js "text/event-stream; charset=utf-8");
                     (js "cache-control", js "no-cache");
                     (js "connection", js "keep-alive") ];
                 body := StreamBody (up_body r) |}
         else
           Ok {| status := up_status r;
                 headers :=
                   [ (js "access-control-allow-origin", js "*");
                     (js "content-type", js "application/json") ];
                 body := TextBody (up_body r) |}
     | Throw _ => Ok network_error_response
     end,
     [upstream_call rt (PoeServer.getToken req) filtered]).
Proof.
  intros Htoken Hbody Hout.
  destruct (filterRequestBody_stream rt mapping body filtered Hout) as (_ & Hstream & _).
  unfold PoeServer.handleChatCompletion. rewrite Htoken, Hbody. cbn [negb bind].
  rewrite Hout. cbn [bind fetch try_catch run].
  fold (upstream_call rt (PoeServer.getToken req) filtered).
  destruct (upstream w _) as [r|e]; cbn [bind try_catch run].
  - rewrite Hstream. cbn [bind try_catch run].
    destruct (ToBoolean (get_opt body (js "stream"))); reflexivity.
  - reflexivity.
Qed.

(** When the body cannot be filtered, the route ends in that exception
    before any call. *)
Lemma chat_completion_throws (rt : Runtime) (mapping : ModelMapping) (w : World)
    (req : Request) (body : value) (e : error) :
  ToBoolean (PoeServer.getToken req) = true ->
  req_json req = Ok body ->
  PoeServer.filterRequestBody rt mapping body = Throw e ->
  run w 0 (PoeServer.handleChatCompletion rt mapping req) = (Throw e, []).
Proof.
  intros Htoken Hbody Hout.
  unfold PoeServer.handleChatCompletion. rewrite Htoken, Hbody. cbn [negb bind].
  now rewrite Hout.
Qed.

(** C5, at the input that breaks it: an [Authorization] header that is not
    a bearer token ([Basic ...]) is not answered 401.  [replace] finds no
    [Bearer ] in it and returns it whole, so it counts as the token: the
    request goes upstream under [Bearer Basic ...] and the upstream's answer
    is relayed. *)
Theorem malformed_authorization_forwarded (rt : Runtime) (mapping : ModelMapping) (w : World) :
  exists call,
    snd (run w 0 (PoeServer.handle rt mapping basic_auth_request)) = [call]
    /\ fetch_url call = PoeServer.UPSTREAM_API
    /\ fetch_headers call
       = [ (js "authorization", js "Bearer Basic dXNlcjpwYXNz");
           (js "content-type", js "application/json") ]
    /\ forall r, upstream w call = Ok r ->
         fst (run w 0 (PoeServer.handle rt mapping basic_auth_request))
         = Ok {| status := up_status r;
                 headers :=
                   [ (js "access-control-allow-origin", js "*");
                     (js "content-type", js "application/json") ];
                 body := TextBody (up_body r) |}.
Proof.
  destruct (filterRequestBody_entries rt mapping
              (Obj [(js "model", Str (js "gpt-4")); (js "messages", Arr [])])
              _ _ eq_refl eq_refl eq_refl) as (supported & Hout & _).
  pose proof (chat_completion_relays rt mapping w basic_auth_request
                (Obj [(js "model", Str (js "gpt-4")); (js "messages", Arr [])])
                _ eq_refl eq_refl Hout) as Hrun.
  change (PoeServer.handle rt mapping basic_auth_request)
    with (PoeServer.handleChatCompletion rt mapping basic_auth_request).
  rewrite Hrun. eexists. split; [reflexivity|].
  split; [reflexivity|]. split; [reflexivity|].
  intros r Hr. cbn [fst]. rewrite Hr. reflexivity.
Qed.

(** The other program does reject such a header. *)
Lemma part000_rejects_basic :
  Part000.bearer_token (Str (js "Basic dXNlcjpwYXNz")) = None.
Proof. reflexivity. Qed.

(** ** The URL pattern *)

Lemma take_while_cons (f : code_unit -> bool) (s run : jsstring) (c : code_unit) :
  take_while f s = c :: run -> exists rest, s = c :: rest /\ f c = true.
Proof.
  destruct s as [|a s]; simpl; [discriminate|].
  destruct (f a) eqn:E; [|discriminate].
  intros [= -> _]. now exists s.
Qed.

Lemma url_match_here_Some (s m : jsstring) :
  url_match_here s = Some m -> contains_url s.
Proof.
  unfold url_match_here.
  destruct (strip_prefix (js "https://") s) as [rest|] eqn:E; [|discriminate].
  apply strip_prefix_Some in E.
  destruct (take_while url_char rest) as [|c run] eqn:Et; [discriminate|].
  intros _. apply take_while_cons in Et. destruct Et as (after & -> & Hc).
  exists [], c, after. now split.
Qed.

Lemma url_match_here_head (c : code_unit) (after : jsstring) :
  url_char c = true -> url_match_here (js "https://" ++ c :: after) <> None.
Proof.
  intro Hc. unfold url_match_here. rewrite strip_prefix_app. simpl. rewrite Hc.
  discriminate.
Qed.

Lemma has_url_unfold (text : jsstring) :
  has_url text
  = match url_match_here text with
    | Some _ => true
    | None => match text with [] => false | _ :: rest => has_url rest end
    end.
Proof. now destruct text. Qed.

Lemma has_url_spec (text : jsstring) : has_url text = true <-> contains_url text.
Proof.
  split.
  - induction text as [|a rest IH]; rewrite has_url_unfold.
    + destruct (url_match_here []) eqn:E; [|discriminate].
      intros _. now apply url_match_here_Some in E.
    + destruct (url_match_here (a :: rest)) eqn:E.
      * intros _. now apply url_match_here_Some in E.
      * intro H. destruct (IH H) as (before & c & after & -> & Hc).
        now exists (a :: before), c, after.
  - intros (before & c & after & -> & Hc).
    induction before as [|a before IH]; rewrite has_url_unfold.
    + pose proof (url_match_here_head c after Hc) as H.
      change ([] ++ js "https://" ++ c :: after) with (js "https://" ++ c :: after).
      destruct (url_match_here (js "https://" ++ c :: after));
        [reflexivity|congruence].
    + change ((a :: before) ++ js "https://" ++ c :: after)
        with (a :: (before ++ js "https://" ++ c :: after)).
      destruct (url_match_here _); [reflexivity|exact IH].
Qed.

(** Inside a match the search skips on; so after a match it resumes where
    the match ends, and so does stripping. *)
Lemma url_matches_skip (text : jsstring) :
  forall inside, url_matches text inside = url_matches (skipn inside text) 0.
Proof.
  induction text as [|c rest IH]; intros [|k]; try reflexivity.
  simpl skipn. rewrite <- IH. reflexivity.
Qed.

Lemma url_strip_skip (text : jsstring) :
  forall inside, url_strip text inside = url_strip (skipn inside text) 0.
Proof.
  induction text as [|c rest IH]; intros [|k]; try reflexivity.
  simpl skipn. rewrite <- IH. reflexivity.
Qed.

Lemma url_matches_resume (text m : jsstring) :
  url_match_here text = Some m ->
  url_matches text 0 = m :: url_matches (skipn (List.length m) text) 0
  /\ url_strip text 0 = url_strip (skipn (List.length m) text) 0.
Proof.
  intro H.
  assert (Hm : exists n, List.length m = S n).
  { unfold url_match_here in H.
    destruct (strip_prefix (js "https://") text) as [after|]; [|discriminate].
    destruct (take_while url_char after); [discriminate|].
    injection H as <-. now eexists. }
  destruct Hm as [n Hn].
  destruct text as [|c rest]; [discriminate|].
  unfold url_matches, url_strip; fold url_matches; fold url_strip.
  rewrite H, Hn. simpl Nat.sub. rewrite Nat.sub_0_r. simpl skipn.
  now rewrite url_matches_skip, url_strip_skip.
Qed.

Lemma url_matches_advance (c : code_unit) (rest : jsstring) :
  url_match_here (c :: rest) = None ->
  url_matches (c :: rest) 0 = url_matches rest 0
  /\ url_strip (c :: rest) 0 = c :: url_strip rest 0.
Proof.
  intro H. unfold url_matches, url_strip; fold url_matches; fold url_strip.
  now rewrite H.
Qed.

(** A text without a URL has no match, and stripping leaves it whole. *)
Lemma no_url_no_match (text : jsstring) :
  ~ contains_url text -> url_matches text 0 = [] /\ url_strip text 0 = text.
Proof.
  rewrite <- has_url_spec.
  induction text as [|a rest IH]; [now split|].
  unfold has_url; fold has_url. unfold url_matches, url_strip;
    fold url_matches; fold url_strip.
  destruct (url_match_here (a :: rest)); [congruence|].
  intro H. destruct (IH H) as [-> ->]. now split.
Qed.

(** ** The image route *)

Lemma own_assign_other (props : list (jsstring * value)) (k k' : jsstring) (v : value) :
  k' <> k -> own (assign props k v) k' = own props k'.
Proof. intro H. unfold own. now rewrite lookup_assign_other. Qed.

Lemma own_assign_same (props : list (jsstring * value)) (k : jsstring) (v : value) :
  own (assign props k v) k = v.
Proof. unfold own. now rewrite lookup_assign_same. Qed.

Lemma image_chat_request_filtered (rt : Runtime) (mapping : ModelMapping) (prompt : value) :
  PoeServer.filterRequestBody rt mapping
    (Obj [ (js "model", Str (js "dall-e-3"));
           (js "messages",
             Arr [Obj [(js "role", Str (js "user")); (js "content", prompt)]]);
           (js "max_tokens", Num 1000) ])
  = Ok (image_chat_request rt mapping prompt).
Proof.
  unfold PoeServer.filterRequestBody. cbn [get bind_result].
  unfold own. repeat (rewrite ?lookup_eq; rewrite ?lookup_neq by js_neq).
  rewrite mapModel_Str.
  cbn [lookup PoeServer.clamp_temperature ToBoolean bind_result].
  unfold image_chat_request. rewrite mapModel_Str.
  cbn [filter snd]. rewrite resolved_defined. reflexivity.
Qed.

Lemma get_not_nullish (v : value) (k : jsstring) :
  is_nullish v = false -> get v k = Ok (get_opt v k).
Proof.
  unfold get_opt. destruct v; try reflexivity; discriminate.
Qed.

(** The start of [generateImage] for a body whose size and prompt can be
    written out, up to the answer of the upstream. *)
Ltac image_start Hnn Hsize Hprompt :=
  unfold PoeServer.generateImage;
  rewrite !(get_not_nullish _ _ Hnn); cbn [bind]; unfold to_string;
  rewrite Hsize; cbn [bind]; rewrite Hprompt; cbn [bind];
  rewrite image_chat_request_filtered; cbn [bind fetch try_catch run];
  match goal with
  | |- context [upstream ?w {| fetch_url := _; fetch_method := _;
                               fetch_headers := _; fetch_body := ?b |}] =>
      match goal with
      | |- context [js "Bearer " ++ ToString ?rt ?token] => fold (upstream_call rt token b)
      end
  end.

(** Generating an image calls the upstream once, whatever it answers, when
    the size and the prompt can be written out; when one cannot, the log
    line throws and nothing is called. *)
Lemma generateImage_calls (rt : Runtime) (mapping : ModelMapping) (w : World)
    (tick : nat) (token reqBody : value) :
  is_nullish reqBody = false ->
  snd (run w tick (PoeServer.generateImage rt mapping token reqBody))
  = if converts (get_opt reqBody (js "size")) && converts (get_opt reqBody (js "prompt"))
    then [upstream_call rt token
            (image_chat_request rt mapping (get_opt reqBody (js "prompt")))]
    else [].
Proof.
  intro Hnn.
  destruct (converts (get_opt reqBody (js "size"))) eqn:Hsize.
  2:{ unfold PoeServer.generateImage. rewrite !(get_not_nullish _ _ Hnn).
      cbn [bind]. unfold to_string. rewrite Hsize. reflexivity. }
  destruct (converts (get_opt reqBody (js "prompt"))) eqn:Hprompt.
  2:{ unfold PoeServer.generateImage. rewrite !(get_not_nullish _ _ Hnn).
      cbn [bind]. unfold to_string. rewrite Hsize. cbn [bind]. rewrite Hprompt.
      reflexivity. }
  image_start Hnn Hsize Hprompt. cbn [andb].
  destruct (upstream w _) as [r|e]; cbn [bind try_catch run ret snd]; [|reflexivity].
  destruct (up_ok r); cbn [negb bind try_catch run ret snd].
  - destruct (up_json r) as [chat|e]; cbn [bind try_catch run ret snd]; [|reflexivity].
    destruct (PoeServer.reply_content chat) as [content|e];
      cbn [bind try_catch run ret snd]; [|reflexivity].
    destruct content; reflexivity.
  - destruct (get _ (js "error")) as [err|e]; reflexivity.
Qed.

(** It ends in a JSON response: whatever fails after the call is caught.
    Only the log line can make it throw. *)
Lemma generateImage_answers (rt : Runtime) (mapping : ModelMapping) (w : World)
    (tick : nat) (token reqBody : value) :
  is_nullish reqBody = false ->
  if converts (get_opt reqBody (js "size")) && converts (get_opt reqBody (js "prompt"))
  then exists data code,
         fst (run w tick (PoeServer.generateImage rt mapping token reqBody))
         = Ok (PoeServer.jsonResponse data code)
  else fst (run w tick (PoeServer.generateImage rt mapping token reqBody))
       = Throw TypeError.
Proof.
  intro Hnn.
  destruct (converts (get_opt reqBody (js "size"))) eqn:Hsize.
  2:{ unfold PoeServer.generateImage. rewrite !(get_not_nullish _ _ Hnn).
      cbn [bind]. unfold to_string. rewrite Hsize. reflexivity. }
  destruct (converts (get_opt reqBody (js "prompt"))) eqn:Hprompt.
  2:{ unfold PoeServer.generateImage. rewrite !(get_not_nullish _ _ Hnn).
      cbn [bind]. unfold to_string. rewrite Hsize. cbn [bind]. rewrite Hprompt.
      reflexivity. }
  image_start Hnn Hsize Hprompt. cbn [andb].
  destruct (upstream w _) as [r|e]; cbn [bind try_catch run ret fst];
    [|now eexists; eexists].
  destruct (up_ok r); cbn [negb bind try_catch run ret fst].
  - destruct (up_json r) as [chat|e]; cbn [bind try_catch run ret fst];
      [|now eexists; eexists].
    destruct (PoeServer.reply_content chat) as [content|e];
      cbn [bind try_catch run ret fst]; [|now eexists; eexists].
    destruct content; now eexists; eexists.
  - destruct (get _ (js "error")) as [err|e]; now eexists; eexists.
Qed.

Lemma strict_eq_str_false (v : value) (s : jsstring) :
  v <> Str s -> strict_eq_str v s = false.
Proof.
  intro H. destruct v; try reflexivity. simpl.
  destruct (str_eqb s0 s) eqn:E; [|reflexivity].
  apply str_eqb_eq in E. congruence.
Qed.

(** Past the token and the size check, the route generates the image from a
    body that has the request's prompt and the one size there is. *)
Lemma handleImageGeneration_generates (rt : Runtime) (mapping : ModelMapping)
    (req : Request) (props : list (jsstring * value)) :
  ToBoolean (PoeServer.getToken req) = true ->
  req_json req = Ok (Obj props) ->
  size_passes props ->
  exists reqBody,
    PoeServer.handleImageGeneration rt mapping req
    = PoeServer.generateImage rt mapping (PoeServer.getToken req) reqBody
    /\ is_nullish reqBody = false
    /\ get_opt reqBody (js "prompt") = own props (js "prompt")
    /\ get_opt reqBody (js "size") = Str (js "1024x1024").
Proof.
  intros Htoken Hbody Hsize.
  unfold PoeServer.handleImageGeneration. rewrite Htoken, Hbody.
  cbn [negb bind get]. destruct Hsize as [Hsize|Hsize]; rewrite Hsize.
  - cbn [set bind]. eexists. split; [reflexivity|]. split; [reflexivity|].
    rewrite !get_opt_Obj. unfold own.
    rewrite lookup_assign_other by js_neq. now rewrite lookup_assign_same.
  - change (ToBoolean (Str (js "1024x1024"))) with true.
    change (strict_eq_str (Str (js "1024x1024")) (js "1024x1024")) with true.
    cbn [negb]. eexists. split; [reflexivity|]. split; [reflexivity|].
    rewrite !get_opt_Obj. now split.
Qed.

(** The start of the route for a request past both checks whose prompt can
    be written out. *)
Ltac image_route_start Htoken Hbody Hsize Hprompt :=
  let reqBody := fresh "reqBody" in
  let Hobj := fresh "Hobj" in
  let Hp := fresh "Hp" in
  let Hs := fresh "Hs" in
  match type of Hbody with
  | req_json ?req = Ok (Obj ?props) =>
      match goal with
      | |- context [PoeServer.handleImageGeneration ?rt ?mapping req] =>
          destruct (handleImageGeneration_generates rt mapping req props Htoken Hbody Hsize)
            as (reqBody & -> & Hobj & Hp & Hs);
          rewrite <- Hp in Hprompt;
          assert (Hsz : converts (get_opt reqBody (js "size")) = true)
            by (rewrite Hs; reflexivity);
          image_start Hobj Hsz Hprompt; rewrite Hp
      end
  end.

(** C6, at the input that breaks it: an image request that has a token and
    whose size is present but is the empty string, or is the number 0, is
    not answered 400: its size is taken for an absent one and the request
    goes upstream. *)
Theorem falsy_size_goes_upstream (rt : Runtime) (mapping : ModelMapping) (w : World) :
  snd (run w 0
         (PoeServer.handle rt mapping
            (image_request [(js "authorization", js "Bearer sk-test")]
               (Obj [(js "prompt", Str (js "a cat")); (js "size", Str [])]))))
  = [upstream_call rt (Str (js "sk-test"))
       (image_chat_request rt mapping (Str (js "a cat")))]
  /\ snd (run w 0
            (PoeServer.handle rt mapping
               (image_request [(js "authorization", js "Bearer sk-test")]
                  (Obj [(js "prompt", Str (js "a cat")); (js "size", Num zero)]))))
     = [upstream_call rt (Str (js "sk-test"))
          (image_chat_request rt mapping (Str (js "a cat")))].
Proof.
  split.
  - change (PoeServer.handle rt mapping ?req)
      with (PoeServer.generateImage rt mapping (Str (js "sk-test"))
              (Obj [(js "prompt", Str (js "a cat")); (js "size", Str (js "1024x1024"))])).
    now rewrite generateImage_calls.
  - change (PoeServer.handle rt mapping ?req)
      with (PoeServer.generateImage rt mapping (Str (js "sk-test"))
              (Obj [(js "prompt", Str (js "a cat")); (js "size", Str (js "1024x1024"))])).
    now rewrite generateImage_calls.
Qed.

(** X25: of C6, what holds of a size that is refused: an image request that
    has a token and whose size is truthy, is not the string ["1024x1024"]
    and can be written out as text is answered 400, with a message that
    names the size, type [invalid_request_error], param [size] and code
    [invalid_size]; nothing is sent upstream. *)
Theorem invalid_size_rejected (rt : Runtime) (mapping : ModelMapping) (w : World)
    (req : Request) (props : list (jsstring * value)) :
  ToBoolean (PoeServer.getToken req) = true ->
  req_json req = Ok (Obj props) ->
  ToBoolean (own props (js "size")) = true ->
  own props (js "size") <> Str (js "1024x1024") ->
  converts (own props (js "size")) = true ->
  run w 0 (PoeServer.handleImageGeneration rt mapping req)
  = (Ok (invalid_size_response rt (own props (js "size"))), []).
Proof.
  intros Htoken Hbody Htruthy Hother Hconverts.
  unfold PoeServer.handleImageGeneration. rewrite Htoken, Hbody.
  cbn [negb bind get]. rewrite Htruthy, (strict_eq_str_false _ _ Hother).
  cbn [negb]. unfold to_string. rewrite Hconverts. reflexivity.
Qed.

(** X25, at the size 512x512 and at a size given as a number. *)
Lemma invalid_size_rejected_witness :
  run unreachable_world 0
    (PoeServer.handleImageGeneration example_runtime chained_mapping
       (image_request [(js "authorization", js "Bearer sk-test")]
          (Obj [(js "prompt", Str (js "a cat")); (js "size", Str (js "512x512"))])))
  = (Ok (PoeServer.jsonResponse
           (Obj [(js "error",
              Obj [ (js "message",
                      Str (js "Invalid size: 512x512. Only 1024x1024 is supported."));
                    (js "type", Str (js "invalid_request_error"));
                    (js "param", Str (js "size"));
                    (js "code", Str (js "invalid_size")) ])])
           400),
     [])
  /\ snd (run unreachable_world 0
            (PoeServer.handleImageGeneration example_runtime chained_mapping
               (image_request [(js "authorization", js "Bearer sk-test")]
                  (Obj [(js "prompt", Str (js "a cat")); (js "size", Num 1024)]))))
     = [].
Proof.
  split.
  - apply (invalid_size_rejected example_runtime chained_mapping unreachable_world
             (image_request [(js "authorization", js "Bearer sk-test")]
                (Obj [(js "prompt", Str (js "a cat")); (js "size", Str (js "512x512"))]))
             [(js "prompt", Str (js "a cat")); (js "size", Str (js "512x512"))]);
      try reflexivity.
    intro H. vm_compute in H. discriminate H.
  - rewrite (invalid_size_rejected example_runtime chained_mapping unreachable_world
               (image_request [(js "authorization", js "Bearer sk-test")]
                  (Obj [(js "prompt", Str (js "a cat")); (js "size", Num 1024)]))
               [(js "prompt", Str (js "a cat")); (js "size", Num 1024)]);
      try reflexivity.
    discriminate.
Defined.

(** X26: of C6, what holds of a size that passes: an image request that has
    a token, whose size is absent (or falsy) or is ["1024x1024"], and whose
    prompt can be written out as text calls the upstream once, with a chat
    completion for [dall-e-3] that carries the prompt, and is answered with
    a JSON response whatever the upstream does.  The size is no part of
    what is sent: a request without a size and the same request with the
    size ["1024x1024"] run alike. *)
Theorem passing_size_calls_upstream (rt : Runtime) (mapping : ModelMapping) (w : World)
    (req : Request) (props : list (jsstring * value)) :
  ToBoolean (PoeServer.getToken req) = true ->
  req_json req = Ok (Obj props) ->
  size_passes props ->
  converts (own props (js "prompt")) = true ->
  snd (run w 0 (PoeServer.handleImageGeneration rt mapping req))
  = [upstream_call rt (PoeServer.getToken req)
       (image_chat_request rt mapping (own props (js "prompt")))]
  /\ (exists data code,
        fst (run w 0 (PoeServer.handleImageGeneration rt mapping req))
        = Ok (PoeServer.jsonResponse data code))
  /\ (ToBoolean (own props (js "size")) = false ->
      run w 0 (PoeServer.handleImageGeneration rt mapping req)
      = run w 0
          (PoeServer.handleImageGeneration rt mapping
             {| method := method req; pathname := pathname req;
                req_headers := req_headers req;
                req_json := Ok (Obj (assign props (js "size") (Str (js "1024x1024")))) |})).
Proof.
  intros Htoken Hbody Hsize Hprompt.
  destruct (handleImageGeneration_generates rt mapping req props Htoken Hbody Hsize)
    as (reqBody & Hrun & Hobj & Hp & Hs).
  assert (Hboth : converts (get_opt reqBody (js "size"))
                  && converts (get_opt reqBody (js "prompt")) = true).
  { now rewrite Hs, Hp, Hprompt. }
  split; [|split].
  - rewrite Hrun, generateImage_calls, Hboth, Hp by exact Hobj. reflexivity.
  - rewrite Hrun.
    pose proof (generateImage_answers rt mapping w 0 (PoeServer.getToken req) reqBody Hobj)
      as H.
    now rewrite Hboth in H.
  - intro Hfalsy.
    unfold PoeServer.handleImageGeneration, PoeServer.getToken.
    cbn [req_headers req_json]. fold (PoeServer.getToken req).
    rewrite Htoken, Hbody. cbn [negb bind get]. rewrite Hfalsy, own_assign_same.
    reflexivity.
Qed.

(** X26, at a request without a size. *)
Lemma passing_size_calls_upstream_witness :
  snd (run unreachable_world 0
         (PoeServer.handleImageGeneration example_runtime chained_mapping
            (image_request [(js "authorization", js "Bearer sk-test")]
               (Obj [(js "prompt", Str (js "a cat"))]))))
  = [upstream_call example_runtime (Str (js "sk-test"))
       (Obj [ (js "model", Str (js "dall-e-3"));
              (js "messages",
                Arr [Obj [(js "role", Str (js "user"));
                          (js "content", Str (js "a cat"))]]);
              (js "max_tokens", Num 1000);
              (js "n", Num one) ])].
Proof.
  exact (proj1 (passing_size_calls_upstream example_runtime chained_mapping
                  unreachable_world
                  (image_request [(js "authorization", js "Bearer sk-test")]
                     (Obj [(js "prompt", Str (js "a cat"))]))
                  [(js "prompt", Str (js "a cat"))]
                  eq_refl eq_refl (or_introl eq_refl) eq_refl)).
Defined.

(** ** Upstream failures *)

(** The status table of [getErrorType]. *)
Lemma getErrorType_table :
  PoeServer.getErrorType 400 = Str (js "invalid_request_error")
  /\ PoeServer.getErrorType 401 = Str (js "authentication_error")
  /\ PoeServer.getErrorType 402 = Str (js "insufficient_credits")
  /\ PoeServer.getErrorType 403 = Str (js "moderation_error")
  /\ PoeServer.getErrorType 404 = Str (js "not_found_error")
  /\ PoeServer.getErrorType 408 = Str (js "timeout_error")
  /\ PoeServer.getErrorType 413 = Str (js "request_too_large")
  /\ PoeServer.getErrorType 429 = Str (js "rate_limit_error")
  /\ PoeServer.getErrorType 502 = Str (js "upstream_error")
  /\ PoeServer.getErrorType 529 = Str (js "overloaded_error").
Proof. repeat split. Qed.

Lemma getErrorType_other (status : Z) :
  ~ In status [400; 401; 402; 403; 404; 408; 413; 429; 502; 529]%Z ->
  PoeServer.getErrorType status = Str (js "unknown_error").
Proof.
  intro H. unfold PoeServer.getErrorType, PoeServer.errorMap, PoeServer.errorMap_get.
  repeat match goal with
  | |- context [(status =? ?c)%Z] =>
      destruct (Z.eqb_spec status c) as [->|_]; [exfalso; apply H; simpl; tauto|]
  end.
  reflexivity.
Qed.

(** X12: of C7, what holds: for an image request past the token and the size
    check whose prompt can be written out, when the upstream answers outside
    2xx, under a status a response with a body may have, and its body is no
    JSON, or is JSON other than [null], the reply has the upstream's status,
    the upstream's error message or "Upstream API error" in its place, and
    the type of the status table. *)
Lemma upstream_failure_shaped (rt : Runtime) (mapping : ModelMapping) (w : World)
    (req : Request) (props : list (jsstring * value)) (r : UpstreamResponse)
    (errorData : value) :
  ToBoolean (PoeServer.getToken req) = true ->
  req_json req = Ok (Obj props) ->
  size_passes props ->
  converts (own props (js "prompt")) = true ->
  upstream w (upstream_call rt (PoeServer.getToken req)
                (image_chat_request rt mapping (own props (js "prompt")))) = Ok r ->
  up_ok r = false ->
  Response_accepts (up_status r) = true ->
  errorData = match up_json r with Ok data => data | Throw _ => Obj [] end ->
  is_nullish errorData = false ->
  run w 0 (PoeServer.handleImageGeneration rt mapping req)
  = (Ok (PoeServer.jsonResponse
           (Obj [(js "error",
              Obj [ (js "message",
                      or_else (get_opt (get_opt errorData (js "error")) (js "message"))
                              (Str (js "Upstream API error")));
                    (js "type", PoeServer.getErrorType (up_status r)) ])])
           (up_status r)),
     [upstream_call rt (PoeServer.getToken req)
        (image_chat_request rt mapping (own props (js "prompt")))]).
Proof.
  intros Htoken Hbody Hsize Hprompt Hup Hok _ HerrorData Hnn.
  image_route_start Htoken Hbody Hsize Hprompt. rewrite Hup.
  cbn [bind try_catch run]. rewrite Hok. cbn [negb].
  rewrite <- HerrorData. rewrite (get_not_nullish _ _ Hnn).
  reflexivity.
Qed.

(** X12, at an upstream that answers 429 and says why. *)
Lemma upstream_failure_shaped_witness :
  run (answering_world rate_limited) 0
    (PoeServer.handleImageGeneration example_runtime chained_mapping
       (image_request [(js "authorization", js "Bearer sk-test")]
          (Obj [(js "prompt", Str (js "a cat"))])))
  = (Ok (PoeServer.jsonResponse
           (Obj [(js "error",
              Obj [ (js "message", Str (js "Too many requests"));
                    (js "type", Str (js "rate_limit_error")) ])])
           429),
     [upstream_call example_runtime (Str (js "sk-test"))
        (image_chat_request example_runtime chained_mapping (Str (js "a cat")))]).
Proof.
  exact (upstream_failure_shaped example_runtime chained_mapping
           (answering_world rate_limited)
           (image_request [(js "authorization", js "Bearer sk-test")]
              (Obj [(js "prompt", Str (js "a cat"))]))
           [(js "prompt", Str (js "a cat"))]
           rate_limited
           (Obj [(js "error", Obj [(js "message", Str (js "Too many requests"))])])
           eq_refl eq_refl (or_introl eq_refl) eq_refl eq_refl eq_refl eq_refl
           eq_refl eq_refl).
Defined.

(** When that body is the JSON value [null], reading [errorData.error]
    throws and the [catch] answers 408. *)
Lemma upstream_failure_null (rt : Runtime) (mapping : ModelMapping) (w : World)
    (req : Request) (props : list (jsstring * value)) (r : UpstreamResponse) :
  ToBoolean (PoeServer.getToken req) = true ->
  req_json req = Ok (Obj props) ->
  size_passes props ->
  converts (own props (js "prompt")) = true ->
  upstream w (upstream_call rt (PoeServer.getToken req)
                (image_chat_request rt mapping (own props (js "prompt")))) = Ok r ->
  up_ok r = false ->
  up_json r = Ok Null ->
  run w 0 (PoeServer.handleImageGeneration rt mapping req)
  = (Ok network_error_response,
     [upstream_call rt (PoeServer.getToken req)
        (image_chat_request rt mapping (own props (js "prompt")))]).
Proof.
  intros Htoken Hbody Hsize Hprompt Hup Hok Hjson.
  image_route_start Htoken Hbody Hsize Hprompt. rewrite Hup.
  cbn [bind try_catch run]. rewrite Hok, Hjson. reflexivity.
Qed.

(** C7, at the input that breaks it: the upstream answers 500 with the JSON
    body [null].  Reading [errorData.error] throws, the [catch] written for
    network failures takes over, and the reply is 408 [timeout_error], not
    500. *)
Theorem upstream_null_error_is_408 (rt : Runtime) (mapping : ModelMapping) :
  run null_error_world 0
    (PoeServer.handleImageGeneration rt mapping
       (image_request [(js "authorization", js "Bearer sk-test")]
          (Obj [(js "prompt", Str (js "a cat"))])))
  = (Ok network_error_response,
     [upstream_call rt (Str (js "sk-test"))
        (image_chat_request rt mapping (Str (js "a cat")))])
  /\ status network_error_response = 408%Z.
Proof.
  split; [|reflexivity].
  apply (upstream_failure_null rt mapping null_error_world
           (image_request [(js "authorization", js "Bearer sk-test")]
              (Obj [(js "prompt", Str (js "a cat"))]))
           [(js "prompt", Str (js "a cat"))]
           {| up_status := 500; up_body := js "null"; up_json := Ok Null |});
    try reflexivity.
  left. reflexivity.
Qed.

(** ** Replies without a URL *)

(** C10, as stated, fails when the successful answer holds no reply text to
    look into: a body that is no JSON, or a [content] that is a number, ends
    in the [catch] and is answered 408.  And a prompt that cannot be written
    out as text makes the log line throw before anything is called. *)
Lemma image_without_url_counterexample :
  run {| upstream := fun _ =>
           Ok {| up_status := 200; up_body := js "<html>"; up_json := Throw SyntaxError |};
         clock := fun _ => zero |} 0
    (PoeServer.handleImageGeneration example_runtime []
       (image_request [(js "authorization", js "Bearer sk-test")]
          (Obj [(js "prompt", Str (js "a cat"))])))
  = (Ok network_error_response,
     [upstream_call example_runtime (Str (js "sk-test"))
        (image_chat_request example_runtime [] (Str (js "a cat")))])
  /\ run {| upstream := fun _ =>
              Ok {| up_status := 200;
                    up_body := js "{" ++ quote ++ js "choices" ++ quote ++ js ":[{"
                      ++ quote ++ js "message" ++ quote ++ js ":{" ++ quote
                      ++ js "content" ++ quote ++ js ":42}}]}";
                    up_json :=
                      Ok (Obj [(js "choices",
                           Arr [Obj [(js "message",
                             Obj [(js "content", Num 42)])]])]) |};
            clock := fun _ => zero |} 0
       (PoeServer.handleImageGeneration example_runtime []
          (image_request [(js "authorization", js "Bearer sk-test")]
             (Obj [(js "prompt", Str (js "a cat"))])))
     = (Ok network_error_response,
        [upstream_call example_runtime (Str (js "sk-test"))
           (image_chat_request example_runtime [] (Str (js "a cat")))])
  /\ status network_error_response = 408%Z
  /\ run (replying_world (js "Sorry, I cannot draw that.")) 0
       (PoeServer.handleImageGeneration example_runtime []
          (image_request [(js "authorization", js "Bearer sk-test")]
             (Obj [(js "prompt", unconvertible)])))
     = (Throw TypeError, []).
Proof. repeat split. Qed.

(** C10, amended: an image request that is past the token and the size
    check and whose prompt can be written out as text, whose upstream call
    succeeds with a JSON body in which the reply is text (or is missing, and
    read as the empty text) without a URL, is answered 200; [url] is the
    empty string, and [revised_prompt] is the trimmed reply, or the
    request's prompt when the trimmed reply is empty or shorter than 10 code
    units. *)
Theorem image_without_url (rt : Runtime) (mapping : ModelMapping) (w : World)
    (req : Request) (props : list (jsstring * value)) (r : UpstreamResponse)
    (chatResponse : value) (text : jsstring) :
  ToBoolean (PoeServer.getToken req) = true ->
  req_json req = Ok (Obj props) ->
  size_passes props ->
  converts (own props (js "prompt")) = true ->
  upstream w (upstream_call rt (PoeServer.getToken req)
                (image_chat_request rt mapping (own props (js "prompt")))) = Ok r ->
  up_ok r = true ->
  up_json r = Ok chatResponse ->
  PoeServer.reply_content chatResponse = Ok (Str text) ->
  ~ contains_url text ->
  run w 0 (PoeServer.handleImageGeneration rt mapping req)
  = (Ok (PoeServer.jsonResponse
           (Obj [ (js "created", Num (Math_floor (clock w 0 / 1000)));
                  (js "data",
                    Arr [Obj [ (js "revised_prompt",
                                 if negb (ToBoolean (Str (String_trim text)))
                                    || (List.length (String_trim text) <? 10)
                                 then own props (js "prompt")
                                 else Str (String_trim text));
                               (js "url", Str []) ]]) ])
           200),
     [upstream_call rt (PoeServer.getToken req)
        (image_chat_request rt mapping (own props (js "prompt")))]).
Proof.
  intros Htoken Hbody Hsize Hprompt Hup Hok Hjson Hreply Hnourl.
  destruct (no_url_no_match text Hnourl) as [Hmatches Hstrip].
  image_route_start Htoken Hbody Hsize Hprompt. rewrite Hup.
  cbn [bind try_catch run]. rewrite Hok, Hjson. cbn [negb bind try_catch run].
  rewrite Hreply. cbn [bind try_catch run Date_now].
  rewrite Hmatches, Hstrip. reflexivity.
Qed.

(** C10, amended, at a reply long enough to be the revised prompt and at one
    too short for it. *)
Lemma image_without_url_witness :
  run (replying_world (js "Sorry, I cannot draw that.")) 0
    (PoeServer.handleImageGeneration example_runtime chained_mapping
       (image_request [(js "authorization", js "Bearer sk-test")]
          (Obj [(js "prompt", Str (js "a cat"))])))
  = (Ok (PoeServer.jsonResponse
           (Obj [ (js "created", Num 1700000000);
                  (js "data",
                    Arr [Obj [ (js "revised_prompt",
                                 Str (js "Sorry, I cannot draw that."));
                               (js "url", Str []) ]]) ])
           200),
     [upstream_call example_runtime (Str (js "sk-test"))
        (image_chat_request example_runtime chained_mapping (Str (js "a cat")))])
  /\ run (replying_world (js " No. ")) 0
       (PoeServer.handleImageGeneration example_runtime chained_mapping
          (image_request [(js "authorization", js "Bearer sk-test")]
             (Obj [(js "prompt", Str (js "a cat")); (js "size", Str (js "1024x1024"))])))
     = (Ok (PoeServer.jsonResponse
              (Obj [ (js "created", Num 1700000000);
                     (js "data",
                       Arr [Obj [ (js "revised_prompt", Str (js "a cat"));
                                  (js "url", Str []) ]]) ])
              200),
        [upstream_call example_runtime (Str (js "sk-test"))
           (image_chat_request example_runtime chained_mapping (Str (js "a cat")))]).
Proof.
  split.
  - apply (image_without_url example_runtime chained_mapping
             (replying_world (js "Sorry, I cannot draw that."))
             (image_request [(js "authorization", js "Bearer sk-test")]
                (Obj [(js "prompt", Str (js "a cat"))]))
             [(js "prompt", Str (js "a cat"))]
             (chat_answer (js "Sorry, I cannot draw that."))
             (Obj [(js "choices",
                Arr [Obj [(js "message",
                  Obj [(js "content", Str (js "Sorry, I cannot draw that."))])]])])
             (js "Sorry, I cannot draw that.")); try reflexivity.
    + left. reflexivity.
    + intro H. apply has_url_spec in H. vm_compute in H. discriminate H.
  - apply (image_without_url example_runtime chained_mapping
             (replying_world (js " No. "))
             (image_request [(js "authorization", js "Bearer sk-test")]
                (Obj [(js "prompt", Str (js "a cat"));
                      (js "size", Str (js "1024x1024"))]))
             [(js "prompt", Str (js "a cat")); (js "size", Str (js "1024x1024"))]
             (chat_answer (js " No. "))
             (Obj [(js "choices",
                Arr [Obj [(js "message", Obj [(js "content", Str (js " No. "))])]])])
             (js " No. ")); try reflexivity.
    + right. reflexivity.
    + intro H. apply has_url_spec in H. vm_compute in H. discriminate H.
Defined.

(** With a URL in the reply, it is the first match that is returned, and the
    text around the matches that is the revised prompt. *)
Example image_with_url :
  fst (run (replying_world
              (js "Here is your cat: (https://img.example/cat.png) or https://b.example/2"))
         0
         (PoeServer.handleImageGeneration example_runtime chained_mapping
            (image_request [(js "authorization", js "Bearer sk-test")]
               (Obj [(js "prompt", Str (js "a cat"))]))))
  = Ok (PoeServer.jsonResponse
          (Obj [ (js "created", Num 1700000000);
                 (js "data",
                   Arr [Obj [ (js "revised_prompt",
                                Str (js "Here is your cat: () or"));
                              (js "url", Str (js "https://img.example/cat.png")) ]]) ])
          200).
Proof. reflexivity. Qed.

(** ** The routes of the filtering proxy *)

Lemma str_eqb_neq (a b : jsstring) : str_eqb a b = false <-> a <> b.
Proof.
  unfold str_eqb. destruct (jsstring_eq_dec a b); split; congruence.
Qed.

(** The routes of [handle], in the order it tries them. *)
Lemma handle_routes (rt : Runtime) (mapping : ModelMapping) (req : Request) :
  (method req = js "OPTIONS"
   /\ PoeServer.handle rt mapping req = ret preflight_response)
  \/ (method req = js "POST" /\ pathname req = js "/v1/images/generations"
      /\ PoeServer.handle rt mapping req = PoeServer.handleImageGeneration rt mapping req)
  \/ (method req = js "POST" /\ pathname req = js "/v1/chat/completions"
      /\ PoeServer.handle rt mapping req = PoeServer.handleChatCompletion rt mapping req)
  \/ (method req = js "GET" /\ pathname req = js "/v1/models")
  \/ (~ forwarding_route req
      /\ forall w tick, exists data,
           run w tick (PoeServer.handle rt mapping req)
           = (Ok (PoeServer.jsonResponse data 200), [])).
Proof.
  unfold PoeServer.handle, forwarding_route.
  destruct (str_eqb (method req) (js "OPTIONS")) eqn:Eo.
  { left. apply str_eqb_eq in Eo. now split. }
  destruct (str_eqb (method req) (js "POST")) eqn:Ep.
  - apply str_eqb_eq in Ep.
    destruct (str_eqb (pathname req) (js "/v1/images/generations")) eqn:Ei.
    { apply str_eqb_eq in Ei. right. left. now repeat split. }
    destruct (str_eqb (pathname req) (js "/v1/chat/completions")) eqn:Ec.
    { apply str_eqb_eq in Ec. right. right. left. now repeat split. }
    apply str_eqb_neq in Ei, Ec. cbn [andb].
    rewrite Ep. change (str_eqb (js "POST") (js "GET")) with false. cbn [andb].
    right. right. right. right. split; [tauto|].
    intros w tick. eexists. reflexivity.
  - apply str_eqb_neq in Ep. cbn [andb].
    destruct (str_eqb (method req) (js "GET")) eqn:Eg;
      destruct (str_eqb (pathname req) (js "/v1/models")) eqn:Em; cbn [andb];
      try (apply str_eqb_eq in Eg; apply str_eqb_eq in Em;
           right; right; right; left; now split);
      (right; right; right; right; split; [tauto|];
       intros w tick; eexists; reflexivity).
Qed.

Ltac other_route Hm Hm' :=
  rewrite Hm in Hm'; vm_compute in Hm'; discriminate Hm'.

Lemma get_Ok_not_nullish (v x : value) (k : jsstring) :
  get v k = Ok x -> is_nullish v = false.
Proof. destruct v; simpl; congruence. Qed.

Lemma set_Ok_not_nullish (v v' x : value) (k : jsstring) :
  set v k x = Ok v' -> is_nullish v' = false.
Proof. destruct v; simpl; try discriminate; intros [= <-]; reflexivity. Qed.

Lemma strict_eq_str_true (v : value) (s : jsstring) :
  strict_eq_str v s = true -> v = Str s.
Proof.
  destruct v; simpl; try discriminate. intro H. apply str_eqb_eq in H. now subst.
Qed.

(** Generating an image either answers, or ends in the TypeError of its log
    line before anything is called. *)
Lemma generateImage_outcome (rt : Runtime) (mapping : ModelMapping) (w : World)
    (token reqBody : value) :
  is_nullish reqBody = false ->
  if converts (get_opt reqBody (js "size")) && converts (get_opt reqBody (js "prompt"))
  then exists data code,
         fst (run w 0 (PoeServer.generateImage rt mapping token reqBody))
         = Ok (PoeServer.jsonResponse data code)
  else run w 0 (PoeServer.generateImage rt mapping token reqBody) = (Throw TypeError, []).
Proof.
  intro Hnn.
  pose proof (generateImage_answers rt mapping w 0 token reqBody Hnn) as Hfst.
  pose proof (generateImage_calls rt mapping w 0 token reqBody Hnn) as Hsnd.
  destruct (converts (get_opt reqBody (js "size"))
            && converts (get_opt reqBody (js "prompt"))); [exact Hfst|].
  rewrite (surjective_pairing (run w 0 _)). now rewrite Hfst, Hsnd.
Qed.

(** The image route, for a request that has a token: it ends in the
    exception its body makes, nothing called, or it answers with a JSON
    response. *)
Lemma image_route_outcome (rt : Runtime) (mapping : ModelMapping) (w : World)
    (req : Request) :
  pathname req = js "/v1/images/generations" ->
  ToBoolean (PoeServer.getToken req) = true ->
  match body_failure req with
  | Some e => run w 0 (PoeServer.handleImageGeneration rt mapping req) = (Throw e, [])
  | None => exists data code,
              fst (run w 0 (PoeServer.handleImageGeneration rt mapping req))
              = Ok (PoeServer.jsonResponse data code)
  end.
Proof.
  intros Hp Htoken. unfold body_failure. rewrite Hp.
  change (str_eqb (js "/v1/images/generations") (js "/v1/images/generations")) with true.
  cbv zeta iota.
  unfold PoeServer.handleImageGeneration. rewrite Htoken. cbn [negb].
  destruct (req_json req) as [reqBody|e']; cbn [bind]; [|reflexivity].
  destruct reqBody; cbn [get bind ToBoolean set]; try reflexivity.
  - exact (generateImage_outcome rt mapping w (PoeServer.getToken req) (Arr items) eq_refl).
  - destruct (ToBoolean (own props (js "size"))) eqn:Ht; cbn [andb].
    + destruct (strict_eq_str (own props (js "size")) (js "1024x1024")) eqn:Heq;
        cbn [negb].
      * apply strict_eq_str_true in Heq.
        pose proof (generateImage_outcome rt mapping w (PoeServer.getToken req)
                      (Obj props) eq_refl) as H.
        rewrite !get_opt_Obj, Heq in H. cbn [converts andb] in H.
        destruct (converts (own props (js "prompt"))); exact H.
      * unfold to_string. destruct (converts (own props (js "size")));
          [eexists; eexists|]; reflexivity.
    + pose proof (generateImage_outcome rt mapping w (PoeServer.getToken req)
                    (Obj (assign props (js "size") (Str (js "1024x1024")))) eq_refl) as H.
      rewrite !get_opt_Obj, own_assign_same, own_assign_other in H by js_neq.
      cbn [converts andb] in H.
      destruct (converts (own props (js "prompt"))); exact H.
  - exact (generateImage_outcome rt mapping w (PoeServer.getToken req) (Fun name) eq_refl).
Qed.

(** The filter either returns, or ends in the TypeError of one of its two
    conversions. *)
Lemma filterRequestBody_decides (rt : Runtime) (mapping : ModelMapping) (body : value) :
  is_nullish body = false ->
  if converts (get_opt body (js "model"))
     && (negb (ToBoolean (get_opt body (js "temperature")))
         || converts (get_opt body (js "temperature")))
  then exists out, PoeServer.filterRequestBody rt mapping body = Ok out
  else PoeServer.filterRequestBody rt mapping body = Throw TypeError.
Proof.
  intro Hnn.
  rewrite (filterRequestBody_eq rt mapping body Hnn), mapModel_converts,
    clamp_temperature_converts.
  destruct (converts (get_opt body (js "model"))); cbn [andb bind_result]; [|reflexivity].
  destruct (ToBoolean (get_opt body (js "temperature"))); cbn [negb orb].
  - destruct (converts (get_opt body (js "temperature"))); cbn [bind_result];
      [eexists|]; reflexivity.
  - eexists; reflexivity.
Qed.

Lemma filterable_returns (rt : Runtime) (mapping : ModelMapping)
    (props : list (jsstring * value)) :
  filterable props ->
  exists filtered, PoeServer.filterRequestBody rt mapping (Obj props) = Ok filtered.
Proof.
  intros [Hmodel Htemp].
  pose proof (filterRequestBody_decides rt mapping (Obj props) eq_refl) as H.
  rewrite !get_opt_Obj, Hmodel in H. cbn [andb] in H.
  destruct (ToBoolean (own props (js "temperature"))); cbn [negb orb] in H;
    [rewrite (Htemp eq_refl) in H|]; exact H.
Qed.

(** The chat route, for a request that has a token: it ends in the
    exception its body makes, nothing called, or it answers. *)
Lemma chat_route_outcome (rt : Runtime) (mapping : ModelMapping) (w : World)
    (req : Request) :
  pathname req = js "/v1/chat/completions" ->
  ToBoolean (PoeServer.getToken req) = true ->
  match body_failure req with
  | Some e => run w 0 (PoeServer.handleChatCompletion rt mapping req) = (Throw e, [])
  | None => exists r, fst (run w 0 (PoeServer.handleChatCompletion rt mapping req)) = Ok r
                      /\ allows_any_origin r
  end.
Proof.
  intros Hp Htoken. unfold body_failure. rewrite Hp.
  change (str_eqb (js "/v1/chat/completions") (js "/v1/images/generations")) with false.
  cbv zeta iota.
  destruct (req_json req) as [reqBody|e'] eqn:Hbody.
  2:{ unfold PoeServer.handleChatCompletion. now rewrite Htoken, Hbody. }
  assert (Hok : forall filtered,
            PoeServer.filterRequestBody rt mapping reqBody = Ok filtered ->
            exists r, fst (run w 0 (PoeServer.handleChatCompletion rt mapping req)) = Ok r
                      /\ allows_any_origin r).
  { intros filtered Hout.
    rewrite (chat_completion_relays rt mapping w req reqBody filtered Htoken Hbody Hout).
    cbn [fst]. destruct (upstream w _) as [up|e0]; [|now eexists].
    destruct (ToBoolean (get_opt reqBody (js "stream"))); now eexists. }
  destruct reqBody as [| |b|x|s|items|props|name];
    try (now apply (chat_completion_throws rt mapping w req _ TypeError Htoken Hbody));
    try (match goal with
         | Hb : req_json req = Ok ?body |- _ =>
             destruct (filterRequestBody_decides rt mapping body eq_refl) as [out Hout]
         end;
         exact (Hok out Hout)).
  pose proof (filterRequestBody_decides rt mapping (Obj props) eq_refl) as H.
  rewrite !get_opt_Obj in H.
  destruct (converts (own props (js "model"))
            && (negb (ToBoolean (own props (js "temperature")))
                || converts (own props (js "temperature")))).
  - destruct H as [out Hout]. exact (Hok out Hout).
  - now apply (chat_completion_throws rt mapping w req _ TypeError Htoken Hbody).
Qed.

(** ** The CORS header *)

Lemma missing_token_image (rt : Runtime) (mapping : ModelMapping) (w : World)
    (req : Request) :
  ToBoolean (PoeServer.getToken req) = false ->
  exists data code,
    run w 0 (PoeServer.handleImageGeneration rt mapping req)
    = (Ok (PoeServer.jsonResponse data code), []).
Proof.
  intro Htoken. unfold PoeServer.handleImageGeneration. rewrite Htoken.
  eexists. eexists. reflexivity.
Qed.

Lemma missing_token_chat (rt : Runtime) (mapping : ModelMapping) (w : World)
    (req : Request) :
  ToBoolean (PoeServer.getToken req) = false ->
  exists data code,
    run w 0 (PoeServer.handleChatCompletion rt mapping req)
    = (Ok (PoeServer.jsonResponse data code), []).
Proof.
  intro Htoken. unfold PoeServer.handleChatCompletion. rewrite Htoken.
  eexists. eexists. reflexivity.
Qed.

Lemma image_route_allows_any_origin (rt : Runtime) (mapping : ModelMapping) (w : World)
    (req : Request) (r : Response) :
  pathname req = js "/v1/images/generations" ->
  fst (run w 0 (PoeServer.handleImageGeneration rt mapping req)) = Ok r ->
  allows_any_origin r.
Proof.
  intro Hp. destruct (ToBoolean (PoeServer.getToken req)) eqn:Htoken.
  - pose proof (image_route_outcome rt mapping w req Hp Htoken) as H.
    destruct (body_failure req) as [e|].
    + rewrite H. discriminate.
    + destruct H as (data & code & ->). intros [= <-]. reflexivity.
  - destruct (missing_token_image rt mapping w req Htoken) as (data & code & ->).
    intros [= <-]. reflexivity.
Qed.

Lemma chat_route_allows_any_origin (rt : Runtime) (mapping : ModelMapping) (w : World)
    (req : Request) (r : Response) :
  pathname req = js "/v1/chat/completions" ->
  fst (run w 0 (PoeServer.handleChatCompletion rt mapping req)) = Ok r ->
  allows_any_origin r.
Proof.
  intro Hp. destruct (ToBoolean (PoeServer.getToken req)) eqn:Htoken.
  - pose proof (chat_route_outcome rt mapping w req Hp Htoken) as H.
    destruct (body_failure req) as [e|].
    + rewrite H. discriminate.
    + destruct H as (r' & -> & Hr). now intros [= <-].
  - destruct (missing_token_chat rt mapping w req Htoken) as (data & code & ->).
    intros [= <-]. reflexivity.
Qed.

(** X1: every response the filtering proxy gives, on any route, for any
    request and whatever the upstream does, carries
    [access-control-allow-origin: *]. *)
Theorem every_response_allows_any_origin (rt : Runtime) (mapping : ModelMapping)
    (w : World) (req : Request) (r : Response) :
  fst (run w 0 (PoeServer.handle rt mapping req)) = Ok r -> allows_any_origin r.
Proof.
  destruct (handle_routes rt mapping req)
    as [[Hm ->]|[(Hm & Hp & ->)|[(Hm & Hp & ->)|[[Hm Hp]|[Hnf H]]]]].
  - intros [= <-]. reflexivity.
  - now apply image_route_allows_any_origin.
  - now apply chat_route_allows_any_origin.
  - rewrite (models_listing rt mapping w req Hm Hp). intros [= <-]. reflexivity.
  - destruct (H w 0) as [data ->]. intros [= <-]. reflexivity.
Qed.

(** X1, at an image request whose upstream answers 500 with [null]. *)
Lemma every_response_allows_any_origin_witness :
  fst (run null_error_world 0
         (PoeServer.handle example_runtime chained_mapping
            (image_request [(js "authorization", js "Bearer sk-test")]
               (Obj [(js "prompt", Str (js "a cat"))]))))
  = Ok network_error_response
  /\ allows_any_origin network_error_response.
Proof.
  assert (H : fst (run null_error_world 0
                     (PoeServer.handle example_runtime chained_mapping
                        (image_request [(js "authorization", js "Bearer sk-test")]
                           (Obj [(js "prompt", Str (js "a cat"))]))))
              = Ok network_error_response) by reflexivity.
  split; [exact H|].
  exact (every_response_allows_any_origin example_runtime chained_mapping
           null_error_world _ _ H).
Defined.

(** ** Uncaught exceptions *)

Lemma route_failure (rt : Runtime) (mapping : ModelMapping) (w : World)
    (req : Request) (e : error) (route : prog Response) :
  (ToBoolean (PoeServer.getToken req) = true ->
   match body_failure req with
   | Some e => run w 0 route = (Throw e, [])
   | None => exists r, fst (run w 0 route) = Ok r
   end) ->
  (ToBoolean (PoeServer.getToken req) = false ->
   exists data code, run w 0 route = (Ok (PoeServer.jsonResponse data code), [])) ->
  fst (run w 0 route) = Throw e
  <-> ToBoolean (PoeServer.getToken req) = true
      /\ body_failure req = Some e
      /\ snd (run w 0 route) = [].
Proof.
  intros Hwith Hwithout.
  destruct (ToBoolean (PoeServer.getToken req)).
  - specialize (Hwith eq_refl). destruct (body_failure req) as [e'|].
    + rewrite Hwith. cbn [fst snd]. split.
      * intros [= ->]. now repeat split.
      * intros (_ & [= ->] & _). reflexivity.
    + destruct Hwith as [r ->]. split; [discriminate|].
      intros (_ & H & _). discriminate H.
  - destruct (Hwithout eq_refl) as (data & code & ->). cbn [fst].
    split; [discriminate|]. intros (H & _). discriminate H.
Qed.

(** X2: [handle] ends in an exception of its own exactly on a forwarding
    route, for a request that has a token and whose body makes one: a body
    that is no JSON or is [null]; on the chat route, one whose [model], or
    whose truthy [temperature], cannot be converted; on the image route,
    one that is a number, a string or a boolean, or whose refused size, or
    whose prompt past the size check, cannot be written out as text.
    Nothing has then been sent upstream. *)
Theorem handle_fails_exactly (rt : Runtime) (mapping : ModelMapping) (w : World)
    (req : Request) (e : error) :
  fst (run w 0 (PoeServer.handle rt mapping req)) = Throw e
  <-> forwarding_route req
      /\ ToBoolean (PoeServer.getToken req) = true
      /\ body_failure req = Some e
      /\ snd (run w 0 (PoeServer.handle rt mapping req)) = [].
Proof.
  unfold forwarding_route.
  destruct (handle_routes rt mapping req)
    as [[Hm ->]|[(Hm & Hp & ->)|[(Hm & Hp & ->)|[[Hm Hp]|[Hnf H]]]]].
  - cbn [ret run fst]. split; [discriminate|].
    intros [[Hpost _] _]. other_route Hm Hpost.
  - rewrite (route_failure rt mapping w req e (PoeServer.handleImageGeneration rt mapping req)).
    + tauto.
    + intro Ht. pose proof (image_route_outcome rt mapping w req Hp Ht) as H.
      destruct (body_failure req); [exact H|].
      destruct H as (data & code & H). eexists. exact H.
    + apply missing_token_image.
  - rewrite (route_failure rt mapping w req e (PoeServer.handleChatCompletion rt mapping req)).
    + tauto.
    + intro Ht. pose proof (chat_route_outcome rt mapping w req Hp Ht) as H.
      destruct (body_failure req); [exact H|].
      destruct H as (r & H & _). eexists. exact H.
    + apply missing_token_chat.
  - rewrite (models_listing rt mapping w req Hm Hp). cbn [fst].
    split; [discriminate|].
    intros [[Hpost _] _]. other_route Hm Hpost.
  - destruct (H w 0) as [data ->]. cbn [fst]. split; [discriminate|].
    intros [Hf _]. now destruct Hnf.
Qed.

Example handle_failures :
  run unreachable_world 0
    (PoeServer.handle example_runtime []
       {| method := js "POST"; pathname := js "/v1/chat/completions";
          req_headers := [(js "authorization", js "Bearer sk-test")];
          req_json := Throw SyntaxError |})
  = (Throw SyntaxError, [])
  /\ run unreachable_world 0
       (PoeServer.handle example_runtime []
          (chat_request [(js "authorization", js "Bearer sk-test")] Null))
     = (Throw TypeError, [])
  /\ run unreachable_world 0
       (PoeServer.handle example_runtime []
          (image_request [(js "authorization", js "Bearer sk-test")] (Str (js "a cat"))))
     = (Throw TypeError, [])
  /\ run unreachable_world 0
       (PoeServer.handle example_runtime []
          (chat_request [(js "authorization", js "Bearer sk-test")]
             (Obj [(js "model", unconvertible)])))
     = (Throw TypeError, [])
  /\ run unreachable_world 0
       (PoeServer.handle example_runtime []
          (chat_request [(js "authorization", js "Bearer sk-test")]
             (Obj [(js "temperature", Arr [unconvertible])])))
     = (Throw TypeError, [])
  /\ run unreachable_world 0
       (PoeServer.handle example_runtime []
          (image_request [(js "authorization", js "Bearer sk-test")]
             (Obj [(js "size", unconvertible)])))
     = (Throw TypeError, [])
  /\ run unreachable_world 0
       (PoeServer.handle example_runtime []
          (image_request [(js "authorization", js "Bearer sk-test")]
             (Obj [(js "prompt", unconvertible)])))
     = (Throw TypeError, [])
  /\ fst (run unreachable_world 0
            (PoeServer.handle example_runtime []
               (chat_request [(js "authorization", js "Bearer sk-test")]
                  (Str (js "a cat")))))
     = Ok network_error_response.
Proof. repeat split. Qed.

(** ** What goes upstream *)

Lemma image_chat_request_shape (rt : Runtime) (mapping : ModelMapping) (prompt : value) :
  exists out,
    image_chat_request rt mapping prompt = Obj out /\ filtered_shape out.
Proof.
  eexists. split; [reflexivity|]. split.
  - intros k Hk. apply lookup_None. intro Hin. apply Hk.
    unfold whitelist. simpl in *. intuition congruence.
  - repeat (rewrite lookup_neq by js_neq). apply lookup_eq.
Qed.

Lemma filtered_body_shape (rt : Runtime) (mapping : ModelMapping) (body filtered : value) :
  PoeServer.filterRequestBody rt mapping body = Ok filtered ->
  exists out, filtered = Obj out /\ filtered_shape out.
Proof.
  intro Hfiltered.
  destruct (filterRequestBody_stream rt mapping body filtered Hfiltered) as (Hnn & _ & _).
  destruct (filterRequestBody_Ok rt mapping body filtered Hnn Hfiltered) as [Hmodel Htemp].
  destruct (proj1 (filterRequestBody_returns rt mapping body Hnn)
              (conj Hmodel Htemp)) as [Hm Hcl].
  destruct (filterRequestBody_entries rt mapping body _ _ Hnn Hm Hcl)
    as (supported & Hout & Hkeys & _ & _ & _ & Hn).
  rewrite Hfiltered in Hout. injection Hout as ->.
  assert (ND : NoDup (List.map fst supported)) by (rewrite Hkeys; exact whitelist_NoDup).
  eexists. split; [reflexivity|]. split.
  - intros k Hk. rewrite lookup_defined by exact ND.
    rewrite <- Hkeys in Hk. apply lookup_None in Hk. unfold own. now rewrite Hk.
  - rewrite lookup_defined by exact ND. now rewrite Hn.
Qed.

Lemma image_route_calls (rt : Runtime) (mapping : ModelMapping) (w : World)
    (req : Request) :
  snd (run w 0 (PoeServer.handleImageGeneration rt mapping req)) = []
  \/ (ToBoolean (PoeServer.getToken req) = true
      /\ exists out,
           snd (run w 0 (PoeServer.handleImageGeneration rt mapping req))
           = [upstream_call rt (PoeServer.getToken req) (Obj out)]
           /\ filtered_shape out).
Proof.
  assert (Hgen : forall reqBody, is_nullish reqBody = false ->
            snd (run w 0 (PoeServer.generateImage rt mapping (PoeServer.getToken req)
                            reqBody)) = []
            \/ exists out,
                 snd (run w 0 (PoeServer.generateImage rt mapping (PoeServer.getToken req)
                                 reqBody))
                 = [upstream_call rt (PoeServer.getToken req) (Obj out)]
                 /\ filtered_shape out).
  { intros reqBody Hnn. rewrite generateImage_calls by exact Hnn.
    destruct (converts _ && converts _); [right|now left].
    destruct (image_chat_request_shape rt mapping (get_opt reqBody (js "prompt")))
      as (out & -> & Hshape).
    now exists out. }
  unfold PoeServer.handleImageGeneration.
  destruct (ToBoolean (PoeServer.getToken req)) eqn:Htoken; cbn [negb];
    [|now left].
  destruct (req_json req) as [reqBody|e]; cbn [bind run snd]; [|now left].
  destruct (get reqBody (js "size")) as [size|e] eqn:Hsize; cbn [bind run snd];
    [|now left].
  pose proof (get_Ok_not_nullish _ _ _ Hsize) as Hnn.
  destruct (ToBoolean size).
  - destruct (strict_eq_str size (js "1024x1024")); cbn [negb].
    + destruct (Hgen reqBody Hnn) as [H|H]; [now left|right; now split].
    + left. destruct (to_string rt size); reflexivity.
  - destruct (set reqBody (js "size") (Str (js "1024x1024"))) as [reqBody'|e] eqn:Hset;
      cbn [bind run snd]; [|now left].
    destruct (Hgen reqBody' (set_Ok_not_nullish _ _ _ _ Hset)) as [H|H];
      [now left|right; now split].
Qed.

Lemma chat_route_calls (rt : Runtime) (mapping : ModelMapping) (w : World)
    (req : Request) :
  snd (run w 0 (PoeServer.handleChatCompletion rt mapping req)) = []
  \/ (ToBoolean (PoeServer.getToken req) = true
      /\ exists out,
           snd (run w 0 (PoeServer.handleChatCompletion rt mapping req))
           = [upstream_call rt (PoeServer.getToken req) (Obj out)]
           /\ filtered_shape out).
Proof.
  destruct (ToBoolean (PoeServer.getToken req)) eqn:Htoken.
  2:{ left. unfold PoeServer.handleChatCompletion. now rewrite Htoken. }
  destruct (req_json req) as [reqBody|e] eqn:Hbody.
  2:{ left. unfold PoeServer.handleChatCompletion. now rewrite Htoken, Hbody. }
  destruct (PoeServer.filterRequestBody rt mapping reqBody) as [filtered|e] eqn:Hout.
  - right. split; [reflexivity|].
    destruct (filtered_body_shape rt mapping reqBody filtered Hout) as (out & -> & Hshape).
    rewrite (chat_completion_relays rt mapping w req reqBody (Obj out) Htoken Hbody Hout).
    now exists out.
  - left. now rewrite (chat_completion_throws rt mapping w req reqBody e Htoken Hbody Hout).
Qed.

Lemma handle_calls (rt : Runtime) (mapping : ModelMapping) (w : World) (req : Request) :
  snd (run w 0 (PoeServer.handle rt mapping req)) = []
  \/ (forwarding_route req
      /\ ToBoolean (PoeServer.getToken req) = true
      /\ exists out,
           snd (run w 0 (PoeServer.handle rt mapping req))
           = [upstream_call rt (PoeServer.getToken req) (Obj out)]
           /\ filtered_shape out).
Proof.
  destruct (handle_routes rt mapping req)
    as [[Hm ->]|[(Hm & Hp & ->)|[(Hm & Hp & ->)|[[Hm Hp]|[Hnf H]]]]].
  - now left.
  - destruct (image_route_calls rt mapping w req) as [H|[Ht H]]; [now left|].
    right. repeat split; auto.
  - destruct (chat_route_calls rt mapping w req) as [H|[Ht H]]; [now left|].
    right. repeat split; auto.
  - left. now rewrite (models_listing rt mapping w req Hm Hp).
  - left. destruct (H w 0) as [data ->]. reflexivity.
Qed.

(** X3: serving one request, the filtering proxy calls the upstream at most
    once, and only on a forwarding route for a request that has a token.
    The call is a POST to the fixed upstream URL with exactly two headers,
    [authorization: Bearer <token>] and [content-type: application/json],
    and its body is an object that holds whitelisted fields only, [n] being
    1. *)
Theorem upstream_call_invariant (rt : Runtime) (mapping : ModelMapping) (w : World)
    (req : Request) :
  (List.length (snd (run w 0 (PoeServer.handle rt mapping req))) <= 1)%nat
  /\ forall call, In call (snd (run w 0 (PoeServer.handle rt mapping req))) ->
       forwarding_route req
       /\ ToBoolean (PoeServer.getToken req) = true
       /\ fetch_url call = PoeServer.UPSTREAM_API
       /\ fetch_method call = js "POST"
       /\ fetch_headers call
          = [ (js "authorization", js "Bearer " ++ ToString rt (PoeServer.getToken req));
              (js "content-type", js "application/json") ]
       /\ exists out, fetch_body call = Obj out /\ filtered_shape out.
Proof.
  destruct (handle_calls rt mapping w req) as [->|(Hroute & Htoken & out & -> & Hshape)].
  - split; [simpl; lia|]. intros call [].
  - split; [simpl; lia|]. intros call [<-|[]].
    split; [exact Hroute|]. split; [exact Htoken|].
    split; [reflexivity|]. split; [reflexivity|]. split; [reflexivity|].
    now exists out.
Qed.

Lemma String_replace_unfold (s pat rep : jsstring) :
  String_replace s pat rep
  = match strip_prefix pat s with
    | Some rest => rep ++ rest
    | None =>
        match s with
        | [] => []
        | c :: s' => c :: String_replace s' pat rep
        end
    end.
Proof. now destruct s. Qed.

Lemma getToken_bearer (req : Request) (token : jsstring) :
  lookup (req_headers req) (js "authorization") = Some (js "Bearer " ++ token) ->
  PoeServer.getToken req = Str token.
Proof.
  intro H. unfold PoeServer.getToken, Headers_get. rewrite H.
  now rewrite String_replace_unfold, strip_prefix_app.
Qed.

(** X4: when the [Authorization] header of the request starts with
    [Bearer ], the header sent upstream is that header, code unit for code
    unit: taking the token out and putting [Bearer ] back before it is the
    identity (nothing is trimmed). *)
Theorem authorization_round_trip (rt : Runtime) (mapping : ModelMapping) (w : World)
    (req : Request) (token : jsstring) :
  lookup (req_headers req) (js "authorization") = Some (js "Bearer " ++ token) ->
  PoeServer.getToken req = Str token
  /\ forall call, In call (snd (run w 0 (PoeServer.handle rt mapping req))) ->
       lookup (fetch_headers call) (js "authorization")
       = lookup (req_headers req) (js "authorization").
Proof.
  intro Hauth. pose proof (getToken_bearer req token Hauth) as Htoken.
  split; [exact Htoken|].
  destruct (handle_calls rt mapping w req) as [->|(_ & _ & out & -> & _)].
  - intros call [].
  - intros call [<-|[]]. rewrite Hauth, Htoken. apply lookup_eq.
Qed.

(** X4, at a token with a blank inside it. *)
Lemma authorization_round_trip_witness :
  snd (run unreachable_world 0
         (PoeServer.handle example_runtime chained_mapping
            (chat_request [(js "authorization", js "Bearer  sk test")] (Obj []))))
  = [upstream_call example_runtime (Str (js " sk test")) (Obj [(js "n", Num one)])]
  /\ lookup (fetch_headers
               (upstream_call example_runtime (Str (js " sk test"))
                  (Obj [(js "n", Num one)])))
       (js "authorization")
     = Some (js "Bearer  sk test").
Proof.
  split; [reflexivity|].
  apply (proj2 (authorization_round_trip example_runtime chained_mapping
                  unreachable_world
                  (chat_request [(js "authorization", js "Bearer  sk test")] (Obj []))
                  (js " sk test") eq_refl)).
  now left.
Defined.

(** ** The chat route *)



(** X6: when the upstream cannot be reached, both forwarding routes answer
    408 with type [timeout_error], after the one call that failed: the chat
    route for a body the filter returns for, the image route for a request
    past the size check whose prompt can be written out as text. *)
Theorem unreachable_upstream_408 (rt : Runtime) (mapping : ModelMapping) (w : World)
    (req : Request) (props : list (jsstring * value)) :
  forwarding_route req ->
  ToBoolean (PoeServer.getToken req) = true ->
  req_json req = Ok (Obj props) ->
  (pathname req = js "/v1/images/generations" ->
   size_passes props /\ converts (own props (js "prompt")) = true) ->
  (pathname req = js "/v1/chat/completions" -> filterable props) ->
  (forall init, exists e, upstream w init = Throw e) ->
  exists call,
    run w 0 (PoeServer.handle rt mapping req) = (Ok network_error_response, [call]).
Proof.
  intros [Hm Hp] Htoken Hbody Himage Hchat Hdown.
  destruct (handle_routes rt mapping req)
    as [[Hm' _]|[(_ & Hp' & ->)|[(_ & Hp' & ->)|[[Hm' _]|[Hnf _]]]]].
  - other_route Hm Hm'.
  - destruct (Himage Hp') as [Hsize Hprompt].
    image_route_start Htoken Hbody Hsize Hprompt.
    match goal with
    | |- context [upstream w ?c] => destruct (Hdown c) as [e ->]
    end.
    eexists. reflexivity.
  - destruct (filterable_returns rt mapping props (Hchat Hp')) as [filtered Hfiltered].
    rewrite (chat_completion_relays rt mapping w req (Obj props) filtered
               Htoken Hbody Hfiltered).
    destruct (Hdown (upstream_call rt (PoeServer.getToken req) filtered)) as [e ->].
    eexists. reflexivity.
  - other_route Hm Hm'.
  - exfalso. apply Hnf. split; auto.
Qed.

(** X6, at a chat completion and at an image request. *)
Lemma unreachable_upstream_408_witness :
  (exists call,
     run unreachable_world 0
       (PoeServer.handle example_runtime chained_mapping
          (chat_request [(js "authorization", js "Bearer sk-test")] (Obj streaming_chat)))
     = (Ok network_error_response, [call]))
  /\ (exists call,
        run unreachable_world 0
          (PoeServer.handle example_runtime chained_mapping
             (image_request [(js "authorization", js "Bearer sk-test")]
                (Obj [(js "prompt", Str (js "a cat"))])))
        = (Ok network_error_response, [call])).
Proof.
  split.
  - apply (unreachable_upstream_408 example_runtime chained_mapping unreachable_world
             (chat_request [(js "authorization", js "Bearer sk-test")]
                (Obj streaming_chat))
             streaming_chat).
    + split; [reflexivity|now left].
    + reflexivity.
    + reflexivity.
    + intro H. vm_compute in H. discriminate H.
    + intros _. split; [reflexivity|]. intro H. vm_compute in H. discriminate H.
    + intro init. now exists NetworkError.
  - apply (unreachable_upstream_408 example_runtime chained_mapping unreachable_world
             (image_request [(js "authorization", js "Bearer sk-test")]
                (Obj [(js "prompt", Str (js "a cat"))]))
             [(js "prompt", Str (js "a cat"))]).
    + split; [reflexivity|now right].
    + reflexivity.
    + reflexivity.
    + intros _. split; [now left|reflexivity].
    + intro H. vm_compute in H. discriminate H.
    + intro init. now exists NetworkError.
Defined.

(** ** The filter reads nine fields *)

(** X10: the filtered body depends on nine fields of the request and on
    nothing else: two requests that agree on [model], [messages],
    [max_tokens], [max_completion_tokens], [stream], [stream_options],
    [top_p], [stop] and [temperature] are filtered to the same body,
    whatever else they hold, [n] included. *)
Theorem filter_reads_nine_fields (rt : Runtime) (mapping : ModelMapping)
    (props props' : list (jsstring * value)) :
  (forall k, In k whitelist -> k <> js "n" -> own props k = own props' k) ->
  PoeServer.filterRequestBody rt mapping (Obj props)
  = PoeServer.filterRequestBody rt mapping (Obj props').
Proof.
  intro Hsame.
  assert (H : forall k, In k whitelist -> k <> js "n" ->
                        get (Obj props) k = get (Obj props') k).
  { intros k Hin Hn. cbn [get]. now rewrite Hsame. }
  unfold PoeServer.filterRequestBody.
  rewrite !H by (first [js_neq | vm_compute; tauto]).
  reflexivity.
Qed.

(** X10, at a request with [n], [tools] and [user] and the same without. *)
Lemma filter_reads_nine_fields_witness :
  PoeServer.filterRequestBody example_runtime chained_mapping
    (Obj [ (js "n", Num 5); (js "model", Str (js "gpt-4"));
           (js "tools", Arr [Obj []]); (js "user", Str (js "u-1")) ])
  = PoeServer.filterRequestBody example_runtime chained_mapping
      (Obj [ (js "model", Str (js "gpt-4")) ]).
Proof.
  apply filter_reads_nine_fields.
  intros k Hin Hn. unfold whitelist in Hin. simpl in Hin.
  repeat (destruct Hin as [<-|Hin]; [first [reflexivity | now destruct Hn]|]).
  contradiction.
Defined.

(** X23: the clamp does not make a number of what is none.  In a request
    whose [model] can be converted, a [temperature] that is truthy, can be
    converted and converts to NaN (text such as ["hot"], an object without
    a [toString] of its own) comes out of the filter as NaN, outside the
    range, neither dropped nor refused.  (JSON has no NaN: the upstream
    reads [null].) *)
Theorem temperature_not_a_number (rt : Runtime) (mapping : ModelMapping)
    (props : list (jsstring * value)) :
  converts (own props (js "model")) = true ->
  ToBoolean (own props (js "temperature")) = true ->
  converts (own props (js "temperature")) = true ->
  is_nan (ToNumber rt (own props (js "temperature"))) = true ->
  exists out t,
    PoeServer.filterRequestBody rt mapping (Obj props) = Ok (Obj out)
    /\ lookup out (js "temperature") = Some (Num t)
    /\ is_nan t = true
    /\ in_clamp_range t = false.
Proof.
  intros Hmodel Htruthy Hconverts Hnan.
  destruct (proj1 (filterRequestBody_returns rt mapping (Obj props) eq_refl)
              (conj Hmodel (fun _ => Hconverts))) as [Hm Hcl].
  destruct (filterRequestBody_entries rt mapping (Obj props) _ _ eq_refl Hm Hcl)
    as (supported & Hout & Hkeys & _ & _ & Htemp & _).
  rewrite get_opt_Obj, Htruthy in Htemp.
  assert (Hclamp : Math_min (Math_max (ToNumber rt (own props (js "temperature"))) zero) two
                   = nan).
  { unfold Math_max. rewrite Hnan. reflexivity. }
  rewrite Hclamp in Htemp.
  eexists. exists nan. split; [exact Hout|].
  split; [|split; reflexivity].
  rewrite lookup_defined by (rewrite Hkeys; exact whitelist_NoDup).
  now rewrite Htemp.
Qed.

(** X23, at a temperature given in words. *)
Lemma temperature_not_a_number_witness :
  exists out t,
    PoeServer.filterRequestBody example_runtime []
      (Obj [(js "temperature", Str (js "hot"))]) = Ok (Obj out)
    /\ lookup out (js "temperature") = Some (Num t)
    /\ is_nan t = true.
Proof.
  destruct (temperature_not_a_number example_runtime []
              [(js "temperature", Str (js "hot"))] eq_refl eq_refl eq_refl eq_refl)
    as (out & t & Hout & Ht & Hnan & _).
  exists out, t. split; [exact Hout|]. split; [exact Ht|exact Hnan].
Defined.

(** ** The reverse mapping *)

(** X16: the reverse mapping never changes what a name resolves to.  The
    second test of [mapModelName] returns its input on both branches, so
    the plain proxy resolves every name as the filtering proxy's [mapModel]
    does. *)
Theorem reverse_mapping_unused (rt : Runtime) (mapping reversed reversed' : ModelMapping)
    (model : value) :
  Part000.mapModelName rt
    {| Part000.modelMapping := mapping; Part000.reverseModelMapping := reversed |} model
  = Part000.mapModelName rt
      {| Part000.modelMapping := mapping; Part000.reverseModelMapping := reversed' |} model
  /\ Part000.mapModelName rt
       {| Part000.modelMapping := mapping; Part000.reverseModelMapping := reversed |} model
     = PoeServer.mapModel rt mapping model.
Proof.
  rewrite !mapModelName_mapModel. now split.
Qed.

Lemma assign_keys_In {A : Type} (props : list (jsstring * A)) (k x : jsstring) (v : A) :
  In x (List.map fst (assign props k v)) <-> x = k \/ In x (List.map fst props).
Proof.
  destruct (assign_split props k v) as [(y & Hy & ->)|(Hno & before & after & -> & ->)].
  - rewrite replace_own_keys. split; [tauto|]. intros [->|H]; [|exact H].
    apply lookup_In in Hy. now apply (in_map fst) in Hy.
  - rewrite !map_app. simpl. rewrite !in_app_iff. simpl.
    intuition congruence.
Qed.

Lemma assign_NoDup {A : Type} (props : list (jsstring * A)) (k : jsstring) (v : A) :
  NoDup (List.map fst props) -> NoDup (List.map fst (assign props k v)).
Proof.
  destruct (assign_split props k v) as [(y & Hy & ->)|(Hno & before & after & -> & ->)].
  - now rewrite replace_own_keys.
  - intro ND. apply lookup_None in Hno. rewrite map_app in *. simpl.
    apply (NoDup_Add (Add_app k (List.map fst before) (List.map fst after))).
    now split.
Qed.

Lemma lookup_assign_inv {A : Type} (props : list (jsstring * A)) (k k' : jsstring)
    (v x : A) :
  lookup (assign props k v) k' = Some x ->
  (k' = k /\ x = v) \/ lookup props k' = Some x.
Proof.
  destruct (jsstring_eq_dec k' k) as [->|Hne].
  - rewrite lookup_assign_same. intros [= ->]. now left.
  - rewrite lookup_assign_other by exact Hne. now right.
Qed.

(** What the loop of [loadModelMapping] keeps true of the object it fills. *)
Lemma reverse_entries_invariant (entries : list (jsstring * jsstring)) :
  forall rev0,
    (NoDup (Object_keys rev0) -> NoDup (Object_keys (Part000.reverse_entries entries rev0)))
    /\ (forall v, In v (Object_keys (Part000.reverse_entries entries rev0))
                  <-> In v (Object_keys rev0) \/ In v (List.map snd entries))
    /\ (forall v k, lookup (Part000.reverse_entries entries rev0) v = Some k ->
                    lookup rev0 v = Some k \/ In (k, v) entries).
Proof.
  unfold Part000.reverse_entries, Object_keys.
  induction entries as [|[k0 v0] rest IH]; intro rev0; simpl.
  - split; [tauto|]. split; [tauto|]. auto.
  - destruct (IH (assign rev0 v0 k0)) as (IHnd & IHin & IHlk).
    split; [|split].
    + intro ND. apply IHnd. now apply assign_NoDup.
    + intro v. rewrite IHin, assign_keys_In. intuition congruence.
    + intros v k Hlk. destruct (IHlk v k Hlk) as [H|H]; [|tauto].
      destruct (lookup_assign_inv _ _ _ _ _ H) as [[-> ->]|H']; tauto.
Qed.

(** Upstream names that are array indices come first among the names of the
    reverse mapping, by number. *)
Example reverse_mapping_index_order :
  Object_keys
    (Part000.reverseModelMapping
       (Part000.loadModelMapping
          (Some [(js "a", js "x"); (js "b", js "10"); (js "c", js "9"); (js "d", js "07")])))
  = [js "9"; js "10"; js "x"; js "07"].
Proof. reflexivity. Qed.

(** X17: after loading, the reverse mapping has exactly one entry for each
    upstream name of the mapping, and each entry leads back to a key that
    the mapping holds with that upstream name (to a key that is mapped to
    it, when the keys of the mapping are distinct). *)
Theorem reverse_mapping_sound (mapping : ModelMapping) :
  let reversed := Part000.reverseModelMapping (Part000.loadModelMapping (Some mapping)) in
  NoDup (Object_keys reversed)
  /\ (forall v, In v (Object_keys reversed) <-> In v (List.map snd mapping))
  /\ (forall v k, lookup reversed v = Some k -> In (k, v) mapping)
  /\ (NoDup (Object_keys mapping) ->
      forall v k, lookup reversed v = Some k -> lookup mapping k = Some v).
Proof.
  intro reversed. subst reversed. simpl.
  destruct (reverse_entries_invariant mapping []) as (Hnd & Hin & Hlk).
  split; [apply Hnd; constructor|].
  split; [intro v; rewrite Hin; simpl; tauto|].
  assert (Hback : forall v k,
            lookup (Part000.reverse_entries mapping []) v = Some k -> In (k, v) mapping).
  { intros v k H. destruct (Hlk v k H) as [H'|H']; [discriminate|exact H']. }
  split; [exact Hback|].
  intros ND v k H. apply In_lookup; [exact ND|]. now apply Hback.
Qed.

(** ** Replies with a URL *)

Lemma take_drop_while (f : code_unit -> bool) (s : jsstring) :
  take_while f s ++ drop_while f s = s.
Proof.
  induction s as [|c s IH]; simpl; [reflexivity|].
  destruct (f c); simpl; [now rewrite IH|reflexivity].
Qed.

Lemma take_while_all (f : code_unit -> bool) (s : jsstring) :
  forallb f (take_while f s) = true.
Proof.
  induction s as [|c s IH]; simpl; [reflexivity|].
  destruct (f c) eqn:E; simpl; [now rewrite E|reflexivity].
Qed.

Lemma drop_while_head (f : code_unit -> bool) (s rest : jsstring) (c : code_unit) :
  drop_while f s = c :: rest -> f c = false.
Proof.
  induction s as [|a s IH]; simpl; [discriminate|].
  destruct (f a) eqn:E; [exact IH|]. now intros [= <- _].
Qed.

Lemma skipn_take_while (f : code_unit -> bool) (s : jsstring) :
  skipn (List.length (take_while f s)) s = drop_while f s.
Proof.
  induction s as [|c s IH]; simpl; [reflexivity|].
  destruct (f c); simpl; [exact IH|reflexivity].
Qed.

(** A match at the head of [s]: the scheme, then the whole run of the class. *)
Lemma url_match_here_inv (s m : jsstring) :
  url_match_here s = Some m ->
  exists rest,
    s = js "https://" ++ rest
    /\ m = js "https://" ++ take_while url_char rest
    /\ take_while url_char rest <> []
    /\ skipn (List.length m) s = drop_while url_char rest.
Proof.
  unfold url_match_here.
  destruct (strip_prefix (js "https://") s) as [rest|] eqn:E; [|discriminate].
  apply strip_prefix_Some in E.
  destruct (take_while url_char rest) as [|c run] eqn:Et; [discriminate|].
  intro H.
  assert (Hm : m = js "https://" ++ take_while url_char rest)
    by (rewrite Et; congruence).
  clear H. exists rest.
  split; [exact E|]. split; [exact Hm|]. split; [rewrite Et; discriminate|].
  rewrite Hm, E, length_app.
  rewrite skipn_app, skipn_all2 by lia.
  replace (_ + _ - _)%nat with (List.length (take_while url_char rest)) by lia.
  simpl app. apply skipn_take_while.
Qed.

Lemma url_match_here_app (s t : jsstring) :
  url_match_here s <> None -> url_match_here (s ++ t) <> None.
Proof.
  destruct (url_match_here s) as [m|] eqn:E; [|congruence]. intros _.
  destruct (url_match_here_inv _ _ E) as (rest & -> & _ & Hrun & _).
  destruct (take_while url_char rest) as [|c run] eqn:Et; [congruence|].
  apply take_while_cons in Et. destruct Et as (rest' & -> & Hc).
  rewrite <- app_assoc. change ((c :: rest') ++ t) with (c :: (rest' ++ t)).
  now apply url_match_here_head.
Qed.

Lemma not_contains_url_cons (c : code_unit) (s : jsstring) :
  url_match_here (c :: s) = None -> ~ contains_url s -> ~ contains_url (c :: s).
Proof.
  rewrite <- !has_url_spec. intros Hhere Hs.
  rewrite has_url_unfold, Hhere. exact Hs.
Qed.

(** X14: what the pattern finds first in a text.  If the text has no place
    where [https://] is followed by a character other than white space and
    [)], nothing is found.  Otherwise the first match starts at the
    leftmost place where the pattern matches (it matches at no earlier
    place, be it one whose match would run into the first match) and runs
    to the end of the text or to the next white space or [)]: it is
    [https://] followed by at least one character, none of them white space
    or [)]. *)
Theorem first_match_is_leftmost_url (text : jsstring) :
  match url_matches text 0 with
  | [] => ~ contains_url text
  | m :: _ =>
      exists before run after,
        text = before ++ m ++ after
        /\ m = js "https://" ++ run
        /\ run <> []
        /\ forallb url_char run = true
        /\ ~ contains_url before
        /\ (forall earlier rest, before = earlier ++ rest -> rest <> [] ->
              url_match_here (rest ++ m ++ after) = None)
        /\ (forall c after', after = c :: after' -> url_char c = false)
  end.
Proof.
  assert (Hnil : ~ contains_url []).
  { rewrite <- has_url_spec. discriminate. }
  induction text as [|c s IH]; [exact Hnil|].
  destruct (url_match_here (c :: s)) as [m|] eqn:Hhere.
  - destruct (url_matches_resume _ _ Hhere) as [-> _].
    destruct (url_match_here_inv _ _ Hhere) as (rest & Hs & Hm & Hrun & _).
    exists [], (take_while url_char rest), (drop_while url_char rest).
    split.
    { rewrite Hs, Hm. simpl app at 1. rewrite <- app_assoc.
      now rewrite take_drop_while. }
    split; [exact Hm|]. split; [exact Hrun|].
    split; [apply take_while_all|]. split; [exact Hnil|].
    split.
    { intros earlier tail E Htail. symmetry in E. apply app_eq_nil in E.
      now destruct E. }
    intros a after' Ha. now apply drop_while_head in Ha.
  - destruct (url_matches_advance _ _ Hhere) as [-> _].
    destruct (url_matches s 0) as [|m found].
    + now apply not_contains_url_cons.
    + destruct IH
        as (before & run & after & Hs & Hm & Hrun & Hall & Hbefore & Hleft & Hafter).
      exists (c :: before), run, after.
      split; [simpl; now rewrite Hs|].
      split; [exact Hm|]. split; [exact Hrun|]. split; [exact Hall|].
      split; [|split; [|exact Hafter]].
      * apply not_contains_url_cons; [|exact Hbefore].
        destruct (url_match_here (c :: before)) eqn:E; [|reflexivity].
        exfalso. apply (url_match_here_app (c :: before) (m ++ after)); [congruence|].
        simpl. rewrite <- Hs. exact Hhere.
      * intros earlier tail E Htail. destruct earlier as [|c' earlier'].
        -- simpl in E. subst tail. simpl. rewrite <- Hs. exact Hhere.
        -- simpl in E. injection E as _ E. now apply (Hleft earlier' tail).
Qed.

(** X14, at a text where [https://] stands twice in a row: the first match
    starts at the first. *)
Example first_match_doubled :
  url_matches (js "see https://https://x) end") 0 = [js "https://https://x"].
Proof. reflexivity. Qed.

Lemma url_char_scheme : forallb url_char (js "https://") = true.
Proof. reflexivity. Qed.

Lemma url_match_here_not_class (c : code_unit) (s : jsstring) :
  url_char c = false -> url_match_here (c :: s) = None.
Proof.
  intro Hc. unfold url_match_here.
  destruct (strip_prefix (js "https://") (c :: s)) as [rest|] eqn:E; [|reflexivity].
  apply strip_prefix_Some in E. injection E as -> _. discriminate.
Qed.

(** The head of a stripped text: a character outside the class, or the head
    of the text itself, where no match starts. *)
Lemma url_strip_head (s rest : jsstring) (c : code_unit) :
  url_strip s 0 = c :: rest ->
  url_char c = false
  \/ exists s', s = c :: s' /\ url_match_here s = None /\ rest = url_strip s' 0.
Proof.
  destruct s as [|a s']; [discriminate|].
  destruct (url_match_here (a :: s')) as [m|] eqn:Hhere.
  - destruct (url_matches_resume _ _ Hhere) as [_ ->].
    destruct (url_match_here_inv _ _ Hhere) as (tail & _ & _ & _ & ->).
    destruct (drop_while url_char tail) as [|b tail'] eqn:Hd; [discriminate|].
    pose proof (drop_while_head _ _ _ _ Hd) as Hb.
    destruct (url_matches_advance _ _ (url_match_here_not_class b tail' Hb)) as [_ ->].
    intros [= <- _]. now left.
  - destruct (url_matches_advance _ _ Hhere) as [_ ->].
    intros [= <- <-]. right. now exists s'.
Qed.

(** A run of the class at the head of the stripped text stood at the head of
    the text. *)
Lemma url_strip_prefix (p : jsstring) :
  forallb url_char p = true ->
  forall s rest, url_strip s 0 = p ++ rest -> exists s', s = p ++ s'.
Proof.
  induction p as [|c p IH]; intros Hp s rest Hs.
  - now exists s.
  - simpl in Hp. apply andb_prop in Hp. destruct Hp as [Hc Hp].
    simpl in Hs. destruct (url_strip_head _ _ _ Hs) as [Hno|(s' & -> & _ & Hrest)].
    + congruence.
    + symmetry in Hrest. destruct (IH Hp _ _ Hrest) as [s'' ->]. now exists s''.
Qed.

Lemma url_strip_no_match_here (s : jsstring) :
  url_match_here s = None -> url_match_here (url_strip s 0) = None.
Proof.
  intro Hhere.
  destruct (url_match_here (url_strip s 0)) as [m|] eqn:E; [|reflexivity].
  exfalso.
  destruct (url_match_here_inv _ _ E) as (rest & Hs & _ & Hrun & _).
  destruct (take_while url_char rest) as [|c run] eqn:Et; [congruence|].
  apply take_while_cons in Et. destruct Et as (rest' & -> & Hc).
  assert (Hp : forallb url_char (js "https://" ++ [c]) = true).
  { rewrite forallb_app, url_char_scheme. simpl. now rewrite Hc. }
  destruct (url_strip_prefix _ Hp s rest') as [s' Hs'].
  { rewrite Hs, <- app_assoc. reflexivity. }
  rewrite Hs', <- app_assoc in Hhere. simpl app in Hhere.
  now apply (url_match_here_head c s' Hc).
Qed.

Lemma url_strip_clean (n : nat) :
  forall s, (List.length s <= n)%nat -> has_url (url_strip s 0) = false.
Proof.
  induction n as [|n IH]; intros s Hlen.
  - destruct s; [reflexivity|simpl in Hlen; lia].
  - destruct s as [|c s']; [reflexivity|].
    destruct (url_match_here (c :: s')) as [m|] eqn:Hhere.
    + destruct (url_matches_resume _ _ Hhere) as [_ ->].
      apply IH.
      destruct (url_match_here_inv _ _ Hhere) as (rest & _ & Hm & Hrun & _).
      rewrite length_skipn. simpl in Hlen.
      assert (1 <= List.length m)%nat.
      { rewrite Hm, length_app. simpl. lia. }
      simpl List.length. lia.
    + pose proof (url_strip_no_match_here _ Hhere) as Hout.
      destruct (url_matches_advance _ _ Hhere) as [_ Hstrip].
      rewrite Hstrip in *. rewrite has_url_unfold, Hout.
      apply IH. simpl in Hlen. lia.
Qed.

(** [trim] returns a part of the text. *)
Lemma String_trim_part (s : jsstring) :
  exists before after, s = before ++ String_trim s ++ after.
Proof.
  unfold String_trim.
  exists (take_while is_whitespace s),
         (rev (take_while is_whitespace (rev (drop_while is_whitespace s)))).
  rewrite <- rev_app_distr, take_drop_while, rev_involutive.
  now rewrite take_drop_while.
Qed.

Lemma contains_url_part (before s after : jsstring) :
  contains_url s -> contains_url (before ++ s ++ after).
Proof.
  intros (b & c & a & -> & Hc).
  exists (before ++ b), c, (a ++ after). split; [|exact Hc].
  rewrite <- !app_assoc. reflexivity.
Qed.

(** X15: the text the matches have been removed from has no place left
    where the pattern matches, and neither has it once trimmed: removing
    the URLs never joins two pieces into a new one.  So a [revised_prompt]
    taken from the reply holds no [https://] link. *)
Theorem stripped_text_has_no_url (text : jsstring) :
  ~ contains_url (url_strip text 0)
  /\ ~ contains_url (String_trim (url_strip text 0)).
Proof.
  assert (H : ~ contains_url (url_strip text 0)).
  { rewrite <- has_url_spec. rewrite (url_strip_clean (List.length text)); auto. }
  split; [exact H|].
  intro Ht. apply H.
  destruct (String_trim_part (url_strip text 0)) as (before & after & E).
  rewrite E. now apply contains_url_part.
Qed.

(** X13: the reply to an image request that is past the token and the size
    check and whose prompt can be written out as text, when the upstream
    call succeeds with a JSON body whose reply is text: status 200 and one
    upstream call; [url] is the first match of the
    pattern in the reply, or the empty string when there is none;
    [revised_prompt] is the reply without its matches, trimmed, or the
    request's prompt when that is shorter than 10 code units; [created] is
    the clock in whole seconds. *)
Theorem image_success_reply (rt : Runtime) (mapping : ModelMapping) (w : World)
    (req : Request) (props : list (jsstring * value)) (r : UpstreamResponse)
    (chatResponse : value) (text : jsstring) :
  ToBoolean (PoeServer.getToken req) = true ->
  req_json req = Ok (Obj props) ->
  size_passes props ->
  converts (own props (js "prompt")) = true ->
  upstream w (upstream_call rt (PoeServer.getToken req)
                (image_chat_request rt mapping (own props (js "prompt")))) = Ok r ->
  up_ok r = true ->
  up_json r = Ok chatResponse ->
  PoeServer.reply_content chatResponse = Ok (Str text) ->
  run w 0 (PoeServer.handleImageGeneration rt mapping req)
  = (Ok (PoeServer.jsonResponse
           (Obj [ (js "created", Num (Math_floor (clock w 0 / 1000)));
                  (js "data",
                    Arr [Obj [ (js "revised_prompt",
                                 if (List.length (String_trim (url_strip text 0)) <? 10)%nat
                                 then own props (js "prompt")
                                 else Str (String_trim (url_strip text 0)));
                               (js "url", Str (hd [] (url_matches text 0))) ]]) ])
           200),
     [upstream_call rt (PoeServer.getToken req)
        (image_chat_request rt mapping (own props (js "prompt")))]).
Proof.
  intros Htoken Hbody Hsize Hprompt Hup Hok Hjson Hreply.
  image_route_start Htoken Hbody Hsize Hprompt. rewrite Hup.
  cbn [bind try_catch run]. rewrite Hok, Hjson. cbn [negb bind try_catch run].
  rewrite Hreply. cbn [bind try_catch run Date_now].
  assert (Hurl : or_else (match url_matches text 0 with
                          | m :: _ => Str m
                          | [] => Undefined
                          end) (Str [])
                 = Str (hd [] (url_matches text 0))).
  { destruct (url_matches text 0) as [|[|c m] found]; reflexivity. }
  rewrite Hurl.
  assert (Hrev : (negb (ToBoolean (Str (String_trim (url_strip text 0))))
                  || (List.length (String_trim (url_strip text 0)) <? 10)%nat)
                 = (List.length (String_trim (url_strip text 0)) <? 10)%nat).
  { destruct (String_trim (url_strip text 0)); reflexivity. }
  rewrite Hrev. reflexivity.
Qed.

(** X13, at a reply with two URLs, one of them in brackets. *)
Lemma image_success_reply_witness :
  run (replying_world
         (js "Here is your cat: (https://img.example/cat.png) or https://b.example/2"))
    0
    (PoeServer.handleImageGeneration example_runtime chained_mapping
       (image_request [(js "authorization", js "Bearer sk-test")]
          (Obj [(js "prompt", Str (js "a cat"))])))
  = (Ok (PoeServer.jsonResponse
           (Obj [ (js "created", Num 1700000000);
                  (js "data",
                    Arr [Obj [ (js "revised_prompt",
                                 Str (js "Here is your cat: () or"));
                               (js "url", Str (js "https://img.example/cat.png")) ]]) ])
           200),
     [upstream_call example_runtime (Str (js "sk-test"))
        (image_chat_request example_runtime chained_mapping (Str (js "a cat")))]).
Proof.
  exact (image_success_reply example_runtime chained_mapping
           (replying_world
              (js "Here is your cat: (https://img.example/cat.png) or https://b.example/2"))
           (image_request [(js "authorization", js "Bearer sk-test")]
              (Obj [(js "prompt", Str (js "a cat"))]))
           [(js "prompt", Str (js "a cat"))]
           (chat_answer
              (js "Here is your cat: (https://img.example/cat.png) or https://b.example/2"))
           (Obj [(js "choices",
              Arr [Obj [(js "message",
                Obj [(js "content",
                  Str (js "Here is your cat: (https://img.example/cat.png) or https://b.example/2"))])]])])
           (js "Here is your cat: (https://img.example/cat.png) or https://b.example/2")
           eq_refl eq_refl (or_introl eq_refl) eq_refl eq_refl eq_refl eq_refl eq_refl).
Defined.

(** ** The plain proxy *)

Lemma bearer_token_prefix (token : jsstring) :
  Part000.bearer_token (Str (js "Bearer " ++ token)) = Some (String_trim token).
Proof.
  unfold Part000.bearer_token. now rewrite strip_prefix_app.
Qed.

Lemma bearer_token_None (auth : value) :
  (forall token, auth <> Str (js "Bearer " ++ token)) ->
  Part000.bearer_token auth = None.
Proof.
  intro H. destruct auth; try reflexivity. unfold Part000.bearer_token.
  destruct (strip_prefix (js "Bearer ") s) as [rest|] eqn:E; [|reflexivity].
  apply strip_prefix_Some in E. exfalso. apply (H rest). now rewrite E.
Qed.

Lemma assign_keys {A : Type} (props : list (jsstring * A)) (k : jsstring) (v : A) :
  In k (List.map fst props) ->
  List.map fst (assign props k v) = List.map fst props.
Proof.
  intro Hin.
  destruct (assign_split props k v) as [(y & Hy & ->)|(Hno & _)].
  - apply replace_own_keys.
  - apply lookup_None in Hno. contradiction.
Qed.

Lemma own_defined_key (props : list (jsstring * value)) (k : jsstring) :
  own props k <> Undefined -> In k (List.map fst props).
Proof.
  unfold own. destruct (lookup props k) eqn:E; [|congruence].
  intros _. apply lookup_In in E. now apply (in_map fst) in E.
Qed.

(** What resolving the model does to the body: the same fields in the same
    order, and only [model] may differ. *)
Lemma resolved_body_frame (rt : Runtime) (st : Part000.State)
    (props sent : list (jsstring * value)) :
  resolved_body rt st props = Ok sent ->
  List.map fst sent = List.map fst props
  /\ (forall k, k <> js "model" -> lookup sent k = lookup props k)
  /\ (if ToBoolean (own props (js "model"))
      then Part000.mapModelName rt st (own props (js "model")) = Ok (own sent (js "model"))
      else own sent (js "model") = own props (js "model")).
Proof.
  unfold resolved_body.
  destruct (ToBoolean (own props (js "model"))) eqn:Hmodel.
  - destruct (Part000.mapModelName rt st (own props (js "model"))) as [mapped|e];
      cbn [bind_result]; [|discriminate].
    intros [= <-]. split; [|split].
    + apply assign_keys. apply own_defined_key. intro E. now rewrite E in Hmodel.
    + intros k Hk. now apply lookup_assign_other.
    + now rewrite own_assign_same.
  - intros [= <-]. now repeat split.
Qed.

(** Resolving returns exactly when a truthy [model] can be made a property
    name. *)
Lemma resolved_body_returns (rt : Runtime) (st : Part000.State)
    (props : list (jsstring * value)) :
  resolved_body rt st props
  = if negb (ToBoolean (own props (js "model"))) || converts (own props (js "model"))
    then resolved_body rt st props
    else Throw TypeError.
Proof.
  unfold resolved_body, Part000.mapModelName, to_string.
  destruct (ToBoolean (own props (js "model"))); [|reflexivity].
  destruct (converts (own props (js "model"))); reflexivity.
Qed.

Lemma resolved_body_Ok (rt : Runtime) (st : Part000.State)
    (props : list (jsstring * value)) :
  (ToBoolean (own props (js "model")) = true -> converts (own props (js "model")) = true) ->
  exists sent, resolved_body rt st props = Ok sent.
Proof.
  intro H. unfold resolved_body, Part000.mapModelName, to_string.
  destruct (ToBoolean (own props (js "model"))); [|now eexists].
  rewrite (H eq_refl). cbn [bind_result].
  destruct (ToBoolean (index _ _)); [|destruct (ToBoolean (index _ _))]; now eexists.
Qed.

(** The chat route of the plain proxy, for a bearer token and a body that is
    a JSON object: when the model cannot be resolved, that exception and no
    call; otherwise one upstream call, and its answer relayed, or its
    rejection thrown. *)
Lemma part000_chat_run (rt : Runtime) (st : Part000.State)
    (spread_headers : Request -> list (jsstring * jsstring)) (w : World)
    (req : Request) (token : jsstring) (props : list (jsstring * value)) :
  method req = js "POST" ->
  pathname req = js "/v1/chat/completions" ->
  lookup (req_headers req) (js "authorization") = Some (js "Bearer " ++ token) ->
  req_json req = Ok (Obj props) ->
  run w 0 (Part000.handle rt st spread_headers req)
  = match resolved_body rt st props with
    | Throw e => (Throw e, [])
    | Ok sent =>
        (match upstream w (forwarded_call spread_headers req (String_trim token) sent) with
         | Ok r =>
             if strict_eq_true (own props (js "stream")) then
               Ok {| status := 200;
                     headers :=
                       [ (js "content-type", js "text/event-stream; charset=utf-8");
                         (js "cache-control", js "no-cache");
                         (js "connection", js "keep-alive");
                         (js "access-control-allow-origin", js "*") ];
                     body := StreamBody (up_body r) |}
             else
               Ok {| status := up_status r;
                     headers :=
                       [ (js "content-type", js "application/json");
                         (js "access-control-allow-origin", js "*") ];
                     body := TextBody (up_body r) |}
         | Throw e => Throw e
         end,
         [forwarded_call spread_headers req (String_trim token) sent])
    end.
Proof.
  intros Hm Hp Hauth Hbody.
  unfold Part000.handle. rewrite Hm, Hp. str_eqb_literals.
  unfold Headers_get. rewrite Hauth, bearer_token_prefix, Hbody.
  cbn [bind get].
  destruct (resolved_body rt st props) as [sent|e] eqn:Hsent.
  - assert (Hstream : own sent (js "stream") = own props (js "stream")).
    { unfold own.
      now rewrite (proj1 (proj2 (resolved_body_frame rt st props sent Hsent)))
        by js_neq. }
    unfold forwarded_call. rewrite <- Hstream. unfold resolved_body in Hsent.
    destruct (ToBoolean (own props (js "model"))).
    + destruct (Part000.mapModelName rt st (own props (js "model"))) as [mapped|e];
        cbn [bind_result] in Hsent; [|discriminate].
      injection Hsent as <-. cbn [set ret bind get fetch run].
      destruct (upstream w _) as [r|e]; cbn [bind run]; [|reflexivity].
      destruct (strict_eq_true _); reflexivity.
    + injection Hsent as <-. cbn [set ret bind get fetch run].
      destruct (upstream w _) as [r|e]; cbn [bind run]; [|reflexivity].
      destruct (strict_eq_true _); reflexivity.
  - unfold resolved_body in Hsent.
    destruct (ToBoolean (own props (js "model"))); [|discriminate].
    destruct (Part000.mapModelName rt st (own props (js "model"))) as [mapped|e'];
      cbn [bind_result] in Hsent; [discriminate|].
    injection Hsent as ->. reflexivity.
Qed.

(** X18: the plain proxy answers 401 "Missing Bearer token" to a chat
    completion whose [Authorization] header is missing or does not start
    with [Bearer ], and sends nothing upstream. *)
Theorem part000_requires_bearer (rt : Runtime) (st : Part000.State)
    (spread_headers : Request -> list (jsstring * jsstring)) (w : World) (req : Request) :
  method req = js "POST" ->
  pathname req = js "/v1/chat/completions" ->
  (forall token,
      lookup (req_headers req) (js "authorization") <> Some (js "Bearer " ++ token)) ->
  run w 0 (Part000.handle rt st spread_headers req) = (Ok bearer_required_response, []).
Proof.
  intros Hm Hp Hauth.
  unfold Part000.handle. rewrite Hm, Hp. str_eqb_literals.
  rewrite bearer_token_None; [reflexivity|].
  intros token E. unfold Headers_get in E.
  destruct (lookup (req_headers req) (js "authorization")) as [a|] eqn:El;
    [|discriminate].
  injection E as ->. now apply (Hauth token).
Qed.

(** X18, at the [Basic] header that the filtering proxy lets through. *)
Lemma part000_requires_bearer_witness :
  run unreachable_world 0
    (Part000.handle example_runtime (Part000.loadModelMapping (Some chained_mapping))
       spread_nothing basic_auth_request)
  = (Ok bearer_required_response, []).
Proof.
  apply part000_requires_bearer; try reflexivity.
  intros token E. vm_compute in E. discriminate E.
Defined.

(** X19: for a chat completion with a bearer token and a body that is a
    JSON object whose [model], when truthy, can be made a property name,
    the plain proxy calls the upstream once, by POST at the fixed URL, with
    [authorization: Bearer <token>] (the token trimmed),
    [content-type: application/json] and [host: api.poe.com] whatever the
    request's own headers were.  The object it serialises has the request's
    fields in the request's order, all of them with the request's values
    (nothing is filtered, clamped or added), except that a truthy [model]
    holds what [mapModelName] returned for it. *)
Theorem part000_forwards_whole_body (rt : Runtime) (st : Part000.State)
    (spread_headers : Request -> list (jsstring * jsstring)) (w : World)
    (req : Request) (token : jsstring) (props : list (jsstring * value)) :
  method req = js "POST" ->
  pathname req = js "/v1/chat/completions" ->
  lookup (req_headers req) (js "authorization") = Some (js "Bearer " ++ token) ->
  req_json req = Ok (Obj props) ->
  (ToBoolean (own props (js "model")) = true -> converts (own props (js "model")) = true) ->
  exists call sent,
    snd (run w 0 (Part000.handle rt st spread_headers req)) = [call]
    /\ fetch_url call = Part000.UPSTREAM_API
    /\ fetch_method call = js "POST"
    /\ lookup (fetch_headers call) (js "authorization")
       = Some (js "Bearer " ++ String_trim token)
    /\ lookup (fetch_headers call) (js "content-type") = Some (js "application/json")
    /\ lookup (fetch_headers call) (js "host") = Some (js "api.poe.com")
    /\ fetch_body call = Obj sent
    /\ List.map fst sent = List.map fst props
    /\ (forall k, k <> js "model" -> lookup sent k = lookup props k)
    /\ (if ToBoolean (own props (js "model"))
        then Part000.mapModelName rt st (own props (js "model"))
             = Ok (own sent (js "model"))
        else own sent (js "model") = own props (js "model")).
Proof.
  intros Hm Hp Hauth Hbody Hmodel.
  rewrite (part000_chat_run rt st spread_headers w req token props Hm Hp Hauth Hbody).
  destruct (resolved_body_Ok rt st props Hmodel) as [sent Hsent]. rewrite Hsent.
  destruct (resolved_body_frame rt st props sent Hsent) as (Hkeys & Hframe & Hresolved).
  exists (forwarded_call spread_headers req (String_trim token) sent), sent.
  split; [reflexivity|]. split; [reflexivity|]. split; [reflexivity|].
  split.
  { cbn [forwarded_call fetch_headers]. unfold Part000.upstream_headers.
    rewrite !lookup_assign_other by js_neq. apply lookup_assign_same. }
  split.
  { cbn [forwarded_call fetch_headers]. unfold Part000.upstream_headers.
    rewrite lookup_assign_other by js_neq. apply lookup_assign_same. }
  split.
  { cbn [forwarded_call fetch_headers]. unfold Part000.upstream_headers.
    apply lookup_assign_same. }
  split; [reflexivity|]. now repeat split.
Qed.

(** X19, at a request with a mapped model and a [tools] field, two blanks
    before its token. *)
Lemma part000_forwards_whole_body_witness :
  exists call,
    snd (run unreachable_world 0
           (Part000.handle example_runtime
              (Part000.loadModelMapping (Some chained_mapping)) req_headers
              (chat_request [(js "authorization", js "Bearer  sk-test")]
                 (Obj streaming_chat))))
    = [call]
    /\ fetch_headers call
       = [ (js "authorization", js "Bearer sk-test");
           (js "content-type", js "application/json");
           (js "host", js "api.poe.com") ]
    /\ fetch_body call
       = Obj [ (js "model", Str (js "GPT-4o"));
               (js "messages", Arr []);
               (js "stream", Bool true);
               (js "tools", Arr []) ].
Proof.
  destruct (part000_forwards_whole_body example_runtime
              (Part000.loadModelMapping (Some chained_mapping)) req_headers
              unreachable_world
              (chat_request [(js "authorization", js "Bearer  sk-test")]
                 (Obj streaming_chat))
              (js " sk-test") streaming_chat eq_refl eq_refl eq_refl eq_refl
              (fun _ => eq_refl))
    as (call & sent & Hcalls & _).
  exists call. split; [exact Hcalls|].
  assert (E : [call]
              = [forwarded_call req_headers
                   (chat_request [(js "authorization", js "Bearer  sk-test")]
                      (Obj streaming_chat))
                   (js "sk-test")
                   [ (js "model", Str (js "GPT-4o"));
                     (js "messages", Arr []);
                     (js "stream", Bool true);
                     (js "tools", Arr []) ]]).
  { rewrite <- Hcalls. reflexivity. }
  injection E as ->. split; reflexivity.
Defined.

(** A model that names a member of [Object.prototype] the mapping does not
    hold resolves to that built-in function; one that cannot be made a
    property name ends the handler before any call. *)
Example part000_odd_models :
  snd (run unreachable_world 0
         (Part000.handle example_runtime
            (Part000.loadModelMapping (Some chained_mapping)) spread_nothing
            (chat_request [(js "authorization", js "Bearer sk-test")]
               (Obj [(js "model", Str (js "constructor"))]))))
  = [forwarded_call spread_nothing
       (chat_request [(js "authorization", js "Bearer sk-test")]
          (Obj [(js "model", Str (js "constructor"))]))
       (js "sk-test") [(js "model", Fun (js "Object"))]]
  /\ run unreachable_world 0
       (Part000.handle example_runtime
          (Part000.loadModelMapping (Some chained_mapping)) spread_nothing
          (chat_request [(js "authorization", js "Bearer sk-test")]
             (Obj [(js "model", unconvertible)])))
     = (Throw TypeError, []).
Proof. split; reflexivity. Qed.



(** X21: the plain proxy has no [catch] around its upstream call: when the
    model has been resolved and the call is rejected, [handle] ends in that
    exception and gives no response (where the filtering proxy answers
    408). *)
Theorem part000_failure_uncaught (rt : Runtime) (st : Part000.State)
    (spread_headers : Request -> list (jsstring * jsstring)) (w : World)
    (req : Request) (token : jsstring) (props sent : list (jsstring * value))
    (e : error) :
  method req = js "POST" ->
  pathname req = js "/v1/chat/completions" ->
  lookup (req_headers req) (js "authorization") = Some (js "Bearer " ++ token) ->
  req_json req = Ok (Obj props) ->
  resolved_body rt st props = Ok sent ->
  upstream w (forwarded_call spread_headers req (String_trim token) sent) = Throw e ->
  run w 0 (Part000.handle rt st spread_headers req)
  = (Throw e, [forwarded_call spread_headers req (String_trim token) sent]).
Proof.
  intros Hm Hp Hauth Hbody Hsent Hup.
  rewrite (part000_chat_run rt st spread_headers w req token props Hm Hp Hauth Hbody).
  now rewrite Hsent, Hup.
Qed.

(** X21, at an upstream that cannot be reached. *)
Lemma part000_failure_uncaught_witness :
  fst (run unreachable_world 0
         (Part000.handle example_runtime
            (Part000.loadModelMapping (Some chained_mapping)) spread_nothing
            (chat_request [(js "authorization", js "Bearer sk-test")]
               (Obj streaming_chat))))
  = Throw NetworkError.
Proof.
  exact (f_equal fst
           (part000_failure_uncaught example_runtime
              (Part000.loadModelMapping (Some chained_mapping)) spread_nothing
              unreachable_world
              (chat_request [(js "authorization", js "Bearer sk-test")]
                 (Obj streaming_chat))
              (js "sk-test") streaming_chat
              [ (js "model", Str (js "GPT-4o"));
                (js "messages", Arr []);
                (js "stream", Bool true);
                (js "tools", Arr []) ]
              NetworkError
              eq_refl eq_refl eq_refl eq_refl eq_refl eq_refl)).
Defined.

Lemma run_plain_model_entries (w : World) (models : list jsstring) :
  forall tick,
    run w tick (mapM Part000.model_entry models)
    = (Ok (plain_model_entries w tick models), []).
Proof.
  induction models as [|model rest IH]; intro tick; [reflexivity|].
  simpl. rewrite run_bind, IH. reflexivity.
Qed.

Lemma ids_of_plain_model_entries (w : World) (models : list jsstring) :
  forall tick,
    List.map (fun item => get_opt item (js "id")) (plain_model_entries w tick models)
    = List.map Str models.
Proof.
  induction models as [|model rest IH]; intro tick; simpl; [reflexivity|].
  now rewrite IH.
Qed.

Lemma Set_of_In (names : list jsstring) :
  forall seen x, In x (Part000.Set_of names seen) <-> In x names /\ ~ In x seen.
Proof.
  induction names as [|a rest IH]; intros seen x; simpl; [tauto|].
  destruct (in_dec jsstring_eq_dec a seen) as [Hin|Hnot].
  - rewrite IH. split; [tauto|]. intros [[<-|H] Hs]; tauto.
  - simpl. rewrite IH. simpl. split.
    + intros [<-|[H Hs]]; tauto.
    + intros [[<-|H] Hs]; [now left|].
      destruct (jsstring_eq_dec a x) as [<-|Hne]; [now left|]. right. tauto.
Qed.

(** X22: what [GET /v1/models] of the plain proxy answers, whatever was
    loaded: status 200 and no upstream call; one entry for each identifier,
    its [created] the clock as it reads; the identifiers are the keys of
    the mapping and its upstream names, and each is listed once, also a
    name that is both. *)
Theorem part000_models_listing (rt : Runtime) (parsed : option ModelMapping)
    (spread_headers : Request -> list (jsstring * jsstring)) (w : World) :
  let st := Part000.loadModelMapping parsed in
  exists r,
    run w 0 (Part000.handle rt st spread_headers models_request) = (Ok r, [])
    /\ status r = 200%Z
    /\ body r
       = JsonBody
           (Obj [ (js "object", Str (js "list"));
                  (js "data", Arr (plain_model_entries w 0 (Part000.model_ids st))) ])
    /\ listed_ids r = List.map Str (Part000.model_ids st)
    /\ NoDup (listed_ids r)
    /\ (forall x, In (Str x) (listed_ids r)
                  <-> In x (List.map fst (Part000.modelMapping st))
                      \/ In x (List.map snd (Part000.modelMapping st))).
Proof.
  intro st.
  assert (Hrun : run w 0 (Part000.handle rt st spread_headers models_request)
                 = (Ok {| status := 200;
                          headers :=
                            [ (js "content-type", js "application/json");
                              (js "access-control-allow-origin", js "*") ];
                          body :=
                            JsonBody
                              (Obj [ (js "object", Str (js "list"));
                                     (js "data",
                                       Arr (plain_model_entries w 0
                                              (Part000.model_ids st))) ]) |},
                    [])).
  { unfold Part000.handle. cbn [models_request method pathname]. str_eqb_literals.
    rewrite run_bind, run_plain_model_entries. reflexivity. }
  eexists. split; [exact Hrun|]. split; [reflexivity|]. split; [reflexivity|].
  assert (Hids : listed_ids
                   {| status := 200;
                      headers :=
                        [ (js "content-type", js "application/json");
                          (js "access-control-allow-origin", js "*") ];
                      body :=
                        JsonBody
                          (Obj [ (js "object", Str (js "list"));
                                 (js "data",
                                   Arr (plain_model_entries w 0
                                          (Part000.model_ids st))) ]) |}
                 = List.map Str (Part000.model_ids st)).
  { unfold listed_ids. cbn [body].
    change (get_opt (Obj ?l) (js "data")) with (own l (js "data")).
    unfold own. rewrite lookup_neq by js_neq. rewrite lookup_eq.
    apply ids_of_plain_model_entries. }
  rewrite Hids. split; [reflexivity|].
  split; [apply NoDup_map_Str, Set_of_NoDup|].
  intro x. rewrite in_map_iff. unfold Part000.model_ids.
  assert (Hrev : In x (Object_keys (Part000.reverseModelMapping st))
                 <-> In x (List.map snd (Part000.modelMapping st))).
  { subst st. destruct parsed as [m|]; simpl; [|tauto].
    destruct (reverse_entries_invariant m []) as (_ & Hin & _).
    rewrite Hin. simpl. tauto. }
  rewrite <- Hrev. split.
  - intros (y & [= ->] & Hy). apply Set_of_In in Hy. destruct Hy as [Hy _].
    apply in_app_or in Hy. exact Hy.
  - intro H. exists x. split; [reflexivity|]. apply Set_of_In.
    split; [|simpl; tauto]. apply in_or_app. exact H.
Qed.

Example part000_models_listing_chained :
  Part000.model_ids (Part000.loadModelMapping (Some chained_mapping))
  = [js "gpt-4"; js "GPT-4o"; js "GPT-4o-Mini"].
Proof. reflexivity. Qed.

Lemma part000_call_headers (spread_headers : Request -> list (jsstring * jsstring))
    (req : Request) (token : jsstring) :
  lookup (Part000.upstream_headers spread_headers req token) (js "authorization")
  = Some (js "Bearer " ++ token).
Proof.
  unfold Part000.upstream_headers.
  rewrite !lookup_assign_other by js_neq. apply lookup_assign_same.
Qed.

(** The chat route of the plain proxy past the bearer check, for any body:
    no call when the body cannot be read, one call otherwise. *)
Lemma part000_chat_calls (rt : Runtime) (st : Part000.State)
    (spread_headers : Request -> list (jsstring * jsstring)) (w : World)
    (req : Request) (token : jsstring) :
  let p :=
    (reqBody <- Ret (req_json req) ;;
     model <- Ret (get reqBody (js "model")) ;;
     reqBody <- (if ToBoolean model
                 then mappedModel <- Ret (Part000.mapModelName rt st model) ;;
                      Ret (set reqBody (js "model") mappedModel)
                 else ret reqBody) ;;
     stream <- Ret (get reqBody (js "stream")) ;;
     upstreamResp <- fetch
       {| fetch_url := Part000.UPSTREAM_API;
          fetch_method := js "POST";
          fetch_headers := Part000.upstream_headers spread_headers req token;
          fetch_body := reqBody |} ;;
     if strict_eq_true stream then
       ret {| status := 200;
              headers :=
                [ (js "content-type", js "text/event-stream; charset=utf-8");
                  (js "cache-control", js "no-cache");
                  (js "connection", js "keep-alive");
                  (js "access-control-allow-origin", js "*") ];
              body := StreamBody (up_body upstreamResp) |}
     else
       ret {| status := up_status upstreamResp;
              headers :=
                [ (js "content-type", js "application/json");
                  (js "access-control-allow-origin", js "*") ];
              body := TextBody (up_body upstreamResp) |}) in
  snd (run w 0 p) = []
  \/ exists sent,
       is_nullish sent = false
       /\ snd (run w 0 p)
          = [ {| fetch_url := Part000.UPSTREAM_API;
                 fetch_method := js "POST";
                 fetch_headers := Part000.upstream_headers spread_headers req token;
                 fetch_body := sent |} ].
Proof.
  intro p. subst p.
  destruct (req_json req) as [reqBody|e]; cbn [bind run snd]; [|now left].
  destruct reqBody; cbn [get bind ToBoolean ret run snd]; try (now left);
    try (right; eexists; split; [|cbn [fetch bind run];
           destruct (upstream w _) as [r|e]; cbn [bind run snd];
           [destruct (strict_eq_true _)|]; reflexivity]; reflexivity).
  destruct (ToBoolean (own props (js "model"))); cbn [set ret bind get].
  - destruct (Part000.mapModelName rt st (own props (js "model"))) as [mapped|e];
      cbn [set ret bind get run snd]; [|now left].
    right; eexists; (split; [|cbn [fetch bind run];
       destruct (upstream w _) as [r|e]; cbn [bind run snd];
       [destruct (strict_eq_true _)|]; reflexivity]); reflexivity.
  - right; eexists; (split; [|cbn [fetch bind run];
       destruct (upstream w _) as [r|e]; cbn [bind run snd];
       [destruct (strict_eq_true _)|]; reflexivity]); reflexivity.
Qed.

(** X24: serving one request, the plain proxy calls the upstream at most
    once, and only for a POST to [/v1/chat/completions] whose
    [Authorization] header starts with [Bearer ].  The call is a POST to
    the fixed upstream URL under [authorization: Bearer <token>], the token
    trimmed, and the body it carries is never [null]. *)
Theorem part000_upstream_call_invariant (rt : Runtime) (st : Part000.State)
    (spread_headers : Request -> list (jsstring * jsstring)) (w : World) (req : Request) :
  (List.length (snd (run w 0 (Part000.handle rt st spread_headers req))) <= 1)%nat
  /\ forall call, In call (snd (run w 0 (Part000.handle rt st spread_headers req))) ->
       method req = js "POST"
       /\ pathname req = js "/v1/chat/completions"
       /\ fetch_url call = Part000.UPSTREAM_API
       /\ fetch_method call = js "POST"
       /\ is_nullish (fetch_body call) = false
       /\ exists token,
            lookup (req_headers req) (js "authorization") = Some (js "Bearer " ++ token)
            /\ lookup (fetch_headers call) (js "authorization")
               = Some (js "Bearer " ++ String_trim token).
Proof.
  unfold Part000.handle.
  destruct (str_eqb (method req) (js "POST")) eqn:Em;
    destruct (str_eqb (pathname req) (js "/v1/chat/completions")) eqn:Ep; cbn [andb].
  1:{ apply str_eqb_eq in Em, Ep. unfold Headers_get.
      destruct (lookup (req_headers req) (js "authorization")) as [auth|] eqn:Eauth;
        cbn [Part000.bearer_token]; [|split; [simpl; lia|intros call []]].
      destruct (strip_prefix (js "Bearer ") auth) as [rest|] eqn:Erest;
        [|split; [simpl; lia|intros call []]].
      apply strip_prefix_Some in Erest. subst auth.
      destruct (part000_chat_calls rt st spread_headers w req (String_trim rest))
        as [->|(sent & Hsent & ->)].
      - split; [simpl; lia|intros call []].
      - split; [simpl; lia|]. intros call [<-|[]].
        repeat (split; [auto; reflexivity|]).
        exists rest. split; [reflexivity|]. apply part000_call_headers. }
  all: destruct (str_eqb (method req) (js "GET") && str_eqb (pathname req) (js "/v1/models"));
    [rewrite run_bind, run_plain_model_entries|]; cbn [ret run snd];
    (split; [simpl; lia|intros call []]).
Qed.

(** Any other request is told that the proxy is up, and how many names it
    has loaded. *)
Example part000_health_check :
  run unreachable_world 0
    (Part000.handle example_runtime (Part000.loadModelMapping (Some chained_mapping))
       spread_nothing
       {| method := js "GET"; pathname := js "/"; req_headers := [];
          req_json := Throw SyntaxError |})
  = (Ok {| status := 200;
           headers := [(js "content-type", js "application/json")];
           body :=
             JsonBody
               (Obj [ (js "message", Str (js "OK, POST /v1/chat/completions"));
                      (js "models_loaded", Num 2) ]) |},
     []).
Proof. reflexivity. Qed.
